(** * The emoji list panel of Telegram Desktop

    A shallow embedding of [chat_helpers/emoji_list_widget.cpp]: the grid of
    built-in emoji sections followed by custom emoji sets
    ([EmojiListWidget]), the colour-variant overlay ([EmojiColorPicker]),
    the repaint coalescer, the unloading of custom sets that scrolled out of
    view and the press / release state machine.

    C++ [int], [int32] and [crl::time] values are modelled as [Z]; signed
    overflow is undefined in C++, so the model describes the executions in
    which no arithmetic overflows.  [/] and [%] on [int] truncate towards
    zero and are [Z.quot] and [Z.rem].  [uint64] identifiers are [N]. *)

From Stdlib Require Import ZArith List Bool Lia Sorted.
From stdpp Require Import base numbers option list gmap strings.

Local Open Scope Z_scope.

(** ** Index conversion ([namespace Layout]) *)

Module Layout.

(** Modelled from the spec: [Layout::PositionToIndex] and
    [Layout::IndexToPosition] are declared in [layout/layout_position.h],
    which is not among the sources.  The spec says the conversion between a
    linear item index and a (section, offset) pair goes "via a running total
    of prior sections' counts", recomputed on each call against the current
    snapshot of the counts, in time linear in the number of sections.  The
    snapshot is the first argument. *)
Fixpoint runningTotal (counts : list Z) (sections : nat) : Z :=
  match sections, counts with
  | S n, c :: rest => c + runningTotal rest n
  | _, _ => 0
  end.

(** Modelled from the spec: [Layout::PositionToIndex(row, column)], the
    running total of the counts of the sections before [row] plus the
    offset. *)
Definition PositionToIndex (counts : list Z) (row column : Z) : Z :=
  runningTotal counts (Z.to_nat row) + column.

(** Modelled from the spec: the scan of [Layout::IndexToPosition] over the
    sections, subtracting the counts of the sections passed. *)
Fixpoint scanSections (counts : list Z) (section index : Z) : Z * Z :=
  match counts with
  | [] => (section, index)
  | c :: rest =>
      if index <? c then (section, index)
      else scanSections rest (section + 1) (index - c)
  end.

(** Modelled from the spec: [Layout::IndexToPosition(index)]; the callers
    test [index >= 0] before they use the result. *)
Definition IndexToPosition (counts : list Z) (index : Z) : Z * Z :=
  if index <? 0 then (-1, 0) else scanSections counts 0 index.

End Layout.

(** ** Cells of a section

    [EmojiListWidget::updateSelected] numbers the cell in row [row] and
    column [column] of a section [row * _columnCount + column];
    [EmojiListWidget::emojiRect] goes back from that offset to the column
    [sel % _columnCount] and the row [rowsToSkip]. *)

Definition cellOffset (columnCount row column : Z) : Z :=
  row * columnCount + column.

Definition cellColumn (columnCount sel : Z) : Z := Z.rem sel columnCount.

Definition cellRow (columnCount sel : Z) : Z :=
  let countTillItem := sel - Z.rem sel columnCount in
  countTillItem ÷ columnCount
  + (if Z.rem countTillItem columnCount =? 0 then 0 else 1).

(** The hovered linear index as [updateSelected] computes it from a section
    and a cell of it. *)
Definition hoveredIndex (counts : list Z) (columnCount section row column : Z)
  : Z :=
  cellOffset columnCount row column + Layout.PositionToIndex counts section 0.

Definition totalCount (counts : list Z) : Z :=
  Layout.runningTotal counts (length counts).

Definition sectionCount (counts : list Z) (section : Z) : Z :=
  nth (Z.to_nat section) counts 0.


(** ** Record update

    The widgets are records changed one member at a time;
    [w <| member := v |>] is [w] with [member] replaced by [v]. *)

Class Setter {R T : Type} (proj : R -> T) := { set : T -> R -> R }.
Arguments set {R T} proj {Setter} _ _ /.

Notation "w <| proj := v |>" := (set proj v w)
  (at level 1, left associativity, format "w  <| proj  :=  v |>").

Ltac make_setter eta proj :=
  let e := eval cbv delta [eta] in eta in
  match eval pattern proj in e with
  | ?s _ =>
      let r := eval cbv beta in (fun v => s (fun _ => v)) in exact r
  end.

(** ** Geometry and style *)

Definition QPoint : Type := Z * Z.
Definition QSize : Type := Z * Z.

Definition px (p : QPoint) : Z := fst p.
Definition py (p : QPoint) : Z := snd p.
Definition sizeWidth (s : QSize) : Z := fst s.
Definition sizeHeight (s : QSize) : Z := snd s.

Module QRect.
Record t := mk { x : Z; y : Z; width : Z; height : Z }.
End QRect.

#[global] Instance QRect_eq_dec : EqDecision QRect.t.
Proof. solve_decision. Defined.

(** The constants of [namespace st] (generated from the style files, which
    are not among the sources) are parameters of the model. *)
Module Style.
Record t := mk {
  emojiPanPadding : Z;
  emojiPanHeader : Z;
  emojiPanMarginsLeft : Z;
  emojiPanMarginsTop : Z;
  emojiPanMarginsRight : Z;
  emojiPanMarginsBottom : Z;
  emojiColorsPadding : Z;
  emojiColorsSep : Z;
  roundRadiusSmall : Z;
}.
End Style.

(** The further constants of [namespace st] that [countDesiredHeight]
    reads; [emojiScrollWidth] is [st::emojiScroll.width]. *)
Module StyleGrid.
Record t := mk {
  emojiScrollWidth : Z;
  emojiPadding : Z;
  emojiPanDesiredSize : Z;
  lineWidth : Z;
}.
End StyleGrid.

(** [kEmojiSectionCount]: the number of built-in sections, the length of
    [Footer::_sections], which the footer fills with the eight buttons
    Recent, People, Nature, Food, Activity, Travel, Objects, Symbols. *)
Definition kEmojiSectionCount : Z := 8.

(** ** Emoji and documents *)

Module One.

(** Modelled from the spec: [Ui::Emoji::One] ([ui/emoji_config.h] is not
    among the sources).  An item belongs to a family named by
    [nonColoredId]; a family with variants has [variantsCount] coloured
    variants next to the plain one, and [variantIndex] is the place of the
    item in its family, [0] for the plain one. *)
Record t := mk { nonColoredId : N; variantIndex : Z; variantsCount : Z }.

(** Modelled from the spec: [hasVariants()] tells a multi-variant item,
    the plain member of the family as well as the coloured ones. *)
Definition hasVariants (e : t) : bool := 0 <? variantsCount e.

(** Modelled from the spec: [variant(index)], the member number [index] of
    the family of the emoji. *)
Definition variant (e : t) (index : Z) : t :=
  mk (nonColoredId e) index (variantsCount e).

End One.

#[global] Instance One_eq_dec : EqDecision One.t.
Proof. solve_decision. Defined.

Definition EmojiPtr : Type := One.t.

(** [DocumentData]: the model keeps what [refreshCustom] reads, the
    identifier and whether the document is a sticker.  A
    [not_null<DocumentData*>] is modelled by the record, pointer equality
    by equality of records. *)
Module DocumentData.
Record t := mk { id : N; sticker : bool }.
End DocumentData.

#[global] Instance DocumentData_eq_dec : EqDecision DocumentData.t.
Proof. solve_decision. Defined.

(** A sticker set of the catalog ([Data::StickersSet]): title and ordered
    documents. *)
Module StickersSet.
Record t := mk { title : string; stickers : list DocumentData.t }.
End StickersSet.

(** ** Custom emoji instances *)

Module CustomInstance.

(** Modelled from the spec: [Ui::CustomEmoji::Instance] and
    [Ui::CustomEmoji::Object] ([ui/text/custom_emoji_instance.h] is not
    among the sources).  Of an instance the model keeps whether its
    decoded / animation state is present ([loaded]).  [setId] is the set
    identifier captured by the [repaintDelayed] and [repaintNow] closures
    that [refreshCustom] passes to the constructor. *)
Record t := mk { setId : N; loaded : bool }.

(** Modelled from the spec: [object.unload()] releases the decoded /
    animation state. *)
Definition unload (i : t) : t := mk (setId i) false.

(** Modelled from the spec: [object.paint(...)] establishes the state
    (loading is triggered by painting). *)
Definition paint (i : t) : t := mk (setId i) true.

End CustomInstance.

(** [CustomOne::instance] is a raw pointer into [_instances]; instances are
    never erased from the registry while the widget lives, so the pointer
    is modelled by the key of the instance, the document identifier. *)
Module CustomOne.
Record t := mk { instance : N; document : DocumentData.t }.
End CustomOne.

Module CustomSet.
Record t := mk {
  id : N;
  title : string;
  list : list CustomOne.t;
  painted : bool;
}.

(** The value-initialised [CustomSet()], what [base::take] leaves behind. *)
Definition empty : t := mk 0%N EmptyString [] false.

Definition eta (s : t) : t := mk (id s) (title s) (list s) (painted s).
#[global] Instance set_painted : Setter painted :=
  {| set := ltac:(make_setter eta painted) |}.
End CustomSet.

(** ** Repaint requests *)

Module RepaintRequest.
Record t := mk { when : Z; duration : Z }.
End RepaintRequest.

Module Repaint.
Record t := mk { when : Z; ids : gset N }.

(** A value-initialised [Repaint], created by [_repaints[duration]] for a
    duration that has no bucket yet. *)
Definition empty : t := mk 0 ∅.
End Repaint.

Module SectionInfo.
Record t := mk {
  section : Z;
  count : Z;
  top : Z;
  rowsCount : Z;
  rowsTop : Z;
  rowsBottom : Z;
}.

(** [SectionInfo()] *)
Definition empty : t := mk 0 0 0 0 0 0.
End SectionInfo.

Inductive MouseButton := LeftButton | RightButton | MiddleButton.

#[global] Instance MouseButton_eq_dec : EqDecision MouseButton.
Proof. solve_decision. Defined.

(** ** The variant overlay ([EmojiColorPicker])

    [origin] is the global position of the top-left corner of the overlay
    (changed by [move]), [width] and [height] its size (changed by
    [resize]), [hidden] is [isHidden()], [animating] is
    [_a_opacity.animating()], [cacheNull] is [_cache.isNull()].  Repaint
    requests and the cursor shape of the overlay are not modelled. *)
Module EmojiColorPicker.

Record t := mk {
  _ignoreShow : bool;
  _variants : list EmojiPtr;
  _selected : Z;
  _pressedSel : Z;
  _lastMousePos : QPoint;
  _singleSize : QSize;
  _hiding : bool;
  cacheNull : bool;
  animating : bool;
  hidden : bool;
  origin : QPoint;
  width : Z;
  height : Z;
}.

Definition eta (p : t) : t :=
  mk (_ignoreShow p) (_variants p) (_selected p) (_pressedSel p)
     (_lastMousePos p) (_singleSize p) (_hiding p) (cacheNull p)
     (animating p) (hidden p) (origin p) (width p) (height p).

#[global] Instance set_ignoreShow : Setter _ignoreShow :=
  {| set := ltac:(make_setter eta _ignoreShow) |}.
#[global] Instance set_variants : Setter _variants :=
  {| set := ltac:(make_setter eta _variants) |}.
#[global] Instance set_selected : Setter _selected :=
  {| set := ltac:(make_setter eta _selected) |}.
#[global] Instance set_pressedSel : Setter _pressedSel :=
  {| set := ltac:(make_setter eta _pressedSel) |}.
#[global] Instance set_lastMousePos : Setter _lastMousePos :=
  {| set := ltac:(make_setter eta _lastMousePos) |}.
#[global] Instance set_singleSize : Setter _singleSize :=
  {| set := ltac:(make_setter eta _singleSize) |}.
#[global] Instance set_hiding : Setter _hiding :=
  {| set := ltac:(make_setter eta _hiding) |}.
#[global] Instance set_cacheNull : Setter cacheNull :=
  {| set := ltac:(make_setter eta cacheNull) |}.
#[global] Instance set_animating : Setter animating :=
  {| set := ltac:(make_setter eta animating) |}.
#[global] Instance set_hidden : Setter hidden :=
  {| set := ltac:(make_setter eta hidden) |}.
#[global] Instance set_origin : Setter origin :=
  {| set := ltac:(make_setter eta origin) |}.
#[global] Instance set_width : Setter width :=
  {| set := ltac:(make_setter eta width) |}.
#[global] Instance set_height : Setter height :=
  {| set := ltac:(make_setter eta height) |}.

Section WithStyle.

Variable st : Style.t.
(** [rtl()], the layout direction of the application. *)
Variable rtl : bool.

Definition mapFromGlobal (p : t) (g : QPoint) : QPoint :=
  (px g - px (origin p), py g - py (origin p)).

Definition mapToGlobal (p : t) (l : QPoint) : QPoint :=
  (px l + px (origin p), py l + py (origin p)).

(** [rect().contains(point)] for a point in the overlay's coordinates. *)
Definition rectContains (p : t) (l : QPoint) : bool :=
  (0 <=? px l) && (px l <? width p) && (0 <=? py l) && (py l <? height p).

Definition setSelected (newSelected : Z) (p : t) : t :=
  if _selected p =? newSelected then p
  else p <| _selected := newSelected |>.

(** The variant under [_lastMousePos], [-1] when there is none. *)
Definition variantAt (p : t) : Z :=
  let l := mapFromGlobal p (_lastMousePos p) in
  let sx := if rtl then width p - px l else px l in
  let y := py l - Style.emojiPanMarginsTop st - Style.emojiColorsPadding st in
  if (0 <=? y) && (y <? sizeHeight (_singleSize p)) then
    let x :=
      sx - Style.emojiPanMarginsLeft st - Style.emojiColorsPadding st in
    if (0 <=? x) && (x <? sizeWidth (_singleSize p)) then 0
    else
      let x' :=
        x - (sizeWidth (_singleSize p)
             + 2 * Style.emojiColorsPadding st + Style.emojiColorsSep st) in
      if (0 <=? x')
         && (x' <? sizeWidth (_singleSize p)
                   * (Z.of_nat (length (_variants p)) - 1))
      then x' ÷ sizeWidth (_singleSize p) + 1
      else -1
  else -1.

Definition updateSelected (p : t) : t := setSelected (variantAt p) p.

Definition clearSelection (p : t) : t :=
  let p1 := p <| _pressedSel := -1 |> in
  let p2 := setSelected (-1) p1 in
  p2 <| _lastMousePos := mapToGlobal p2 (-10, -10) |>.

Definition updateSize (p : t) : t :=
  let n := Z.of_nat (length (_variants p)) in
  let w :=
    Style.emojiPanMarginsLeft st
    + sizeWidth (_singleSize p) * n
    + (n - 2) * Style.emojiColorsPadding st
    + Style.emojiColorsSep st
    + Style.emojiPanMarginsRight st in
  let h :=
    Style.emojiPanMarginsTop st
    + 2 * Style.emojiColorsPadding st
    + sizeHeight (_singleSize p)
    + Style.emojiPanMarginsBottom st in
  updateSelected (p <| width := w |> <| height := h |>).

Definition hideAnimated (p : t) : t :=
  let p1 :=
    if cacheNull p then clearSelection (p <| cacheNull := false |>) else p in
  p1 <| _hiding := true |> <| animating := true |>.

Definition showAnimated (p : t) : t :=
  if _ignoreShow p then p
  else if negb (hidden p) && negb (_hiding p) then p
  else
    let p1 := p <| _hiding := false |> in
    let p2 :=
      if cacheNull p1 then clearSelection (p1 <| cacheNull := false |>)
      else p1 in
    p2 <| hidden := false |> <| animating := true |>.

(** [emoji->variant(i)] for [i] from [0] to [emoji->variantsCount()]. *)
Definition variantsOf (emoji : EmojiPtr) : list EmojiPtr :=
  map (fun i => One.variant emoji (Z.of_nat i))
      (seq 0 (Z.to_nat (One.variantsCount emoji + 1))).

Definition showEmoji (emoji : EmojiPtr) (p : t) : t :=
  if negb (One.hasVariants emoji) then p
  else
    let p1 := p <| _ignoreShow := false |> in
    let p2 := p1 <| _variants := variantsOf emoji |> in
    let p3 := updateSize p2 in
    let p4 := if negb (cacheNull p3) then p3 <| cacheNull := true |> else p3 in
    showAnimated p4.

Definition setSingleSize (size : QSize) (p : t) : t :=
  updateSize (p <| _singleSize := size |>).

Definition handleMouseMove (globalPos : QPoint) (p : t) : t :=
  updateSelected (p <| _lastMousePos := globalPos |>).

Definition mousePressEvent (button : MouseButton) (globalPos : QPoint) (p : t)
  : t :=
  match button with
  | LeftButton =>
      let p1 := updateSelected (p <| _lastMousePos := globalPos |>) in
      p1 <| _pressedSel := _selected p1 |>
  | _ => p
  end.

(** [handleMouseRelease] up to the point where [_chosen] may fire: the
    overlay afterwards and the variant to fire, if any.  The subscriber of
    [_chosen] runs before the rest of [handleMouseRelease]
    ([releaseHide]). *)
Definition releaseSelect (globalPos : QPoint) (p : t) : t * option EmojiPtr :=
  let p1 := p <| _lastMousePos := globalPos |> in
  let pressed := _pressedSel p1 in
  let p2 := p1 <| _pressedSel := -1 |> in
  let p3 := updateSelected p2 in
  if (0 <=? _selected p3) && ((pressed <? 0) || (_selected p3 =? pressed))
  then (p3, _variants p3 !! Z.to_nat (_selected p3))
  else (p3, None).

Definition releaseHide (p : t) : t :=
  hideAnimated (p <| _ignoreShow := true |>).

(** The point [w] of [drawVariant]: the top-left corner of the cell of
    [variant], which [setSelected] repaints as well. *)
Definition variantCell (p : t) (variant : Z) : QPoint :=
  (Style.emojiPanMarginsLeft st + Style.emojiColorsPadding st
   + variant * sizeWidth (_singleSize p)
   + (if variant =? 0 then 0
      else 2 * Style.emojiColorsPadding st + Style.emojiColorsSep st),
   Style.emojiPanMarginsTop st + Style.emojiColorsPadding st).

(** [hideFast] up to the point where [_hidden] fires. *)
Definition hideFast (p : t) : t :=
  (clearSelection p) <| animating := false |> <| cacheNull := true |>
                     <| hidden := true |>.

(** [animationCallback]: the overlay afterwards and whether [_hidden]
    fired.  [cursorPos] is [QCursor::pos()]. *)
Definition animationCallback (cursorPos : QPoint) (p : t) : t * bool :=
  if animating p then (p, false)
  else
    let p1 := p <| cacheNull := true |> in
    if _hiding p1 then (p1 <| hidden := true |>, true)
    else (updateSelected (p1 <| _lastMousePos := cursorPos |>), false).

End WithStyle.

End EmojiColorPicker.

(** ** The list widget ([EmojiListWidget])

    Next to the members of the class the record carries the state of the
    host that the code reads ([origin], the global position of the
    widget's top-left corner; [width]; [visibleTop] and [visibleBottom]
    stored by [Inner::visibleTopBottomUpdated]; [scrollDisabled] set by
    [disableScroll]; [pickerParent], the global position of the overlay's
    parent widget), the collaborators in [Core::App().settings()]
    ([emojiVariants], the stored preferred variant of each family, and
    [recentEmoji], the emoji passed to [incrementRecentEmoji]), and what
    the widget emits: the values fired on [_chosen] and [_customChosen]
    and the rectangles that [repaintCustom] passes to [update].

    [_repaintTimer] and [_showPickerTimer] hold the timeout of the armed
    single-shot timer, [None] when the timer is not active.  The footer,
    tooltips, the cursor shape and the repaint requests of hovered cells
    are not modelled. *)
Module EmojiListWidget.

Record t := mk {
  _counts : list Z;
  _emoji : list (list EmojiPtr);
  _custom : list CustomSet.t;
  _instances : gmap N CustomInstance.t;
  _repaints : list (Z * Repaint.t);
  _repaintTimerScheduled : bool;
  _repaintNext : Z;
  _repaintTimer : option Z;
  _columnCount : Z;
  _rowsLeft : Z;
  _singleSize : QSize;
  _selected : Z;
  _pressedSel : Z;
  _pickerSel : Z;
  _lastMousePos : QPoint;
  _picker : EmojiColorPicker.t;
  _showPickerTimer : option Z;
  origin : QPoint;
  width : Z;
  visibleTop : Z;
  visibleBottom : Z;
  scrollDisabled : bool;
  pickerParent : QPoint;
  emojiVariants : gmap N Z;
  recentEmoji : list EmojiPtr;
  chosen : list EmojiPtr;
  customChosen : list DocumentData.t;
  updated : list QRect.t;
}.

Definition eta (w : t) : t :=
  mk (_counts w) (_emoji w) (_custom w) (_instances w) (_repaints w)
     (_repaintTimerScheduled w) (_repaintNext w) (_repaintTimer w)
     (_columnCount w) (_rowsLeft w) (_singleSize w) (_selected w)
     (_pressedSel w) (_pickerSel w) (_lastMousePos w) (_picker w)
     (_showPickerTimer w) (origin w) (width w) (visibleTop w)
     (visibleBottom w) (scrollDisabled w) (pickerParent w) (emojiVariants w)
     (recentEmoji w) (chosen w) (customChosen w) (updated w).

#[global] Instance set_counts : Setter _counts :=
  {| set := ltac:(make_setter eta _counts) |}.
#[global] Instance set_columnCount : Setter _columnCount :=
  {| set := ltac:(make_setter eta _columnCount) |}.
#[global] Instance set_rowsLeft : Setter _rowsLeft :=
  {| set := ltac:(make_setter eta _rowsLeft) |}.
#[global] Instance set_singleSize : Setter _singleSize :=
  {| set := ltac:(make_setter eta _singleSize) |}.
#[global] Instance set_emoji : Setter _emoji :=
  {| set := ltac:(make_setter eta _emoji) |}.
#[global] Instance set_custom : Setter _custom :=
  {| set := ltac:(make_setter eta _custom) |}.
#[global] Instance set_instances : Setter _instances :=
  {| set := ltac:(make_setter eta _instances) |}.
#[global] Instance set_repaints : Setter _repaints :=
  {| set := ltac:(make_setter eta _repaints) |}.
#[global] Instance set_repaintTimerScheduled : Setter _repaintTimerScheduled :=
  {| set := ltac:(make_setter eta _repaintTimerScheduled) |}.
#[global] Instance set_repaintNext : Setter _repaintNext :=
  {| set := ltac:(make_setter eta _repaintNext) |}.
#[global] Instance set_repaintTimer : Setter _repaintTimer :=
  {| set := ltac:(make_setter eta _repaintTimer) |}.
#[global] Instance set_selected : Setter _selected :=
  {| set := ltac:(make_setter eta _selected) |}.
#[global] Instance set_pressedSel : Setter _pressedSel :=
  {| set := ltac:(make_setter eta _pressedSel) |}.
#[global] Instance set_pickerSel : Setter _pickerSel :=
  {| set := ltac:(make_setter eta _pickerSel) |}.
#[global] Instance set_lastMousePos : Setter _lastMousePos :=
  {| set := ltac:(make_setter eta _lastMousePos) |}.
#[global] Instance set_picker : Setter _picker :=
  {| set := ltac:(make_setter eta _picker) |}.
#[global] Instance set_showPickerTimer : Setter _showPickerTimer :=
  {| set := ltac:(make_setter eta _showPickerTimer) |}.
#[global] Instance set_visibleTop : Setter visibleTop :=
  {| set := ltac:(make_setter eta visibleTop) |}.
#[global] Instance set_visibleBottom : Setter visibleBottom :=
  {| set := ltac:(make_setter eta visibleBottom) |}.
#[global] Instance set_scrollDisabled : Setter scrollDisabled :=
  {| set := ltac:(make_setter eta scrollDisabled) |}.
#[global] Instance set_emojiVariants : Setter emojiVariants :=
  {| set := ltac:(make_setter eta emojiVariants) |}.
#[global] Instance set_recentEmoji : Setter recentEmoji :=
  {| set := ltac:(make_setter eta recentEmoji) |}.
#[global] Instance set_chosen : Setter chosen :=
  {| set := ltac:(make_setter eta chosen) |}.
#[global] Instance set_customChosen : Setter customChosen :=
  {| set := ltac:(make_setter eta customChosen) |}.
#[global] Instance set_updated : Setter updated :=
  {| set := ltac:(make_setter eta updated) |}.

Section WithStyle.

Variable st : Style.t.
(** [rtl()], the layout direction of the application. *)
Variable rtl : bool.
(** [qRound(xmax * coef)] of [showPicker], where [coef] is the [float64]
    quotient of [sel % _columnCount] by [_columnCount - 1], mirrored when
    [rtl()]: the floating-point placement is a parameter, applied to
    [xmax], [sel % _columnCount] and [_columnCount - 1]. *)
Variable pickerLeft : Z -> Z -> Z -> Z.

(** *** Layout *)

Definition sectionsCount (w : t) : Z :=
  kEmojiSectionCount + Z.of_nat (length (_custom w)).

(** The body of the [next] lambda of [enumerateSections]; [i] is the loop
    counter at the time of the call, [columnCount] is [_columnCount] and
    [rowHeight] is [_singleSize.height()]. *)
Definition next (columnCount rowHeight : Z) (i section count top : Z)
  : SectionInfo.t :=
  let rowsCount := (count + columnCount - 1) ÷ columnCount in
  let rowsTop :=
    top + (if i =? 0 then Style.emojiPanPadding st
           else Style.emojiPanHeader st) in
  let rowsBottom := rowsTop + rowsCount * rowHeight in
  SectionInfo.mk section count top rowsCount rowsTop rowsBottom.

Fixpoint enumerateFrom (columnCount rowHeight : Z) (top : Z)
  (entries : list (Z * Z * Z)) : list SectionInfo.t :=
  match entries with
  | [] => []
  | (i, section, count) :: rest =>
      let info := next columnCount rowHeight i section count top in
      info
      :: enumerateFrom columnCount rowHeight (SectionInfo.rowsBottom info) rest
  end.

(** The first loop of [enumerateSections]: [info.section = i] and
    [info.count = _counts[i]] for the built-in sections. *)
Definition builtinEntries (w : t) : list (Z * Z * Z) :=
  map (fun i => (Z.of_nat i, Z.of_nat i, nth i (_counts w) 0))
      (seq 0 (Z.to_nat kEmojiSectionCount)).

(** The second loop: [info.section = i++], so that [next] runs with the
    counter already advanced. *)
Fixpoint customEntriesFrom (i : Z) (custom : list CustomSet.t)
  : list (Z * Z * Z) :=
  match custom with
  | [] => []
  | section :: rest =>
      (i + 1, i, Z.of_nat (length (CustomSet.list section)))
      :: customEntriesFrom (i + 1) rest
  end.

Definition customEntries (w : t) : list (Z * Z * Z) :=
  customEntriesFrom kEmojiSectionCount (_custom w).

(** [enumerateSections] visits these sections in this order until the
    callback returns [false]; callers are folds and searches over the
    list. *)
Definition enumerateSections (w : t) : list SectionInfo.t :=
  enumerateFrom (_columnCount w) (sizeHeight (_singleSize w)) 0
    (builtinEntries w ++ customEntries w).

(** The snapshot of the section counts that the index conversion runs
    against. *)
Definition sectionCounts (w : t) : list Z :=
  map snd (builtinEntries w ++ customEntries w).

Definition sectionInfo (w : t) (section : Z) : SectionInfo.t :=
  default SectionInfo.empty
    (find (fun info => SectionInfo.section info =? section)
          (enumerateSections w)).

Definition sectionInfoByOffset (w : t) (yOffset : Z) : SectionInfo.t :=
  let count := sectionsCount w in
  default SectionInfo.empty
    (find (fun info =>
             (yOffset <? SectionInfo.rowsBottom info)
             || (SectionInfo.section info =? count - 1))
          (enumerateSections w)).

Definition emojiRect (w : t) (section sel : Z) : QRect.t :=
  let info := sectionInfo w section in
  let x :=
    _rowsLeft w + cellColumn (_columnCount w) sel * sizeWidth (_singleSize w) in
  let y :=
    SectionInfo.rowsTop info
    + cellRow (_columnCount w) sel * sizeHeight (_singleSize w) in
  QRect.mk x y (sizeWidth (_singleSize w)) (sizeHeight (_singleSize w)).

(** The point [w] of the loop of [paintEvent] over the rows [i] and the
    columns [j] of a section: where the item of the cell is drawn. *)
Definition paintCell (w : t) (info : SectionInfo.t) (i j : Z) : QPoint :=
  (_rowsLeft w + j * sizeWidth (_singleSize w),
   SectionInfo.rowsTop info + i * sizeHeight (_singleSize w)).

Definition mapFromGlobal (w : t) (g : QPoint) : QPoint :=
  (px g - px (origin w), py g - py (origin w)).

Definition mapToGlobal (w : t) (l : QPoint) : QPoint :=
  (px l + px (origin w), py l + py (origin w)).

(** [_custom[section - kEmojiSectionCount]] *)
Definition customAt (w : t) (section : Z) : option CustomSet.t :=
  if kEmojiSectionCount <=? section
  then _custom w !! Z.to_nat (section - kEmojiSectionCount)
  else None.

(** [_emoji[section][sel]] under the guard
    [section < kEmojiSectionCount && sel < _emoji[section].size()]; the
    callers pass the non-negative results of [IndexToPosition]. *)
Definition emojiAt (w : t) (section sel : Z) : option EmojiPtr :=
  if (0 <=? section) && (section <? kEmojiSectionCount) && (0 <=? sel)
  then l ← _emoji w !! Z.to_nat section; l !! Z.to_nat sel
  else None.

(** *** Repaint coalescer *)

(** [_repaints[duration]] followed by a change of the bucket: the flat map
    keeps its buckets sorted by duration and creates a value-initialised
    one where there is none. *)
Fixpoint touch (duration : Z) (f : Repaint.t -> Repaint.t)
  (m : list (Z * Repaint.t)) : list (Z * Repaint.t) :=
  match m with
  | [] => [(duration, f Repaint.empty)]
  | (k, r) :: rest =>
      if duration <? k then (duration, f Repaint.empty) :: m
      else if duration =? k then (k, f r) :: rest
      else (k, r) :: touch duration f rest
  end.

Fixpoint bucket (duration : Z) (m : list (Z * Repaint.t))
  : option Repaint.t :=
  match m with
  | [] => None
  | (k, r) :: rest => if duration =? k then Some r else bucket duration rest
  end.

Definition scheduleRepaintTimer (w : t) : t :=
  if _repaintTimerScheduled w then w
  else w <| _repaintTimerScheduled := true |>.

Definition repaintLater (setId : N) (request : RepaintRequest.t) (w : t) : t :=
  if decide (_instances w = ∅) then w
  else
    let change (repaint : Repaint.t) :=
      Repaint.mk
        (if Repaint.when repaint <? RepaintRequest.when request
         then RepaintRequest.when request else Repaint.when repaint)
        ({[setId]} ∪ Repaint.ids repaint) in
    scheduleRepaintTimer
      (w <| _repaints :=
              touch (RepaintRequest.duration request) change (_repaints w) |>).

Definition repaintCustom (checkId : N -> bool) (w : t) : t :=
  fold_left
    (fun w info =>
       match customAt w (SectionInfo.section info) with
       | Some set =>
           if checkId (CustomSet.id set) then
             w <| updated :=
                    updated w
                    ++ [QRect.mk 0 (SectionInfo.rowsTop info) (width w)
                          (SectionInfo.rowsBottom info
                           - SectionInfo.rowsTop info)] |>
           else w
       | None => w
       end)
    (enumerateSections w) w.

(** The loop of [invokeRepaints] over [_repaints]: the buckets that stay
    and the identifiers collected from the erased ones. *)
Fixpoint takeDue (now : Z) (m : list (Z * Repaint.t)) (ids : gset N)
  : list (Z * Repaint.t) * gset N :=
  match m with
  | [] => ([], ids)
  | (k, r) :: rest =>
      if now <? Repaint.when r then
        let '(m', ids') := takeDue now rest ids in ((k, r) :: m', ids')
      else
        takeDue now rest
          (if decide (ids = ∅) then Repaint.ids r else ids ∪ Repaint.ids r)
  end.

(** [now] is the value of [crl::now()]. *)
Definition invokeRepaints (now : Z) (w : t) : t :=
  let w1 := w <| _repaintNext := 0 |> in
  let '(m, ids) := takeDue now (_repaints w1) ∅ in
  let w2 := w1 <| _repaints := m |> in
  let w3 := repaintCustom (fun id => bool_decide (id ∈ ids)) w2 in
  scheduleRepaintTimer w3.

(** One turn of the loop of the posted call over [_repaints], and [next]
    after the loop. *)
Definition earlier (next : Z) (b : Z * Repaint.t) : Z :=
  if (next =? 0) || (Repaint.when (snd b) <? next)
  then Repaint.when (snd b) else next.

Definition nextWhen (m : list (Z * Repaint.t)) : Z := fold_left earlier m 0.

(** The call that [scheduleRepaintTimer] posts with [Ui::PostponeCall]; a
    call is pending exactly while [_repaintTimerScheduled] is set.  [now]
    is the value of [crl::now()] read by the call, [now'] the one read by
    [invokeRepaints] when the call invokes it. *)
Definition postponedCall (now now' : Z) (w : t) : t :=
  let w1 := w <| _repaintTimerScheduled := false |> in
  let next := nextWhen (_repaints w1) in
  if negb (next =? 0)
     && ((_repaintNext w1 =? 0) || (next <? _repaintNext w1))
  then
    if next <=? now then
      invokeRepaints now'
        (w1 <| _repaintNext := 0 |> <| _repaintTimer := None |>)
    else
      w1 <| _repaintNext := next |> <| _repaintTimer := Some (next - now) |>
  else w1.

(** The timeout of [_repaintTimer]. *)
Definition repaintTimerFired (now : Z) (w : t) : t :=
  invokeRepaints now (w <| _repaintTimer := None |>).

(** *** Unloading of custom sets out of view *)

Definition unloadSection (top bottom : Z) (w : t) (info : SectionInfo.t) : t :=
  if (SectionInfo.section info <? kEmojiSectionCount)
     || ((top <? SectionInfo.rowsBottom info)
         && (SectionInfo.rowsTop info <? bottom))
  then w
  else
    match customAt w (SectionInfo.section info) with
    | None => w
    | Some custom =>
        if negb (CustomSet.painted custom) then w
        else
          let w1 :=
            w <| _custom :=
                   <[Z.to_nat (SectionInfo.section info - kEmojiSectionCount)
                     := custom <| CustomSet.painted := false |>]>
                     (_custom w) |> in
          fold_left
            (fun w single =>
               w <| _instances :=
                      alter CustomInstance.unload (CustomOne.instance single)
                        (_instances w) |>)
            (CustomSet.list custom) w1
    end.

Definition unloadNotSeenCustom (visibleTop visibleBottom : Z) (w : t) : t :=
  fold_left (unloadSection visibleTop visibleBottom) (enumerateSections w) w.

Definition visibleTopBottomUpdated (top bottom : Z) (w : t) : t :=
  unloadNotSeenCustom top bottom
    (w <| visibleTop := top |> <| visibleBottom := bottom |>).

Definition drawCustom (set index : Z) (w : t) : t :=
  match _custom w !! Z.to_nat set with
  | None => w
  | Some custom =>
      let w1 :=
        w <| _custom :=
               <[Z.to_nat set := custom <| CustomSet.painted := true |>]>
                 (_custom w) |> in
      match CustomSet.list custom !! Z.to_nat index with
      | None => w1
      | Some single =>
          w1 <| _instances :=
                  alter CustomInstance.paint (CustomOne.instance single)
                    (_instances w1) |>
      end
  end.

(** *** Catalog refresh *)

(** The [valid] lambda of [refreshCustom]: equal sizes and the same
    document at every position. *)
Fixpoint sameDocuments (l : list CustomOne.t) (docs : list DocumentData.t)
  : bool :=
  match l, docs with
  | [], [] => true
  | one :: l', d :: docs' =>
      bool_decide (CustomOne.document one = d) && sameDocuments l' docs'
  | _, _ => false
  end.

(** One turn of the loop over the documents of a set. *)
Definition addDocument (setId : N)
  (acc : list CustomOne.t * gmap N CustomInstance.t)
  (document : DocumentData.t) : list CustomOne.t * gmap N CustomInstance.t :=
  if DocumentData.sticker document then
    let instances :=
      match acc.2 !! DocumentData.id document with
      | Some _ => acc.2
      | None =>
          <[DocumentData.id document := CustomInstance.mk setId false]> acc.2
      end in
    (acc.1 ++ [CustomOne.mk (DocumentData.id document) document], instances)
  else acc.

(** One turn of the loop over [order]; the state of the loop is [old]
    (with the taken sets value-initialised), the new [_custom] and
    [_instances]. *)
Definition refreshSet (sets : gmap N StickersSet.t)
  (acc : list CustomSet.t * list CustomSet.t * gmap N CustomInstance.t)
  (setId : N) : list CustomSet.t * list CustomSet.t * gmap N CustomInstance.t :=
  let '(old, custom, instances) := acc in
  match sets !! setId with
  | None => acc
  | Some it =>
      match StickersSet.stickers it with
      | [] => acc
      | _ =>
          let built :=
            let '(set, instances') :=
              fold_left (addDocument setId) (StickersSet.stickers it)
                ([], instances) in
            (old,
             custom ++ [CustomSet.mk setId (StickersSet.title it) set false],
             instances') in
          match list_find (fun s => CustomSet.id s = setId) old with
          | Some (i, found) =>
              if sameDocuments (CustomSet.list found) (StickersSet.stickers it)
              then (<[i := CustomSet.empty]> old, custom ++ [found], instances)
              else built
          | None => built
          end
      end
  end.

(** [order] is [emojiSetsOrder()] and [sets] is [sets()] of the sticker
    catalog. *)
Definition refreshCustom (order : list N) (sets : gmap N StickersSet.t)
  (w : t) : t :=
  let '(_, custom, instances) :=
    fold_left (refreshSet sets) order (_custom w, [], _instances w) in
  w <| _custom := custom |> <| _instances := instances |>.

(** *** Hover, press and release *)

Definition setSelected (newSelected : Z) (w : t) : t :=
  if _selected w =? newSelected then w
  else
    let w1 := w <| _selected := newSelected |> in
    if (0 <=? _selected w1) && negb (EmojiColorPicker.hidden (_picker w1))
    then
      if negb (_selected w1 =? _pickerSel w1)
      then w1 <| _picker := EmojiColorPicker.hideAnimated (_picker w1) |>
      else w1 <| _picker := EmojiColorPicker.showAnimated (_picker w1) |>
    else w1.

(** [newSelected] of [updateSelected]: the linear index of the item under
    [_lastMousePos], [-1] when there is none. *)
Definition itemAt (w : t) : Z :=
  let p := mapFromGlobal w (_lastMousePos w) in
  let info := sectionInfoByOffset w (py p) in
  if (SectionInfo.rowsTop info <=? py p)
     && (py p <? SectionInfo.rowsBottom info)
  then
    let sx := (if rtl then width w - px p else px p) - _rowsLeft w in
    if (0 <=? sx) && (sx <? _columnCount w * sizeWidth (_singleSize w))
    then
      let newSelected :=
        cellOffset (_columnCount w)
          ((py p - SectionInfo.rowsTop info) ÷ sizeHeight (_singleSize w))
          (sx ÷ sizeWidth (_singleSize w)) in
      if SectionInfo.count info <=? newSelected then -1
      else
        newSelected
        + Layout.PositionToIndex (sectionCounts w)
            (SectionInfo.section info) 0
    else -1
  else -1.

Definition updateSelected (w : t) : t :=
  if (0 <=? _pressedSel w) || (0 <=? _pickerSel w) then w
  else setSelected (itemAt w) w.

Definition checkPickerHide (w : t) : bool * t :=
  if negb (EmojiColorPicker.hidden (_picker w)) && (0 <=? _pickerSel w)
  then
    (true,
     updateSelected
       (w <| _picker := EmojiColorPicker.hideAnimated (_picker w) |>
          <| _pickerSel := -1 |>))
  else (false, w).

Definition showPicker (w : t) : t :=
  if _pickerSel w <? 0 then w
  else
    let '(section, sel) :=
      Layout.IndexToPosition (sectionCounts w) (_pickerSel w) in
    match emojiAt w section sel with
    | Some emoji =>
        if One.hasVariants emoji then
          let p := EmojiColorPicker.showEmoji st rtl emoji (_picker w) in
          let y0 :=
            QRect.y (emojiRect w section sel)
            - (EmojiColorPicker.height p - Style.roundRadiusSmall st
               + visibleTop w) in
          let y :=
            if y0 <? Style.emojiPanHeader st then
              y0 + (EmojiColorPicker.height p - Style.roundRadiusSmall st
                    + sizeHeight (_singleSize w) - Style.roundRadiusSmall st)
            else y0 in
          let xmax := width w - EmojiColorPicker.width p in
          let x :=
            pickerLeft xmax (Z.rem sel (_columnCount w)) (_columnCount w - 1) in
          w <| _picker :=
                 p <| EmojiColorPicker.origin :=
                        (px (pickerParent w) + x, py (pickerParent w) + y) |> |>
            <| scrollDisabled := true |>
        else w
    | None => w
    end.

(** The timeout of [_showPickerTimer]. *)
Definition showPickerTimerFired (w : t) : t :=
  showPicker (w <| _showPickerTimer := None |>).

Definition mousePressEvent (button : MouseButton) (globalPos : QPoint) (w : t)
  : t :=
  let w1 := updateSelected (w <| _lastMousePos := globalPos |>) in
  let '(hid, w2) := checkPickerHide w1 in
  if hid || negb (bool_decide (button = LeftButton)) then w2
  else
    let w3 := w2 <| _pressedSel := _selected w2 |> in
    if 0 <=? _selected w3 then
      let '(section, sel) :=
        Layout.IndexToPosition (sectionCounts w3) (_selected w3) in
      match emojiAt w3 section sel with
      | Some emoji =>
          if One.hasVariants emoji then
            let w4 := w3 <| _pickerSel := _selected w3 |> in
            match emojiVariants w4 !! One.nonColoredId emoji with
            | None => showPicker w4
            | Some _ => w4 <| _showPickerTimer := Some 500 |>
            end
          else w3
      | None => w3
      end
    else w3.

(** Modelled from the spec: [Core::Settings::incrementRecentEmoji] is not
    among the sources; the model records the emoji handed to the "recently
    used" collaborator. *)
Definition incrementRecentEmoji (emoji : EmojiPtr) (w : t) : t :=
  w <| recentEmoji := recentEmoji w ++ [emoji] |>.

(** Modelled from the spec: [Core::Settings::saveEmojiVariant] is not among
    the sources; it "persists the chosen variant as the item's future
    preferred variant". *)
Definition saveEmojiVariant (emoji : EmojiPtr) (w : t) : t :=
  w <| emojiVariants :=
         <[One.nonColoredId emoji := One.variantIndex emoji]>
           (emojiVariants w) |>.

Definition selectEmoji (emoji : EmojiPtr) (w : t) : t :=
  let w1 := incrementRecentEmoji emoji w in
  w1 <| chosen := chosen w1 ++ [emoji] |>.

Definition selectCustom (document : DocumentData.t) (w : t) : t :=
  w <| customChosen := customChosen w ++ [document] |>.

(** [_emoji[section][sel] = emoji] *)
Definition setEmojiAt (section sel : Z) (emoji : EmojiPtr) (w : t) : t :=
  w <| _emoji :=
         alter (fun l => <[Z.to_nat sel := emoji]> l) (Z.to_nat section)
           (_emoji w) |>.

(** The subscriber of [_picker->chosen()]. *)
Definition colorChosen (emoji : EmojiPtr) (w : t) : t :=
  let w1 := if One.hasVariants emoji then saveEmojiVariant emoji w else w in
  let w2 :=
    if 0 <=? _pickerSel w1 then
      let '(section, sel) :=
        Layout.IndexToPosition (sectionCounts w1) (_pickerSel w1) in
      if (0 <=? section) && (section <? kEmojiSectionCount)
      then setEmojiAt section sel emoji w1
      else w1
    else w1 in
  let w3 := selectEmoji emoji w2 in
  w3 <| _picker := EmojiColorPicker.hideAnimated (_picker w3) |>.

(** [_picker->handleMouseRelease(globalPos)], with the subscriber of the
    overlay's [_chosen] stream run where the stream fires. *)
Definition pickerHandleMouseRelease (globalPos : QPoint) (w : t) : t :=
  let '(p, fired) :=
    EmojiColorPicker.releaseSelect st rtl globalPos (_picker w) in
  let w1 := w <| _picker := p |> in
  let w2 :=
    match fired with
    | Some emoji => colorChosen emoji w1
    | None => w1
    end in
  w2 <| _picker := EmojiColorPicker.releaseHide (_picker w2) |>.

(** Whether a release at [globalPos] goes to the overlay. *)
Definition pickerTakes (globalPos : QPoint) (w : t) : bool :=
  negb (EmojiColorPicker.hidden (_picker w))
  && EmojiColorPicker.rectContains (_picker w)
       (EmojiColorPicker.mapFromGlobal (_picker w) globalPos).

(** The end of [mouseReleaseEvent], from the comparison of [_selected] with
    the index that was pressed. *)
Definition commitRelease (pressed : Z) (w : t) : t :=
  if (_selected w <? 0) || negb (_selected w =? pressed) then w
  else
    let '(section, sel) :=
      Layout.IndexToPosition (sectionCounts w) (_selected w) in
    match emojiAt w section sel with
    | Some emoji =>
        if One.hasVariants emoji
           && negb (EmojiColorPicker.hidden (_picker w))
        then w
        else selectEmoji emoji w
    | None =>
        match customAt w section with
        | Some set =>
            match CustomSet.list set !! Z.to_nat sel with
            | Some one => selectCustom (CustomOne.document one) w
            | None => w
            end
        | None => w
        end
    end.

(** [globalPos] is [e->globalPos()], [cursorPos] is [QCursor::pos()]. *)
Definition mouseReleaseEvent (globalPos cursorPos : QPoint) (w : t) : t :=
  let pressed := _pressedSel w in
  let w1 := w <| _pressedSel := -1 |> <| _lastMousePos := globalPos |> in
  if pickerTakes globalPos w1 then pickerHandleMouseRelease cursorPos w1
  else
    let w2 :=
      if negb (EmojiColorPicker.hidden (_picker w1)) && (0 <=? _pickerSel w1)
      then
        let '(section, sel) :=
          Layout.IndexToPosition (sectionCounts w1) (_pickerSel w1) in
        match emojiAt w1 section sel with
        | Some emoji =>
            if One.hasVariants emoji
               && bool_decide
                    (is_Some (emojiVariants w1 !! One.nonColoredId emoji))
            then
              w1 <| _picker := EmojiColorPicker.hideAnimated (_picker w1) |>
                 <| _pickerSel := -1 |>
            else w1
        | None => w1
        end
      else w1 in
    let w3 := updateSelected w2 in
    let w4 :=
      match _showPickerTimer w3 with
      | Some _ =>
          w3 <| _showPickerTimer := None |>
             <| _pickerSel := -1 |>
             <| _picker := (_picker w3) <| EmojiColorPicker.hidden := true |> |>
      | None => w3
      end in
    commitRelease pressed w4.

(** The subscriber of [_picker->hidden()]. *)
Definition pickerHidden (cursorPos : QPoint) (w : t) : t :=
  updateSelected
    (w <| _pickerSel := -1 |> <| scrollDisabled := false |>
       <| _lastMousePos := cursorPos |>).

Definition mouseMoveEvent (globalPos cursorPos : QPoint) (w : t) : t :=
  let w1 := w <| _lastMousePos := globalPos |> in
  if negb (EmojiColorPicker.hidden (_picker w1)) then
    if EmojiColorPicker.rectContains (_picker w1)
         (EmojiColorPicker.mapFromGlobal (_picker w1) globalPos)
    then
      w1 <| _picker :=
              EmojiColorPicker.handleMouseMove st rtl cursorPos (_picker w1) |>
    else
      updateSelected
        (w1 <| _picker := EmojiColorPicker.clearSelection (_picker w1) |>)
  else updateSelected w1.

Definition clearSelection (w : t) : t :=
  setSelected (-1)
    (w <| _lastMousePos := mapToGlobal w (-10, -10) |> <| _pressedSel := -1 |>).

Definition enterFromChildEvent (cursorPos : QPoint) (w : t) : t :=
  updateSelected (w <| _lastMousePos := cursorPos |>).

(** [_picker->hideFast()], with the subscriber of the overlay's [_hidden]
    stream run where the stream fires. *)
Definition pickerHideFast (cursorPos : QPoint) (w : t) : t :=
  pickerHidden cursorPos
    (w <| _picker := EmojiColorPicker.hideFast (_picker w) |>).

(** The overlay's [animationCallback], with the subscriber of [_hidden]. *)
Definition pickerAnimationCallback (cursorPos : QPoint) (w : t) : t :=
  let '(p, fired) :=
    EmojiColorPicker.animationCallback st rtl cursorPos (_picker w) in
  let w1 := w <| _picker := p |> in
  if fired then pickerHidden cursorPos w1 else w1.

Definition processHideFinished (cursorPos : QPoint) (w : t) : t :=
  clearSelection
    (if negb (EmojiColorPicker.hidden (_picker w))
     then (pickerHideFast cursorPos w) <| _pickerSel := -1 |>
     else w).

(** *** Loading of the built-in sections *)

(** One turn of the loop of [ensureLoaded] over the loaded emoji: an
    emoji with variants is replaced by the stored preferred variant of
    its family, if there is one. *)
Definition preferVariant (variants : gmap N Z) (emoji : EmojiPtr) : EmojiPtr :=
  if One.hasVariants emoji then
    match variants !! One.nonColoredId emoji with
    | Some j => One.variant emoji j
    | None => emoji
    end
  else emoji.

(** [_emoji[section].empty()] *)
Definition sectionEmpty (w : t) (section : Z) : bool :=
  match _emoji w !! Z.to_nat section with
  | Some (_ :: _) => false
  | _ => true
  end.

(** [recent] is [Core::App().settings().recentEmojiSection()] and
    [getSection] is [Ui::Emoji::GetSection]; [Section::Recent] is the
    section [0], the one that [refreshRecent] fills from the recent
    emoji.  The caller passes [section >= 0]. *)
Definition ensureLoaded (recent : list EmojiPtr)
  (getSection : Z -> list EmojiPtr) (section : Z) (w : t) : t :=
  if (kEmojiSectionCount <=? section) || negb (sectionEmpty w section) then w
  else
    let loaded := if section =? 0 then recent else getSection section in
    let w1 :=
      w <| _emoji := <[Z.to_nat section := loaded]> (_emoji w) |>
        <| _counts :=
             <[Z.to_nat section := Z.of_nat (length loaded)]> (_counts w) |> in
    if section =? 0 then w1
    else
      w1 <| _emoji :=
              <[Z.to_nat section :=
                  map (preferVariant (emojiVariants w1)) loaded]>
                (_emoji w1) |>.

(** *** Resizing *)

(** [countDesiredHeight]: the desired height and the widget afterwards.
    [st::emojiPanDesiredSize] is not zero. *)
Definition countDesiredHeight (gs : StyleGrid.t) (newWidth : Z) (w : t)
  : Z * t :=
  let fullWidth :=
    Style.roundRadiusSmall st + newWidth + StyleGrid.emojiScrollWidth gs in
  let columnCount :=
    Z.max ((fullWidth - StyleGrid.emojiPadding gs * 2)
           ÷ StyleGrid.emojiPanDesiredSize gs) 1 in
  let rowsLeft := fullWidth ÷ (columnCount * 4 + 2) in
  let rowsRight := Z.max rowsLeft (StyleGrid.emojiScrollWidth gs) in
  let singleWidth := (fullWidth - rowsLeft - rowsRight) ÷ columnCount in
  let singleSize := (singleWidth, singleWidth - 4 * StyleGrid.lineWidth gs) in
  let w1 :=
    w <| _columnCount := columnCount |>
      <| _rowsLeft := rowsLeft - Style.roundRadiusSmall st |>
      <| _singleSize := singleSize |>
      <| _picker :=
           EmojiColorPicker.setSingleSize st rtl singleSize (_picker w) |> in
  (SectionInfo.rowsBottom (sectionInfo w1 (sectionsCount w1 - 1))
   + Style.emojiPanPadding st,
   w1).

Definition currentSection (yOffset : Z) (w : t) : Z :=
  SectionInfo.section (sectionInfoByOffset w yOffset).

(** The [y] that [showCustomSet] passes to [scrollTo]: the top of the
    first custom section of the set, [0] when there is none. *)
Definition customSetTop (setId : N) (w : t) : Z :=
  default 0
    (SectionInfo.top
       <$> find (fun info =>
                   match customAt w (SectionInfo.section info) with
                   | Some set => bool_decide (CustomSet.id set = setId)
                   | None => false
                   end)
                (enumerateSections w)).

(** [showCustomSet]: the scroll target and the widget afterwards; [order]
    and [sets] are those of [refreshCustom]. *)
Definition showCustomSet (order : list N) (sets : gmap N StickersSet.t)
  (setId : N) (cursorPos : QPoint) (w : t) : Z * t :=
  let w1 := refreshCustom order sets (clearSelection w) in
  (customSetTop setId w1, w1 <| _lastMousePos := cursorPos |>).

End WithStyle.

End EmojiListWidget.

(** ** Vocabulary of the properties *)

(** [base::flat_map] keeps its keys strictly increasing. *)
Definition sortedBuckets (m : list (Z * Repaint.t)) : Prop :=
  StronglySorted Z.lt (map fst m).

(** Deadlines are readings of [crl::now()] plus a delay; [0] is what the
    code uses for "no deadline" ([next], [_repaintNext]). *)
Definition positiveDeadlines (m : list (Z * Repaint.t)) : Prop :=
  Forall (fun b => 0 < Repaint.when b.2) m.

(** The rectangle of the rows of a section, as [repaintCustom] passes it
    to [update]. *)
Definition sectionRect (w : EmojiListWidget.t) (info : SectionInfo.t)
  : QRect.t :=
  QRect.mk 0 (SectionInfo.rowsTop info) (EmojiListWidget.width w)
    (SectionInfo.rowsBottom info - SectionInfo.rowsTop info).

(** The rectangle of a section if it is a custom section whose set
    identifier passes [checkId]. *)
Definition invalidatedRect (checkId : N -> bool) (w : EmojiListWidget.t)
  (info : SectionInfo.t) : option QRect.t :=
  match EmojiListWidget.customAt w (SectionInfo.section info) with
  | Some set =>
      if checkId (CustomSet.id set) then Some (sectionRect w info) else None
  | None => None
  end.

(** A bucket whose deadline has passed at [now]. *)
Definition due (now : Z) (b : Z * Repaint.t) : bool :=
  Repaint.when b.2 <=? now.

(** The two readings of "an item's renderable instance has that id": the
    content identifier under which the instance is registered, and the set
    identifier that the instance passes to [repaintLater]. *)
Definition referencesContent (set : CustomSet.t) (id : N) : Prop :=
  exists one, one ∈ CustomSet.list set /\ CustomOne.instance one = id.

Definition referencesCaptured (w : EmojiListWidget.t) (set : CustomSet.t)
  (id : N) : Prop :=
  exists one i,
    one ∈ CustomSet.list set
    /\ EmojiListWidget._instances w !! CustomOne.instance one = Some i
    /\ CustomInstance.setId i = id.

(** A section that [unloadNotSeenCustom] does not skip at once: a custom
    section whose rows do not meet the visible range. *)
Definition unseen (top bottom : Z) (info : SectionInfo.t) : bool :=
  negb ((SectionInfo.section info <? kEmojiSectionCount)
        || ((top <? SectionInfo.rowsBottom info)
            && (SectionInfo.rowsTop info <? bottom))).

(** What becomes of a custom set: the painted flag is cleared when the set
    is unseen and painted. *)
Definition afterUnload (isUnseen : bool) (set : CustomSet.t) : CustomSet.t :=
  if isUnseen && CustomSet.painted set
  then set <| CustomSet.painted := false |>
  else set.

(** Whether the instance registered under [key] belongs to an item of the
    section [info], and the section is unseen and painted. *)
Definition unloadedBy (top bottom : Z) (w : EmojiListWidget.t) (key : N)
  (info : SectionInfo.t) : bool :=
  unseen top bottom info
  && match EmojiListWidget.customAt w (SectionInfo.section info) with
     | Some set =>
         CustomSet.painted set
         && bool_decide (key ∈ map CustomOne.instance (CustomSet.list set))
     | None => false
     end.

(** Whether the decoded state of every item of a set is released. *)
Definition itemsUnloaded (w : EmojiListWidget.t) (set : CustomSet.t) : Prop :=
  forall one i,
    one ∈ CustomSet.list set ->
    EmojiListWidget._instances w !! CustomOne.instance one = Some i ->
    CustomInstance.loaded i = false.

(** [w'] differs from [w] at most in [_custom] and [_instances]. *)
Definition sameButCustom (w w' : EmojiListWidget.t) : Prop :=
  w' = w <| EmojiListWidget._custom := EmojiListWidget._custom w' |>
         <| EmojiListWidget._instances := EmojiListWidget._instances w' |>.

(** A set of the order that gets a section: present in the catalog with at
    least one document. *)
Definition inCatalog (sets : gmap N StickersSet.t) (setId : N) : bool :=
  match sets !! setId with
  | Some it => negb (bool_decide (StickersSet.stickers it = []))
  | None => false
  end.

(** The prior set that [refreshCustom] considers for [setId]: the first
    one in [old] with this identifier, at whatever position. *)
Definition priorSet (old : list CustomSet.t) (setId : N)
  : option (nat * CustomSet.t) :=
  list_find (fun s => CustomSet.id s = setId) old.

(** The outcome of a turn that builds the set afresh: the sticker
    documents in order, each on the instance registered under its
    identifier, found in the registry or created unloaded for [setId]. *)
Definition builtFresh (setId : N) (it : StickersSet.t)
  (old custom : list CustomSet.t) (instances : gmap N CustomInstance.t)
  (r : list CustomSet.t * list CustomSet.t * gmap N CustomInstance.t) : Prop :=
  let docs :=
    filter (fun d => DocumentData.sticker d) (StickersSet.stickers it) in
  r.1.1 = old
  /\ r.1.2
     = custom
       ++ [CustomSet.mk setId (StickersSet.title it)
             (map (fun d => CustomOne.mk (DocumentData.id d) d) docs) false]
  /\ forall key,
       r.2 !! key
       = match instances !! key with
         | Some i => Some i
         | None =>
             if bool_decide (key ∈ map DocumentData.id docs)
             then Some (CustomInstance.mk setId false)
             else None
         end.

(** The linear index of the item under the global position [p], [-1] when
    there is none: what [updateSelected] makes of the pointer position
    when hover tracking is not suspended. *)
Definition hit (st : Style.t) (rtl : bool) (w : EmojiListWidget.t)
  (p : QPoint) : Z :=
  EmojiListWidget.itemAt st rtl (w <| EmojiListWidget._lastMousePos := p |>).

(** The built-in item with the linear index [index], as the press and
    release handlers resolve it. *)
Definition itemOf (w : EmojiListWidget.t) (index : Z) : option EmojiPtr :=
  let '(section, sel) :=
    Layout.IndexToPosition (EmojiListWidget.sectionCounts w) index in
  EmojiListWidget.emojiAt w section sel.

(** The variant of the overlay under the global position [p]. *)
Definition variantUnder (st : Style.t) (rtl : bool) (w : EmojiListWidget.t)
  (p : QPoint) : Z :=
  EmojiColorPicker.variantAt st rtl
    ((EmojiListWidget._picker w) <| EmojiColorPicker._lastMousePos := p |>).

(** The widget when a release that the overlay did not take reaches the
    comparison of [_selected] with the pressed index: up to there the
    release has changed the members below and nothing else. *)
Definition beforeCommit (w : EmojiListWidget.t) (p : QPoint)
  (picker : EmojiColorPicker.t) (pickerSel selected : Z) (timer : option Z)
  : EmojiListWidget.t :=
  w <| EmojiListWidget._pressedSel := -1 |>
    <| EmojiListWidget._lastMousePos := p |>
    <| EmojiListWidget._picker := picker |>
    <| EmojiListWidget._pickerSel := pickerSel |>
    <| EmojiListWidget._selected := selected |>
    <| EmojiListWidget._showPickerTimer := timer |>.

(** Three requests of one duration class, in this order. *)
Definition threeRequests (D d1 d2 d3 : Z) (s1 s2 s3 : N)
  (w : EmojiListWidget.t) : EmojiListWidget.t :=
  EmojiListWidget.repaintLater s3 (RepaintRequest.mk d3 D)
    (EmojiListWidget.repaintLater s2 (RepaintRequest.mk d2 D)
       (EmojiListWidget.repaintLater s1 (RepaintRequest.mk d1 D) w)).

(** The set that a refresh builds afresh for [setId] from the catalog's
    set [it]: the sticker documents in order, each on the instance
    registered under its identifier, with the painted flag clear. *)
Definition builtSet (setId : N) (it : StickersSet.t) : CustomSet.t :=
  CustomSet.mk setId (StickersSet.title it)
    (map (fun d => CustomOne.mk (DocumentData.id d) d)
       (filter (fun d => DocumentData.sticker d) (StickersSet.stickers it)))
    false.

(** The prior set that a refresh takes over for [setId]: the first set of
    [prior] with this identifier, when it holds the documents of [it] in
    order. *)
Definition reusable (prior : list CustomSet.t) (setId : N)
  (it : StickersSet.t) : option CustomSet.t :=
  match priorSet prior setId with
  | Some (_, found) =>
      if bool_decide
           (map CustomOne.document (CustomSet.list found)
            = StickersSet.stickers it)
      then Some found
      else None
  | None => None
  end.

(** The section that a refresh over the prior sets [prior] gives the set
    [setId] of the order: none when the catalog has no such set or an
    empty one, the prior set when it can be taken over, a set built
    afresh otherwise. *)
Definition refreshedSet (prior : list CustomSet.t)
  (sets : gmap N StickersSet.t) (setId : N) : option CustomSet.t :=
  match sets !! setId with
  | Some it =>
      if bool_decide (StickersSet.stickers it = []) then None
      else Some (default (builtSet setId it) (reusable prior setId it))
  | None => None
  end.

(** How the list [old] of a refresh under way relates to the prior sets:
    a set is as it was, or it was taken over for one of the identifiers
    [processed] and is blanked. *)
Definition takenOver (processed : list N) (now before : CustomSet.t) : Prop :=
  now = before
  \/ (now = CustomSet.empty /\ CustomSet.id before ∈ processed).

(** Every item of every custom set points to an instance that [_instances]
    owns, registered under the identifier of the item's document. *)
Definition instancesOwned (custom : list CustomSet.t)
  (instances : gmap N CustomInstance.t) : Prop :=
  forall cs one,
    cs ∈ custom -> one ∈ CustomSet.list cs ->
    CustomOne.instance one = DocumentData.id (CustomOne.document one)
    /\ is_Some (instances !! CustomOne.instance one).

(** The custom item with the linear index [index], as the release handler
    resolves it when the index is not one of a built-in item. *)
Definition customItemOf (w : EmojiListWidget.t) (index : Z)
  : option CustomOne.t :=
  let '(section, sel) :=
    Layout.IndexToPosition (EmojiListWidget.sectionCounts w) index in
  cs ← EmojiListWidget.customAt w section;
  CustomSet.list cs !! Z.to_nat sel.

(** ** A concrete panel

    Two custom sets, 7 and 8, that both contain document 42, on a panel
    with four columns of 10 by 10 cells. *)
Module Fixture.

Definition st : Style.t := Style.mk 5 20 2 2 2 2 1 1 3.

Definition plain (id : N) : EmojiPtr := One.mk id 0 0.
Definition hand : EmojiPtr := One.mk 100 0 3.

Definition picker : EmojiColorPicker.t :=
  EmojiColorPicker.mk false [] (-1) (-1) (0, 0) (10, 10) false true false
    true (0, 0) 0 0.

Definition panel : EmojiListWidget.t :=
  EmojiListWidget.mk
    [5; 0; 2; 0; 0; 0; 0; 0]
    [[hand; plain 1; plain 2; plain 3; plain 4]; []; [plain 5; plain 6]]
    [] ∅ [] false 0 None
    4 0 (10, 10) (-1) (-1) (-1) (-10, -10) picker None
    (0, 0) 50 0 100 false (0, 0) ∅ [] [] [] [].

Definition doc42 : DocumentData.t := DocumentData.mk 42 true.

Definition catalog : gmap N StickersSet.t :=
  {[ 7%N := StickersSet.mk "seven" [doc42];
     8%N := StickersSet.mk "eight" [doc42] ]}.

Definition refreshed : EmojiListWidget.t :=
  EmojiListWidget.refreshCustom [7%N; 8%N] catalog panel.


(** Requests of one class with deadlines 100, 200 and 300, the posted
    scheduling call running after each of them, at times 0, 10 and 20. *)
Definition interleaved : EmojiListWidget.t :=
  let request when :=
    EmojiListWidget.repaintLater 7 (RepaintRequest.mk when 30) in
  EmojiListWidget.postponedCall st 20 20
    (request 300
       (EmojiListWidget.postponedCall st 10 10
          (request 200
             (EmojiListWidget.postponedCall st 0 0 (request 100 refreshed))))).

(** A request of set 7 for the deadline 100, fired at 100. *)
Definition requested : EmojiListWidget.t :=
  EmojiListWidget.repaintLater 7 (RepaintRequest.mk 100 30) refreshed.

Definition fired : EmojiListWidget.t :=
  EmojiListWidget.invokeRepaints st 100 requested.

(** Both custom sets painted, then only the rows of section 8 (set 7)
    visible. *)
Definition drawn : EmojiListWidget.t :=
  EmojiListWidget.drawCustom 1 0 (EmojiListWidget.drawCustom 0 0 refreshed).

Definition scrolled : EmojiListWidget.t :=
  EmojiListWidget.visibleTopBottomUpdated st 190 210 drawn.

(** A catalog of two sets, painted, then delivered in the other order. *)
Definition doc10 : DocumentData.t := DocumentData.mk 10 true.
Definition doc20 : DocumentData.t := DocumentData.mk 20 true.

Definition catalog2 : gmap N StickersSet.t :=
  {[ 1%N := StickersSet.mk "one" [doc10];
     2%N := StickersSet.mk "two" [doc20] ]}.

Definition before : EmojiListWidget.t :=
  EmojiListWidget.drawCustom 1 0
    (EmojiListWidget.drawCustom 0 0
       (EmojiListWidget.refreshCustom [1%N; 2%N] catalog2 panel)).

Definition reordered : EmojiListWidget.t :=
  EmojiListWidget.refreshCustom [2%N; 1%N] catalog2 before.

(** A press on the first item, which has three variants and no stored
    preference. *)
Definition opened : EmojiListWidget.t :=
  EmojiListWidget.mousePressEvent st false (fun _ _ _ => 0) LeftButton (5, 7)
    panel.

(** The first built-in section of [panel]. *)
Definition firstSection : SectionInfo.t := SectionInfo.mk 0 5 0 2 5 25.

(** The pointer over the third item of the first section. *)
Definition hovering : EmojiListWidget.t :=
  panel <| EmojiListWidget._lastMousePos := (25, 7) |>.

(** A stored preference for the second variant of the family of [hand]. *)
Definition preferring : EmojiListWidget.t :=
  panel <| EmojiListWidget.emojiVariants := {[ 100%N := 2 ]} |>.

(** The open overlay at the end of its hide animation. *)
Definition fading : EmojiListWidget.t :=
  opened
    <| EmojiListWidget._picker :=
         (EmojiListWidget._picker opened)
           <| EmojiColorPicker._hiding := true |>
           <| EmojiColorPicker.animating := false |> |>.

(** A release on the third variant of the open overlay. *)
Definition released : EmojiListWidget.t :=
  EmojiListWidget.mouseReleaseEvent st false (30, 20) (30, 20)
    opened.

(** The eight built-in sections before any of them is loaded. *)
Definition unloaded : EmojiListWidget.t :=
  preferring <| EmojiListWidget._emoji := replicate 8 [] |>.

Definition grid : StyleGrid.t := StyleGrid.mk 8 2 10 1.

Definition set7 : CustomSet.t :=
  CustomSet.mk 7 "seven" [CustomOne.mk 42 doc42] false.

(** Set 7 painted, set 8 not: the instance of document 42, which both
    share, is loaded. *)
Definition halfDrawn : EmojiListWidget.t :=
  EmojiListWidget.drawCustom 0 0 refreshed.

(** The second set of [halfDrawn], in section 9. *)
Definition set8 : CustomSet.t :=
  CustomSet.mk 8 "eight" [CustomOne.mk 42 doc42] false.

(** A catalog with the set identifier 0, its sets painted. *)
Definition catalog0 : gmap N StickersSet.t :=
  {[ 1%N := StickersSet.mk "one" [doc10];
     0%N := StickersSet.mk "zero" [doc20] ]}.

Definition before0 : EmojiListWidget.t :=
  EmojiListWidget.drawCustom 1 0
    (EmojiListWidget.drawCustom 0 0
       (EmojiListWidget.refreshCustom [1%N; 0%N] catalog0 panel)).

End Fixture.

(** * Properties *)

Lemma cell_roundtrip (C sel : Z) :
  1 <= C -> 0 <= sel ->
  cellOffset C (cellRow C sel) (cellColumn C sel) = sel.
Proof.
  intros HC Hs. unfold cellOffset, cellRow, cellColumn.
  rewrite (Z.rem_mod_nonneg sel C) by lia.
  assert (Hm : 0 <= sel mod C < C) by (apply Z.mod_pos_bound; lia).
  assert (Hd : sel = C * (sel / C) + sel mod C) by (apply Z.div_mod; lia).
  assert (Hk : sel - sel mod C = (sel / C) * C) by lia.
  rewrite Hk.
  rewrite Z.rem_mul by lia. simpl.
  rewrite Z.quot_mul by lia. lia.
Qed.

Lemma scanSections_shift (counts : list Z) (s i : Z) :
  Layout.scanSections counts s i =
  (s + fst (Layout.scanSections counts 0 i),
   snd (Layout.scanSections counts 0 i)).
Proof.
  revert s i. induction counts as [|c rest IH]; intros s i; simpl.
  - f_equal. lia.
  - destruct (i <? c); simpl.
    + f_equal. lia.
    + rewrite (IH (s + 1)), (IH (0 + 1)). simpl. f_equal. lia.
Qed.

Lemma decode_in_range (counts : list Z) (i : Z) :
  Forall (fun c => 0 <= c) counts ->
  0 <= i < totalCount counts ->
  let p := Layout.scanSections counts 0 i in
  0 <= fst p < Z.of_nat (length counts)
  /\ 0 <= snd p < sectionCount counts (fst p)
  /\ Layout.runningTotal counts (Z.to_nat (fst p)) + snd p = i.
Proof.
  intros Hpos. revert i. unfold totalCount, sectionCount.
  induction Hpos as [|c rest Hc Hrest IH]; intros i Hi.
  - simpl in Hi. lia.
  - cbn [Layout.scanSections].
    destruct (Z.ltb_spec i c) as [Hlt|Hge].
    + cbn [fst snd]. change (Z.to_nat 0) with 0%nat.
      cbn [Layout.runningTotal nth length]. lia.
    + rewrite scanSections_shift.
      cbn [length Layout.runningTotal] in Hi.
      specialize (IH (i - c) ltac:(lia)).
      cbn zeta in IH. destruct IH as (Hs & Ho & Hr).
      cbn [fst snd].
      set (s := fst (Layout.scanSections rest 0 (i - c))) in *.
      set (o := snd (Layout.scanSections rest 0 (i - c))) in *.
      replace (Z.to_nat (0 + 1 + s)) with (S (Z.to_nat s)) by lia.
      cbn [Layout.runningTotal nth length].
      split; [lia|]. split; [exact Ho|lia].
Qed.

Lemma encode_decode (counts : list Z) (s : nat) (off : Z) :
  Forall (fun c => 0 <= c) counts ->
  (s < length counts)%nat ->
  0 <= off < nth s counts 0 ->
  Layout.scanSections counts 0 (Layout.runningTotal counts s + off)
  = (Z.of_nat s, off)
  /\ 0 <= Layout.runningTotal counts s + off < totalCount counts.
Proof.
  intros Hpos. revert s. unfold totalCount.
  induction Hpos as [|c rest Hc Hrest IH]; intros s Hs Hoff.
  - simpl in Hs. lia.
  - destruct s as [|s]; cbn [Layout.runningTotal nth length] in *.
    + cbn [Layout.scanSections].
      destruct (Z.ltb_spec (0 + off) c); [|lia].
      assert (0 <= Layout.runningTotal rest (length rest)).
      { clear -Hrest. induction Hrest; simpl; lia. }
      split; [f_equal; lia | lia].
    + specialize (IH s ltac:(lia) Hoff). destruct IH as [IH1 IH2].
      cbn [Layout.scanSections].
      destruct (Z.ltb_spec (c + Layout.runningTotal rest s + off) c); [lia|].
      rewrite scanSections_shift.
      replace (c + Layout.runningTotal rest s + off - c)
        with (Layout.runningTotal rest s + off) by lia.
      rewrite IH1. cbn [fst snd]. split; [f_equal; lia | lia].
Qed.

(** C1 (modelled from the spec, see [Layout]): for a column count [C >= 1]
    and a snapshot of non-negative section counts, decoding an in-range
    linear index with [IndexToPosition] yields a section of the snapshot
    and an offset inside it, and re-encoding that cell the way the hover
    computation does gives the index back; conversely every (section,
    offset) of the snapshot encodes to an in-range index that decodes to
    the same pair. *)
Theorem index_position_bijection (C : Z) (counts : list Z) :
  1 <= C ->
  Forall (fun c => 0 <= c) counts ->
  (forall i, 0 <= i < totalCount counts ->
     let '(section, sel) := Layout.IndexToPosition counts i in
     0 <= section < Z.of_nat (length counts)
     /\ 0 <= sel < sectionCount counts section
     /\ hoveredIndex counts C section (cellRow C sel) (cellColumn C sel) = i)
  /\
  (forall section sel,
     0 <= section < Z.of_nat (length counts) ->
     0 <= sel < sectionCount counts section ->
     let i := hoveredIndex counts C section (cellRow C sel) (cellColumn C sel) in
     0 <= i < totalCount counts
     /\ Layout.IndexToPosition counts i = (section, sel)).
Proof.
  intros HC Hpos. split.
  - intros i Hi. unfold Layout.IndexToPosition.
    destruct (Z.ltb_spec i 0); [lia|].
    pose proof (decode_in_range counts i Hpos Hi) as H1. cbn zeta in H1.
    destruct (Layout.scanSections counts 0 i) as [section sel].
    cbn [fst snd] in H1. destruct H1 as (Hs & Ho & Hr).
    split; [exact Hs|]. split; [exact Ho|].
    unfold hoveredIndex, Layout.PositionToIndex.
    rewrite cell_roundtrip by lia. lia.
  - intros section sel Hs Ho. cbn zeta.
    unfold hoveredIndex, Layout.PositionToIndex.
    rewrite cell_roundtrip by lia.
    unfold sectionCount in Ho.
    destruct (encode_decode counts (Z.to_nat section) sel Hpos
                ltac:(lia) Ho) as [E1 E2].
    replace (sel + (Layout.runningTotal counts (Z.to_nat section) + 0))
      with (Layout.runningTotal counts (Z.to_nat section) + sel) by lia.
    split; [exact E2|].
    unfold Layout.IndexToPosition.
    destruct (Z.ltb_spec
                (Layout.runningTotal counts (Z.to_nat section) + sel) 0);
      [lia|].
    rewrite E1. f_equal. lia.
Qed.

Lemma index_position_bijection_witness :
  (let '(section, sel) := Layout.IndexToPosition [5; 0; 2] 6 in
   0 <= section < 3 /\ 0 <= sel < sectionCount [5; 0; 2] section
   /\ hoveredIndex [5; 0; 2] 4 section (cellRow 4 sel) (cellColumn 4 sel) = 6)
  /\ Layout.IndexToPosition [5; 0; 2] (hoveredIndex [5; 0; 2] 4 0 0 2) = (0, 2).
Proof.
  assert (HC : 1 <= 4) by lia.
  assert (Hpos : Forall (fun c => 0 <= c) [5; 0; 2])
    by (repeat constructor; lia).
  destruct (index_position_bijection 4 [5; 0; 2] HC Hpos) as [D E].
  split.
  - apply (D 6). vm_compute. split; discriminate || reflexivity.
  - apply (E 0 2); vm_compute; split; discriminate || reflexivity.
Defined.

(** ** Hover tracking is suspended during a press and under the overlay *)

Section Hover.

Variable st : Style.t.
Variable rtl : bool.

(** C9: while an overlay target is set ([_pickerSel >= 0]) or a press is
    active ([_pressedSel >= 0]), [updateSelected] changes nothing, and a
    pointer move leaves [_selected], [_pressedSel] and [_pickerSel] as
    they are, wherever the pointer goes. *)
Theorem hover_suspended (w : EmojiListWidget.t) (globalPos cursorPos : QPoint) :
  0 <= EmojiListWidget._pickerSel w \/ 0 <= EmojiListWidget._pressedSel w ->
  EmojiListWidget.updateSelected st rtl w = w
  /\ EmojiListWidget._selected
       (EmojiListWidget.mouseMoveEvent st rtl globalPos cursorPos w)
     = EmojiListWidget._selected w
  /\ EmojiListWidget._pressedSel
       (EmojiListWidget.mouseMoveEvent st rtl globalPos cursorPos w)
     = EmojiListWidget._pressedSel w
  /\ EmojiListWidget._pickerSel
       (EmojiListWidget.mouseMoveEvent st rtl globalPos cursorPos w)
     = EmojiListWidget._pickerSel w.
Proof.
  intros Hsusp.
  assert (Hguard : (0 <=? EmojiListWidget._pressedSel w)
                   || (0 <=? EmojiListWidget._pickerSel w) = true).
  { apply orb_true_iff. destruct Hsusp as [H|H]; [right|left];
      apply Z.leb_le; exact H. }
  split.
  - unfold EmojiListWidget.updateSelected. rewrite Hguard. reflexivity.
  - unfold EmojiListWidget.mouseMoveEvent. cbn [set].
    destruct (negb _); [destruct (EmojiColorPicker.rectContains _ _)|];
      unfold EmojiListWidget.updateSelected; cbn; rewrite ?Hguard; cbn; auto.
Qed.

End Hover.

Lemma hover_suspended_witness :
  EmojiListWidget.updateSelected Fixture.st false
    (Fixture.panel <| EmojiListWidget._pressedSel := 2 |>)
  = Fixture.panel <| EmojiListWidget._pressedSel := 2 |>.
Proof.
  apply (hover_suspended Fixture.st false
           (Fixture.panel <| EmojiListWidget._pressedSel := 2 |>)
           (0, 0) (0, 0)).
  right. cbn. lia.
Defined.

(** ** The repaint coalescer *)

(** C10: with an empty registry of custom instances [repaintLater] returns
    at once: the widget is left as it was, with no bucket created or
    changed, no scheduling call posted and no timer armed. *)
Theorem repaintLater_no_instances (setId : N) (request : RepaintRequest.t)
  (w : EmojiListWidget.t) :
  EmojiListWidget._instances w = ∅ ->
  EmojiListWidget.repaintLater setId request w = w.
Proof.
  intros Hempty. unfold EmojiListWidget.repaintLater.
  destruct (decide (EmojiListWidget._instances w = ∅)); [reflexivity|].
  contradiction.
Qed.

Lemma repaintLater_no_instances_witness :
  EmojiListWidget.repaintLater 7 (RepaintRequest.mk 100 30) Fixture.panel
  = Fixture.panel.
Proof.
  apply (repaintLater_no_instances 7 (RepaintRequest.mk 100 30) Fixture.panel).
  reflexivity.
Defined.

Section CoalescerSchedule.

Variable st : Style.t.

Lemma bucket_above (d : Z) (m : list (Z * Repaint.t)) :
  Forall (Z.lt d) (map fst m) -> EmojiListWidget.bucket d m = None.
Proof.
  induction m as [|[k r] rest IH]; intros Hall; cbn in *; [reflexivity|].
  inversion Hall; subst.
  destruct (Z.eqb_spec d k); [lia|]. auto.
Qed.

Lemma bucket_touch_eq (d : Z) (f : Repaint.t -> Repaint.t)
  (m : list (Z * Repaint.t)) :
  sortedBuckets m ->
  EmojiListWidget.bucket d (EmojiListWidget.touch d f m)
  = Some (f (default Repaint.empty (EmojiListWidget.bucket d m))).
Proof.
  unfold sortedBuckets.
  induction m as [|[k r] rest IH]; intros Hs; cbn.
  - rewrite Z.eqb_refl. reflexivity.
  - inversion Hs as [|? ? Hrest Hall]; subst.
    destruct (Z.ltb_spec d k) as [Hlt|Hge]; cbn.
    + rewrite Z.eqb_refl.
      destruct (Z.eqb_spec d k); [lia|].
      rewrite bucket_above; [reflexivity|].
      eapply Forall_impl; [exact Hall|]. cbn. intros; lia.
    + destruct (Z.eqb_spec d k) as [->|Hne]; cbn.
      * rewrite Z.eqb_refl. reflexivity.
      * destruct (Z.eqb_spec d k); [lia|]. auto.
Qed.

Lemma bucket_touch_ne (d d' : Z) (f : Repaint.t -> Repaint.t)
  (m : list (Z * Repaint.t)) :
  d' <> d ->
  EmojiListWidget.bucket d' (EmojiListWidget.touch d f m)
  = EmojiListWidget.bucket d' m.
Proof.
  intros Hne. induction m as [|[k r] rest IH]; cbn.
  - destruct (Z.eqb_spec d' d); [lia|reflexivity].
  - destruct (Z.ltb_spec d k); cbn.
    + destruct (Z.eqb_spec d' d); [lia|reflexivity].
    + destruct (Z.eqb_spec d k) as [->|]; cbn.
      * destruct (Z.eqb_spec d' k); [lia|reflexivity].
      * rewrite IH. reflexivity.
Qed.

Lemma touch_keys (d : Z) (f : Repaint.t -> Repaint.t)
  (m : list (Z * Repaint.t)) (k : Z) :
  k ∈ map fst (EmojiListWidget.touch d f m) -> k = d \/ k ∈ map fst m.
Proof.
  induction m as [|[k0 r] rest IH]; cbn.
  - intros H. apply list_elem_of_singleton in H. auto.
  - destruct (Z.ltb_spec d k0) as [Hlt|Hge]; cbn.
    + intros H. apply elem_of_cons in H. destruct H; auto.
    + destruct (Z.eqb_spec d k0) as [Heq|Hne]; cbn; intros H.
      * auto.
      * apply elem_of_cons in H. destruct H as [->|H].
        -- right. apply elem_of_cons. auto.
        -- destruct (IH H); [auto|]. right. apply elem_of_cons. auto.
Qed.

Lemma sorted_touch (d : Z) (f : Repaint.t -> Repaint.t)
  (m : list (Z * Repaint.t)) :
  sortedBuckets m -> sortedBuckets (EmojiListWidget.touch d f m).
Proof.
  unfold sortedBuckets.
  induction m as [|[k r] rest IH]; intros Hs; cbn.
  - repeat constructor.
  - inversion Hs as [|? ? Hrest Hall]; subst.
    destruct (Z.ltb_spec d k); cbn.
    + constructor; [exact Hs|]. constructor; [lia|].
      eapply Forall_impl; [exact Hall|]. cbn. intros; lia.
    + destruct (Z.eqb_spec d k); cbn.
      * constructor; assumption.
      * constructor; [auto|].
        apply Forall_forall. intros k' Hk'.
        destruct (touch_keys _ _ _ _ Hk') as [->|Hin]; [lia|].
        rewrite Forall_forall in Hall. auto.
Qed.

Lemma positive_touch (d : Z) (f : Repaint.t -> Repaint.t)
  (m : list (Z * Repaint.t)) :
  (forall r, 0 <= Repaint.when r -> 0 < Repaint.when (f r)) ->
  positiveDeadlines m -> positiveDeadlines (EmojiListWidget.touch d f m).
Proof.
  intros Hf. unfold positiveDeadlines.
  assert (He : 0 < Repaint.when (f Repaint.empty)) by (apply Hf; cbn; lia).
  induction m as [|[k r] rest IH]; intros Hp; cbn.
  - repeat constructor. exact He.
  - inversion Hp as [|? ? Hr Hrest]; subst. cbn in Hr.
    destruct (d <? k); [constructor; [exact He|exact Hp]|].
    destruct (d =? k); constructor; auto.
    cbn. apply Hf. lia.
Qed.

(** The fold of the posted call, from any accumulator. *)
Lemma nextWhen_fold (m : list (Z * Repaint.t)) (acc : Z) :
  positiveDeadlines m -> 0 <= acc ->
  let r := fold_left EmojiListWidget.earlier m acc in
  (m = [] /\ r = acc)
  \/ (0 < r /\ (acc = 0 \/ r <= acc)
      /\ (forall b, b ∈ m -> r <= Repaint.when b.2)
      /\ (r = acc \/ exists b, b ∈ m /\ Repaint.when b.2 = r)).
Proof.
  unfold positiveDeadlines. intros Hp. revert acc.
  induction Hp as [|b rest Hb Hrest IH]; intros acc Hacc; cbn zeta.
  - left. auto.
  - right. cbn [fold_left].
    assert (Hacc' : 0 < EmojiListWidget.earlier acc b
                    /\ EmojiListWidget.earlier acc b <= Repaint.when b.2
                    /\ (acc = 0 \/ EmojiListWidget.earlier acc b <= acc)
                    /\ (EmojiListWidget.earlier acc b = acc
                        \/ EmojiListWidget.earlier acc b = Repaint.when b.2)).
    { unfold EmojiListWidget.earlier.
      destruct (Z.eqb_spec acc 0); cbn; [lia|].
      destruct (Z.ltb_spec (Repaint.when b.2) acc); lia. }
    destruct Hacc' as (H1 & H2 & H3 & H4).
    specialize (IH (EmojiListWidget.earlier acc b) ltac:(lia)).
    cbn zeta in IH.
    set (r := fold_left EmojiListWidget.earlier rest
                (EmojiListWidget.earlier acc b)) in *.
    assert (Hin : b ∈ b :: rest) by (apply elem_of_cons; auto).
    destruct IH as [[-> Hr]|(Hr1 & Hr2 & Hr3 & Hr4)].
    + split; [lia|]. split; [lia|]. split.
      * intros b' Hb'. apply list_elem_of_singleton in Hb'. subst b'. lia.
      * destruct H4 as [H4|H4]; [left; lia|]. right. exists b.
        split; [exact Hin|lia].
    + split; [exact Hr1|]. split; [lia|]. split.
      * intros b' Hb'. apply elem_of_cons in Hb'.
        destruct Hb' as [->|Hb']; [lia|auto].
      * destruct Hr4 as [Hr4|(b' & Hb' & Hw)].
        -- destruct H4 as [H4|H4]; [left; lia|].
           right. exists b. split; [exact Hin|lia].
        -- right. exists b'. split; [apply elem_of_cons; auto|exact Hw].
Qed.

(** [nextWhen] is the minimum deadline of the pending buckets. *)
Lemma nextWhen_min (m : list (Z * Repaint.t)) :
  positiveDeadlines m -> m <> [] ->
  0 < EmojiListWidget.nextWhen m
  /\ (forall b, b ∈ m -> EmojiListWidget.nextWhen m <= Repaint.when b.2)
  /\ (exists b, b ∈ m /\ Repaint.when b.2 = EmojiListWidget.nextWhen m).
Proof.
  intros Hp Hne.
  destruct (nextWhen_fold m 0 Hp ltac:(lia)) as [[-> _]|(H1 & _ & H3 & H4)];
    [contradiction|]. cbn zeta in *.
  change (fold_left EmojiListWidget.earlier m 0)
    with (EmojiListWidget.nextWhen m) in *.
  split; [exact H1|]. split; [exact H3|].
  destruct H4 as [H4|H4]; [lia|exact H4].
Qed.

Lemma bucket_elem (d : Z) (m : list (Z * Repaint.t)) (r : Repaint.t) :
  EmojiListWidget.bucket d m = Some r -> (d, r) ∈ m.
Proof.
  induction m as [|[k r'] rest IH]; cbn; [discriminate|].
  destruct (Z.eqb_spec d k) as [->|].
  - intros [= ->]. apply elem_of_cons. auto.
  - intros H. apply elem_of_cons. auto.
Qed.

Lemma repaintCustom_fold (checkId : N -> bool) (w : EmojiListWidget.t)
  (infos : list SectionInfo.t) (u : list QRect.t) :
  fold_left
    (fun w info =>
       match EmojiListWidget.customAt w (SectionInfo.section info) with
       | Some set =>
           if checkId (CustomSet.id set) then
             w <| EmojiListWidget.updated :=
                    EmojiListWidget.updated w
                    ++ [QRect.mk 0 (SectionInfo.rowsTop info)
                          (EmojiListWidget.width w)
                          (SectionInfo.rowsBottom info
                           - SectionInfo.rowsTop info)] |>
           else w
       | None => w
       end)
    infos (w <| EmojiListWidget.updated := u |>)
  = w <| EmojiListWidget.updated := u ++ omap (invalidatedRect checkId w) infos |>.
Proof.
  revert u. induction infos as [|info infos IH]; intros u.
  - cbn. rewrite app_nil_r. reflexivity.
  - cbn [fold_left].
    change (omap ?f (info :: infos))
      with (match f info with
            | Some y => y :: omap f infos
            | None => omap f infos
            end).
    unfold invalidatedRect at 1.
    change (EmojiListWidget.customAt
              (w <| EmojiListWidget.updated := u |>)
              (SectionInfo.section info))
      with (EmojiListWidget.customAt w (SectionInfo.section info)).
    destruct (EmojiListWidget.customAt w (SectionInfo.section info))
      as [set|]; [destruct (checkId (CustomSet.id set))|].
    + change ((w <| EmojiListWidget.updated := u |>)
                <| EmojiListWidget.updated :=
                     EmojiListWidget.updated
                       (w <| EmojiListWidget.updated := u |>)
                     ++ [QRect.mk 0 (SectionInfo.rowsTop info)
                           (EmojiListWidget.width
                              (w <| EmojiListWidget.updated := u |>))
                           (SectionInfo.rowsBottom info
                            - SectionInfo.rowsTop info)] |>)
        with (w <| EmojiListWidget.updated := u ++ [sectionRect w info] |>).
      rewrite IH. rewrite <- app_assoc. reflexivity.
    + apply IH.
    + apply IH.
Qed.

Lemma repaintCustom_spec (checkId : N -> bool) (w : EmojiListWidget.t) :
  EmojiListWidget.repaintCustom st checkId w
  = w <| EmojiListWidget.updated :=
           EmojiListWidget.updated w
           ++ omap (invalidatedRect checkId w)
                (EmojiListWidget.enumerateSections st w) |>.
Proof.
  unfold EmojiListWidget.repaintCustom.
  rewrite <- repaintCustom_fold. destruct w; reflexivity.
Qed.

Lemma takeDue_spec (now : Z) (m : list (Z * Repaint.t)) (acc : gset N) :
  (EmojiListWidget.takeDue now m acc).1 = filter (fun b => ¬ due now b) m
  /\ (forall id,
        id ∈ (EmojiListWidget.takeDue now m acc).2
        <-> id ∈ acc \/ exists b, b ∈ m /\ due now b /\ id ∈ Repaint.ids b.2).
Proof.
  revert acc. induction m as [|[k r] rest IH]; intros acc.
  - cbn. split; [reflexivity|]. intros id. split; [auto|].
    intros [H|(b & Hb & _)]; [exact H|]. inversion Hb.
  - cbn [EmojiListWidget.takeDue]. unfold due at 1. cbn [snd].
    rewrite filter_cons. unfold due at 1. cbn [snd].
    destruct (Z.ltb_spec now (Repaint.when r)) as [Hlater|Hdue].
    + specialize (IH acc). destruct (EmojiListWidget.takeDue now rest acc)
        as [m' ids'] eqn:E. cbn [fst snd] in *. destruct IH as [IH1 IH2].
      destruct (decide (¬ (Repaint.when r <=? now)))  as [_|Hn].
      2:{ exfalso. apply Hn. intros H. apply Is_true_true in H.
          apply Z.leb_le in H. lia. }
      split; [rewrite IH1; reflexivity|].
      intros id. rewrite IH2. split.
      * intros [H|(b & Hb & Hd & Hi)]; [auto|]. right. exists b.
        split; [apply elem_of_cons; auto|auto].
      * intros [H|(b & Hb & Hd & Hi)]; [auto|].
        apply elem_of_cons in Hb. destruct Hb as [->|Hb].
        -- unfold due in Hd. cbn in Hd. apply Is_true_true in Hd.
           apply Z.leb_le in Hd. lia.
        -- right. exists b. auto.
    + destruct (decide (¬ (Repaint.when r <=? now))) as [Hn|_].
      { exfalso. apply Hn. apply Is_true_true. apply Z.leb_le. lia. }
      set (acc' := if decide (acc = ∅) then Repaint.ids r
                   else acc ∪ Repaint.ids r).
      assert (Hacc' : forall id, id ∈ acc' <-> id ∈ acc \/ id ∈ Repaint.ids r).
      { intros id. unfold acc'. destruct (decide (acc = ∅)) as [->|_].
        - rewrite elem_of_empty. tauto.
        - apply elem_of_union. }
      destruct (IH acc') as [IH1 IH2]. split; [exact IH1|].
      intros id. rewrite IH2, Hacc'. split.
      * intros [[H|H]|(b & Hb & Hd & Hi)]; [auto| |].
        -- right. exists (k, r). split; [apply elem_of_cons; auto|].
           split; [|exact H]. unfold due. cbn.
           apply Is_true_true. apply Z.leb_le. lia.
        -- right. exists b. split; [apply elem_of_cons; auto|auto].
      * intros [H|(b & Hb & Hd & Hi)]; [auto|].
        apply elem_of_cons in Hb. destruct Hb as [->|Hb]; [auto|].
        right. exists b. auto.
Qed.

Lemma invokeRepaints_spec (now : Z) (w : EmojiListWidget.t) :
  EmojiListWidget.invokeRepaints st now w
  = let taken := EmojiListWidget.takeDue now (EmojiListWidget._repaints w) ∅ in
    let w2 :=
      w <| EmojiListWidget._repaintNext := 0 |>
        <| EmojiListWidget._repaints := taken.1 |> in
    w2 <| EmojiListWidget.updated :=
            EmojiListWidget.updated w
            ++ omap (invalidatedRect (fun id => bool_decide (id ∈ taken.2)) w2)
                 (EmojiListWidget.enumerateSections st w2) |>
       <| EmojiListWidget._repaintTimerScheduled := true |>.
Proof.
  unfold EmojiListWidget.invokeRepaints. cbn zeta.
  change (EmojiListWidget._repaints (w <| EmojiListWidget._repaintNext := 0 |>))
    with (EmojiListWidget._repaints w).
  destruct (EmojiListWidget.takeDue now (EmojiListWidget._repaints w) ∅)
    as [m ids]. cbn [fst snd].
  rewrite repaintCustom_spec. unfold EmojiListWidget.scheduleRepaintTimer.
  destruct w as [? ? ? ? ? sched ? ? ? ? ? ? ? ? ? ? ? ? ? ? ? ? ? ? ? ? ? ?].
  destruct sched; reflexivity.
Qed.

Lemma repaintLater_spec (setId : N) (request : RepaintRequest.t)
  (w : EmojiListWidget.t) :
  EmojiListWidget._instances w <> ∅ ->
  sortedBuckets (EmojiListWidget._repaints w) ->
  let w' := EmojiListWidget.repaintLater setId request w in
  let old :=
    default Repaint.empty
      (EmojiListWidget.bucket (RepaintRequest.duration request)
         (EmojiListWidget._repaints w)) in
  EmojiListWidget._instances w' = EmojiListWidget._instances w
  /\ EmojiListWidget._repaintNext w' = EmojiListWidget._repaintNext w
  /\ EmojiListWidget._repaintTimer w' = EmojiListWidget._repaintTimer w
  /\ EmojiListWidget._repaintTimerScheduled w' = true
  /\ sortedBuckets (EmojiListWidget._repaints w')
  /\ (0 < RepaintRequest.when request ->
      positiveDeadlines (EmojiListWidget._repaints w) ->
      positiveDeadlines (EmojiListWidget._repaints w'))
  /\ EmojiListWidget.bucket (RepaintRequest.duration request)
       (EmojiListWidget._repaints w')
     = Some (Repaint.mk
               (Z.max (Repaint.when old) (RepaintRequest.when request))
               ({[setId]} ∪ Repaint.ids old))
  /\ (forall D, D <> RepaintRequest.duration request ->
        EmojiListWidget.bucket D (EmojiListWidget._repaints w')
        = EmojiListWidget.bucket D (EmojiListWidget._repaints w)).
Proof.
  intros Hinst Hsorted. cbn zeta. unfold EmojiListWidget.repaintLater.
  destruct (decide (EmojiListWidget._instances w = ∅)); [contradiction|].
  unfold EmojiListWidget.scheduleRepaintTimer.
  set (change := fun repaint : Repaint.t =>
         Repaint.mk
           (if Repaint.when repaint <? RepaintRequest.when request
            then RepaintRequest.when request else Repaint.when repaint)
           ({[setId]} ∪ Repaint.ids repaint)).
  assert (Hmax : forall r, change r
            = Repaint.mk (Z.max (Repaint.when r) (RepaintRequest.when request))
                ({[setId]} ∪ Repaint.ids r)).
  { intros r. unfold change. f_equal.
    destruct (Z.ltb_spec (Repaint.when r) (RepaintRequest.when request)); lia. }
  assert (Hfields :
    forall w0,
      (w0 = w <| EmojiListWidget._repaints :=
                   EmojiListWidget.touch (RepaintRequest.duration request)
                     change (EmojiListWidget._repaints w) |>
       \/ w0 = (w <| EmojiListWidget._repaints :=
                      EmojiListWidget.touch (RepaintRequest.duration request)
                        change (EmojiListWidget._repaints w) |>)
                 <| EmojiListWidget._repaintTimerScheduled := true |>) ->
      EmojiListWidget._instances w0 = EmojiListWidget._instances w
      /\ EmojiListWidget._repaintNext w0 = EmojiListWidget._repaintNext w
      /\ EmojiListWidget._repaintTimer w0 = EmojiListWidget._repaintTimer w
      /\ EmojiListWidget._repaints w0
         = EmojiListWidget.touch (RepaintRequest.duration request)
             change (EmojiListWidget._repaints w)).
  { intros w0 [->| ->]; repeat split; reflexivity. }
  match goal with
  | |- context [if ?b then ?x else ?y] =>
      assert (Hsched : EmojiListWidget._repaintTimerScheduled
                         (if b then x else y) = true)
        by (destruct b eqn:E; [exact E|reflexivity]);
      destruct (Hfields (if b then x else y)) as (F1 & F2 & F3 & F4);
        [destruct b; auto|]
  end.
  rewrite F1, F2, F3, F4, Hsched.
  repeat (split; [reflexivity|]).
  split; [apply sorted_touch; exact Hsorted|].
  split.
  { intros Hpos Hall. apply positive_touch; [|exact Hall].
    intros r Hr. rewrite Hmax. cbn. lia. }
  split.
  { rewrite bucket_touch_eq by exact Hsorted. rewrite Hmax. reflexivity. }
  intros D HD. apply bucket_touch_ne. exact HD.
Qed.

Lemma postponedCall_not_later (now now' : Z) (w : EmojiListWidget.t) :
  positiveDeadlines (EmojiListWidget._repaints w) ->
  let w' := EmojiListWidget.postponedCall st now now' w in
  EmojiListWidget._repaintNext w' = 0
  \/ (forall b, b ∈ EmojiListWidget._repaints w' ->
        EmojiListWidget._repaintNext w' <= Repaint.when b.2).
Proof.
  intros Hpos. cbn zeta. unfold EmojiListWidget.postponedCall.
  change (EmojiListWidget._repaints
            (w <| EmojiListWidget._repaintTimerScheduled := false |>))
    with (EmojiListWidget._repaints w).
  change (EmojiListWidget._repaintNext
            (w <| EmojiListWidget._repaintTimerScheduled := false |>))
    with (EmojiListWidget._repaintNext w).
  set (next := EmojiListWidget.nextWhen (EmojiListWidget._repaints w)).
  assert (Hmin : EmojiListWidget._repaints w = []
                 \/ (0 < next
                     /\ forall b, b ∈ EmojiListWidget._repaints w ->
                          next <= Repaint.when b.2)).
  { destruct (decide (EmojiListWidget._repaints w = [])) as [E|E]; [auto|].
    right. destruct (nextWhen_min _ Hpos E) as (H1 & H2 & _).
    split; assumption. }
  destruct (Z.eqb_spec next 0) as [Hz|Hnz]; cbn [negb andb].
  - right. cbn. destruct Hmin as [->|[? _]]; [|lia].
    intros b Hb. inversion Hb.
  - destruct (Z.eqb_spec (EmojiListWidget._repaintNext w) 0) as [Hn|Hn];
      cbn [orb];
      [|destruct (Z.ltb_spec next (EmojiListWidget._repaintNext w))].
    1, 2: destruct (next <=? now);
      [left; rewrite invokeRepaints_spec; reflexivity
      |right; cbn; destruct Hmin as [->|[_ Hmin]];
         [intros b Hb; inversion Hb|exact Hmin]].
    right. cbn. destruct Hmin as [->|[_ Hmin]].
    + intros b Hb; inversion Hb.
    + intros b Hb. specialize (Hmin b Hb). lia.
Qed.

Lemma postponedCall_arms (now now' : Z) (w : EmojiListWidget.t) :
  positiveDeadlines (EmojiListWidget._repaints w) ->
  EmojiListWidget._repaints w <> [] ->
  now < EmojiListWidget.nextWhen (EmojiListWidget._repaints w) ->
  EmojiListWidget._repaintNext w = 0
  \/ EmojiListWidget.nextWhen (EmojiListWidget._repaints w)
     < EmojiListWidget._repaintNext w ->
  EmojiListWidget.postponedCall st now now' w
  = w <| EmojiListWidget._repaintTimerScheduled := false |>
      <| EmojiListWidget._repaintNext :=
           EmojiListWidget.nextWhen (EmojiListWidget._repaints w) |>
      <| EmojiListWidget._repaintTimer :=
           Some (EmojiListWidget.nextWhen (EmojiListWidget._repaints w) - now) |>.
Proof.
  intros Hpos Hne Hnow Harm. unfold EmojiListWidget.postponedCall.
  change (EmojiListWidget._repaints
            (w <| EmojiListWidget._repaintTimerScheduled := false |>))
    with (EmojiListWidget._repaints w).
  change (EmojiListWidget._repaintNext
            (w <| EmojiListWidget._repaintTimerScheduled := false |>))
    with (EmojiListWidget._repaintNext w).
  destruct (nextWhen_min _ Hpos Hne) as (H1 & _).
  set (next := EmojiListWidget.nextWhen (EmojiListWidget._repaints w)) in *.
  destruct (Z.eqb_spec next 0); [lia|]. cbn [negb andb].
  assert (Hc : (EmojiListWidget._repaintNext w =? 0)
               || (next <? EmojiListWidget._repaintNext w) = true).
  { apply orb_true_iff. destruct Harm as [H|H];
      [left; apply Z.eqb_eq; exact H|right; apply Z.ltb_lt; exact H]. }
  rewrite Hc. destruct (Z.leb_spec next now); [lia|]. reflexivity.
Qed.

Lemma postponedCall_keeps (now now' : Z) (w : EmojiListWidget.t) :
  EmojiListWidget._repaintNext w <> 0 ->
  EmojiListWidget._repaintNext w
  <= EmojiListWidget.nextWhen (EmojiListWidget._repaints w) ->
  EmojiListWidget.postponedCall st now now' w
  = w <| EmojiListWidget._repaintTimerScheduled := false |>.
Proof.
  intros Hnz Hle. unfold EmojiListWidget.postponedCall.
  change (EmojiListWidget._repaints
            (w <| EmojiListWidget._repaintTimerScheduled := false |>))
    with (EmojiListWidget._repaints w).
  change (EmojiListWidget._repaintNext
            (w <| EmojiListWidget._repaintTimerScheduled := false |>))
    with (EmojiListWidget._repaintNext w).
  destruct (Z.eqb_spec (EmojiListWidget._repaintNext w) 0); [contradiction|].
  destruct (Z.ltb_spec (EmojiListWidget.nextWhen (EmojiListWidget._repaints w))
              (EmojiListWidget._repaintNext w)); [lia|].
  cbn [orb]. rewrite andb_false_r. reflexivity.
Qed.

Lemma elem_bucket (k : Z) (r : Repaint.t) (m : list (Z * Repaint.t)) :
  sortedBuckets m -> (k, r) ∈ m -> EmojiListWidget.bucket k m = Some r.
Proof.
  unfold sortedBuckets.
  induction m as [|[k0 r0] rest IH]; intros Hs Hin; [inversion Hin|].
  inversion Hs as [|? ? Hrest Hall]; subst. cbn.
  apply elem_of_cons in Hin. destruct Hin as [[= -> ->]|Hin].
  - rewrite Z.eqb_refl. reflexivity.
  - destruct (Z.eqb_spec k k0) as [->|]; [|auto].
    rewrite Forall_forall in Hall.
    assert (Hk : k0 ∈ map fst rest).
    { apply list_elem_of_fmap. exists (k0, r). auto. }
    specialize (Hall _ Hk). lia.
Qed.

(** C2, as it holds: three requests of one duration class with positive
    deadlines [d1 < d2 < d3] leave the bucket of the class with the
    deadline [max existing d3] ([d3] unless an unfired bucket of the class
    was already later) and the three identifiers added, leave the other
    classes alone and post one scheduling call.  [nextWhen] is then the
    minimum deadline over the pending classes, [d3] when no other class
    is earlier.  The posted call arms the timer at that minimum when no
    timer is armed or the armed one is later, and the time is still
    ahead; a timer armed for an earlier time is kept as it is; in every
    case the armed time, if any, is not later than any pending
    deadline. *)
Theorem coalescer_monotone (w : EmojiListWidget.t) (D d1 d2 d3 : Z)
  (s1 s2 s3 : N) (now now' : Z) :
  EmojiListWidget._instances w <> ∅ ->
  sortedBuckets (EmojiListWidget._repaints w) ->
  positiveDeadlines (EmojiListWidget._repaints w) ->
  0 < d1 -> d1 < d2 -> d2 < d3 ->
  let w3 := threeRequests D d1 d2 d3 s1 s2 s3 w in
  let old :=
    default Repaint.empty
      (EmojiListWidget.bucket D (EmojiListWidget._repaints w)) in
  let next := EmojiListWidget.nextWhen (EmojiListWidget._repaints w3) in
  let w4 := EmojiListWidget.postponedCall st now now' w3 in
  EmojiListWidget.bucket D (EmojiListWidget._repaints w3)
  = Some (Repaint.mk (Z.max (Repaint.when old) d3)
            ({[s3]} ∪ ({[s2]} ∪ ({[s1]} ∪ Repaint.ids old))))
  /\ (forall D', D' <> D ->
        EmojiListWidget.bucket D' (EmojiListWidget._repaints w3)
        = EmojiListWidget.bucket D' (EmojiListWidget._repaints w))
  /\ EmojiListWidget._repaintTimerScheduled w3 = true
  /\ (0 < next
      /\ (forall b, b ∈ EmojiListWidget._repaints w3 ->
            next <= Repaint.when b.2)
      /\ (exists b, b ∈ EmojiListWidget._repaints w3
                    /\ Repaint.when b.2 = next))
  /\ (Repaint.when old <= d3 ->
      (forall D' r, D' <> D ->
         EmojiListWidget.bucket D' (EmojiListWidget._repaints w) = Some r ->
         d3 <= Repaint.when r) ->
      next = d3)
  /\ (EmojiListWidget._repaintNext w4 = 0
      \/ forall b, b ∈ EmojiListWidget._repaints w4 ->
           EmojiListWidget._repaintNext w4 <= Repaint.when b.2)
  /\ (now < next ->
      EmojiListWidget._repaintNext w = 0
      \/ next < EmojiListWidget._repaintNext w ->
      EmojiListWidget._repaintNext w4 = next
      /\ EmojiListWidget._repaintTimer w4 = Some (next - now)
      /\ EmojiListWidget._repaintTimerScheduled w4 = false
      /\ EmojiListWidget._repaints w4 = EmojiListWidget._repaints w3)
  /\ (EmojiListWidget._repaintNext w <> 0 ->
      EmojiListWidget._repaintNext w <= next ->
      EmojiListWidget._repaintNext w4 = EmojiListWidget._repaintNext w
      /\ EmojiListWidget._repaintTimer w4 = EmojiListWidget._repaintTimer w
      /\ EmojiListWidget._repaints w4 = EmojiListWidget._repaints w3).
Proof.
  intros Hinst Hsorted Hpos H1 H12 H23. cbn zeta. unfold threeRequests.
  set (w1 := EmojiListWidget.repaintLater s1 (RepaintRequest.mk d1 D) w).
  set (w2 := EmojiListWidget.repaintLater s2 (RepaintRequest.mk d2 D) w1).
  set (w3 := EmojiListWidget.repaintLater s3 (RepaintRequest.mk d3 D) w2).
  destruct (repaintLater_spec s1 (RepaintRequest.mk d1 D) w Hinst Hsorted)
    as (I1 & N1 & T1 & S1 & So1 & P1 & B1 & O1).
  fold w1 in I1, N1, T1, S1, So1, P1, B1, O1. cbn [RepaintRequest.when
    RepaintRequest.duration] in *.
  assert (Hinst1 : EmojiListWidget._instances w1 <> ∅) by congruence.
  destruct (repaintLater_spec s2 (RepaintRequest.mk d2 D) w1 Hinst1 So1)
    as (I2 & N2 & T2 & S2 & So2 & P2 & B2 & O2).
  fold w2 in I2, N2, T2, S2, So2, P2, B2, O2. cbn [RepaintRequest.when
    RepaintRequest.duration] in *.
  assert (Hinst2 : EmojiListWidget._instances w2 <> ∅) by congruence.
  destruct (repaintLater_spec s3 (RepaintRequest.mk d3 D) w2 Hinst2 So2)
    as (I3 & N3 & T3 & S3 & So3 & P3 & B3 & O3).
  fold w3 in I3, N3, T3, S3, So3, P3, B3, O3. cbn [RepaintRequest.when
    RepaintRequest.duration] in *.
  rewrite B1 in B2. cbn [default from_option id Repaint.when Repaint.ids] in B2.
  rewrite B2 in B3. cbn [default from_option id Repaint.when Repaint.ids] in B3.
  set (old := default Repaint.empty
                (EmojiListWidget.bucket D (EmojiListWidget._repaints w))) in *.
  assert (Hpos3 : positiveDeadlines (EmojiListWidget._repaints w3)).
  { apply P3; [lia|]. apply P2; [lia|]. apply P1; [lia|]. exact Hpos. }
  assert (HB : EmojiListWidget.bucket D (EmojiListWidget._repaints w3)
               = Some (Repaint.mk (Z.max (Repaint.when old) d3)
                         ({[s3]} ∪ ({[s2]} ∪ ({[s1]} ∪ Repaint.ids old))))).
  { rewrite B3. do 2 f_equal. lia. }
  assert (HO : forall D', D' <> D ->
             EmojiListWidget.bucket D' (EmojiListWidget._repaints w3)
             = EmojiListWidget.bucket D' (EmojiListWidget._repaints w)).
  { intros D' HD. rewrite O3, O2, O1 by exact HD. reflexivity. }
  assert (Hne : EmojiListWidget._repaints w3 <> []).
  { intros E. rewrite E in HB. discriminate. }
  pose proof (nextWhen_min _ Hpos3 Hne) as (M1 & M2 & M3).
  set (next := EmojiListWidget.nextWhen (EmojiListWidget._repaints w3)) in *.
  split; [exact HB|]. split; [exact HO|]. split; [exact S3|].
  split; [auto|]. split.
  { intros Hold Hothers.
    pose proof (M2 _ (bucket_elem _ _ _ HB)) as Hle. cbn in Hle.
    destruct M3 as ([k r] & Hb & Hw). cbn in Hw.
    pose proof (elem_bucket _ _ _ So3 Hb) as Hk.
    destruct (decide (k = D)) as [->|Hk'].
    - rewrite HB in Hk. injection Hk as <-. cbn in Hw. lia.
    - rewrite HO in Hk by exact Hk'.
      specialize (Hothers _ _ Hk' Hk). lia. }
  split; [apply postponedCall_not_later; exact Hpos3|]. split.
  - intros Hnow Harm.
    rewrite postponedCall_arms; try assumption.
    + repeat split; reflexivity.
    + rewrite N3, N2, N1. exact Harm.
  - intros Hnz Hle.
    rewrite postponedCall_keeps by (rewrite N3, N2, N1; assumption).
    cbn. rewrite N3, N2, N1, T3, T2, T1. repeat split; reflexivity.
Qed.

(** The firing and the scheduling step keep the buckets sorted and their
    deadlines positive, as [repaintLater] does for a positive request. *)
Lemma buckets_filter (P : Z * Repaint.t -> Prop)
  `{forall b, Decision (P b)} (m : list (Z * Repaint.t)) :
  sortedBuckets m -> positiveDeadlines m ->
  sortedBuckets (filter P m) /\ positiveDeadlines (filter P m).
Proof.
  unfold sortedBuckets, positiveDeadlines. intros Hs Hp. split.
  - induction m as [|b m IH]; [constructor|].
    cbn in Hs. inversion Hs as [|? ? Hrest Hall]; subst.
    inversion Hp; subst. rewrite filter_cons.
    destruct (decide (P b)); [|auto]. cbn. constructor; [auto|].
    apply Forall_forall. intros k Hk. rewrite Forall_forall in Hall.
    apply Hall. apply list_elem_of_fmap in Hk.
    destruct Hk as (b' & -> & Hb'). apply list_elem_of_filter in Hb'.
    apply list_elem_of_fmap. exists b'. tauto.
  - apply Forall_forall. intros b Hb. apply list_elem_of_filter in Hb.
    rewrite Forall_forall in Hp. apply Hp. tauto.
Qed.

Lemma invokeRepaints_invariant (now : Z) (w : EmojiListWidget.t) :
  sortedBuckets (EmojiListWidget._repaints w) ->
  positiveDeadlines (EmojiListWidget._repaints w) ->
  sortedBuckets
    (EmojiListWidget._repaints (EmojiListWidget.invokeRepaints st now w))
  /\ positiveDeadlines
       (EmojiListWidget._repaints (EmojiListWidget.invokeRepaints st now w)).
Proof.
  intros Hs Hp. rewrite invokeRepaints_spec. cbn zeta.
  destruct (takeDue_spec now (EmojiListWidget._repaints w) ∅) as [Hm _].
  change (EmojiListWidget._repaints _)
    with (EmojiListWidget.takeDue now (EmojiListWidget._repaints w) ∅).1.
  rewrite Hm. apply buckets_filter; assumption.
Qed.

Lemma postponedCall_invariant (now now' : Z) (w : EmojiListWidget.t) :
  sortedBuckets (EmojiListWidget._repaints w) ->
  positiveDeadlines (EmojiListWidget._repaints w) ->
  sortedBuckets
    (EmojiListWidget._repaints (EmojiListWidget.postponedCall st now now' w))
  /\ positiveDeadlines
       (EmojiListWidget._repaints
          (EmojiListWidget.postponedCall st now now' w)).
Proof.
  intros Hs Hp. unfold EmojiListWidget.postponedCall.
  destruct (negb _ && _); [destruct (_ <=? now)|].
  - apply invokeRepaints_invariant; assumption.
  - split; assumption.
  - split; assumption.
Qed.

(** C3, as it holds: at time [now] [invokeRepaints] removes exactly the
    buckets whose deadline is [<= now] and keeps the later ones, posts the
    scheduling call for them, and passes to [update], in section order
    and once each, exactly the rows rectangles of the custom sections
    whose own set identifier is in the union of the identifiers of the
    removed buckets. *)
Theorem invokeRepaints_invalidates (now : Z) (w : EmojiListWidget.t) :
  let w' := EmojiListWidget.invokeRepaints st now w in
  EmojiListWidget._repaints w'
  = filter (fun b => ¬ due now b) (EmojiListWidget._repaints w)
  /\ EmojiListWidget._repaintTimerScheduled w' = true
  /\ EmojiListWidget._repaintNext w' = 0
  /\ exists ids : gset N,
       (forall id,
          id ∈ ids
          <-> exists b,
                b ∈ EmojiListWidget._repaints w
                /\ due now b /\ id ∈ Repaint.ids b.2)
       /\ EmojiListWidget.updated w'
          = EmojiListWidget.updated w
            ++ omap (invalidatedRect (fun id => bool_decide (id ∈ ids)) w)
                 (EmojiListWidget.enumerateSections st w)
       /\ forall rect,
            rect ∈ omap (invalidatedRect (fun id => bool_decide (id ∈ ids)) w)
                     (EmojiListWidget.enumerateSections st w)
            <-> exists info set,
                  info ∈ EmojiListWidget.enumerateSections st w
                  /\ EmojiListWidget.customAt w (SectionInfo.section info)
                     = Some set
                  /\ CustomSet.id set ∈ ids
                  /\ rect = sectionRect w info.
Proof.
  cbn zeta. rewrite invokeRepaints_spec. cbn zeta.
  destruct (takeDue_spec now (EmojiListWidget._repaints w) ∅) as [Hm Hids].
  set (taken := EmojiListWidget.takeDue now (EmojiListWidget._repaints w) ∅)
    in *.
  split; [exact Hm|]. split; [reflexivity|]. split; [reflexivity|].
  exists taken.2. split; [|split].
  - intros id. rewrite Hids. split; [|auto].
    intros [Hin|H]; [|exact H]. apply elem_of_empty in Hin. contradiction.
  - reflexivity.
  - intros rect. rewrite list_elem_of_omap. split.
    + intros (info & Hinfo & Hrect). unfold invalidatedRect in Hrect.
      destruct (EmojiListWidget.customAt w (SectionInfo.section info))
        as [set|] eqn:Hset; [|discriminate].
      destruct (bool_decide (CustomSet.id set ∈ taken.2)) eqn:Hin;
        [|discriminate].
      apply bool_decide_eq_true in Hin. injection Hrect as <-.
      exists info, set. auto.
    + intros (info & set & Hinfo & Hset & Hin & ->).
      exists info. split; [exact Hinfo|]. unfold invalidatedRect.
      rewrite Hset, (bool_decide_eq_true_2 _ Hin). reflexivity.
Qed.

End CoalescerSchedule.

Lemma coalescer_monotone_witness :
  let w3 := threeRequests 30 100 200 300 7 7 7 Fixture.refreshed in
  EmojiListWidget.bucket 30 (EmojiListWidget._repaints w3)
  = Some (Repaint.mk (Z.max 0 300) ({[7%N]} ∪ ({[7%N]} ∪ ({[7%N]} ∪ ∅)))).
Proof.
  assert (Hinst : EmojiListWidget._instances Fixture.refreshed <> ∅)
    by (vm_compute; discriminate).
  assert (Hsorted : sortedBuckets (EmojiListWidget._repaints Fixture.refreshed))
    by constructor.
  assert (Hpos : positiveDeadlines
                   (EmojiListWidget._repaints Fixture.refreshed))
    by constructor.
  apply (coalescer_monotone Fixture.st Fixture.refreshed 30 100 200 300
           7 7 7 0 0 Hinst Hsorted Hpos); lia.
Defined.

(** C2 fails as stated: when the posted scheduling call runs between the
    requests, the timer armed for the first deadline is kept.  After the
    requests for 100, 200 and 300 the only bucket has the deadline 300,
    which is also the minimum over the pending classes, but the armed
    wake-up is the one at 100. *)
Lemma coalescer_wakeup_counterexample :
  EmojiListWidget.nextWhen (EmojiListWidget._repaints Fixture.interleaved)
  = 300
  /\ EmojiListWidget._repaintNext Fixture.interleaved = 100
  /\ EmojiListWidget._repaintTimer Fixture.interleaved = Some 100
  /\ ~ (EmojiListWidget._repaintNext Fixture.interleaved
        = EmojiListWidget.nextWhen
            (EmojiListWidget._repaints Fixture.interleaved)).
Proof. vm_compute. repeat split; try reflexivity. discriminate. Qed.

(** C3 fails as stated: sets 7 and 8 share document 42, whose instance was
    created for set 7 and passes 7 to [repaintLater].  When the bucket with
    identifier 7 fires, only the rows of section 8 (set 7) are invalidated.
    No item's instance is registered under 7, so by content identifiers no
    section references 7 and nothing should be invalidated; by the
    identifier the instances pass on, section 9 (set 8) references 7 as
    well, and its rows are not invalidated. *)
Lemma repaint_sections_counterexample :
  EmojiListWidget.updated Fixture.fired = [QRect.mk 0 195 50 10]
  /\ (forall set, set ∈ EmojiListWidget._custom Fixture.requested ->
        ~ referencesContent set 7)
  /\ (exists set,
        EmojiListWidget.customAt Fixture.requested 9 = Some set
        /\ referencesCaptured Fixture.requested set 7
        /\ QRect.mk 0 225 50 10
           = sectionRect Fixture.requested
               (EmojiListWidget.sectionInfo Fixture.st Fixture.requested 9)
        /\ QRect.mk 0 225 50 10 ∉ EmojiListWidget.updated Fixture.fired).
Proof.
  split; [vm_compute; reflexivity|]. split.
  - intros set Hset (one & Hone & Hid).
    change (EmojiListWidget._custom Fixture.requested)
      with (EmojiListWidget._custom Fixture.refreshed) in Hset.
    vm_compute in Hset.
    repeat (apply elem_of_cons in Hset; destruct Hset as [->|Hset]);
      [| |inversion Hset];
      cbn in Hone; apply list_elem_of_singleton in Hone; subst one;
      discriminate Hid.
  - eexists. split; [vm_compute; reflexivity|]. split.
    + eexists _, _. split; [apply list_elem_of_singleton; reflexivity|].
      split; [vm_compute; reflexivity|reflexivity].
    + split; [vm_compute; reflexivity|].
      replace (EmojiListWidget.updated Fixture.fired)
        with [QRect.mk 0 195 50 10] by (vm_compute; reflexivity).
      intros H. apply list_elem_of_singleton in H. discriminate H.
Qed.

(** ** Unloading of the custom sets out of view *)

Section Virtualizer.

Variable st : Style.t.

Lemma enumerateFrom_sections (C h top : Z) (entries : list (Z * Z * Z)) :
  map SectionInfo.section (EmojiListWidget.enumerateFrom st C h top entries)
  = map (fun e => e.1.2) entries.
Proof.
  revert top. induction entries as [|[[i s] c] rest IH]; intros top; cbn.
  - reflexivity.
  - f_equal. apply IH.
Qed.

Lemma customEntriesFrom_ge (i : Z) (custom : list CustomSet.t) (s : Z) :
  s ∈ map (fun e : Z * Z * Z => e.1.2)
        (EmojiListWidget.customEntriesFrom i custom) ->
  i <= s.
Proof.
  revert i. induction custom as [|set rest IH]; intros i; cbn.
  - intros H. inversion H.
  - intros H. apply elem_of_cons in H. destruct H as [->|H]; [lia|].
    specialize (IH _ H). lia.
Qed.

Lemma customEntriesFrom_NoDup (i : Z) (custom : list CustomSet.t) :
  NoDup (map (fun e : Z * Z * Z => e.1.2)
           (EmojiListWidget.customEntriesFrom i custom)).
Proof.
  revert i. induction custom as [|set rest IH]; intros i; cbn.
  - constructor.
  - constructor; [|apply IH].
    intros H. apply customEntriesFrom_ge in H. lia.
Qed.

Lemma customEntriesFrom_lookup (i : Z) (custom : list CustomSet.t) (j : nat)
  (set : CustomSet.t) :
  custom !! j = Some set ->
  (i + Z.of_nat j) ∈ map (fun e : Z * Z * Z => e.1.2)
                      (EmojiListWidget.customEntriesFrom i custom).
Proof.
  revert i j. induction custom as [|set0 rest IH]; intros i j; cbn.
  - intros H. discriminate.
  - destruct j as [|j]; cbn.
    + intros _. apply elem_of_cons. left. lia.
    + intros H. apply elem_of_cons. right.
      replace (i + Z.of_nat (S j)) with (i + 1 + Z.of_nat j) by lia.
      apply IH. exact H.
Qed.

Lemma enumerateSections_sections (w : EmojiListWidget.t) :
  map SectionInfo.section (EmojiListWidget.enumerateSections st w)
  = [0; 1; 2; 3; 4; 5; 6; 7]
    ++ map (fun e : Z * Z * Z => e.1.2)
         (EmojiListWidget.customEntriesFrom kEmojiSectionCount
            (EmojiListWidget._custom w)).
Proof.
  unfold EmojiListWidget.enumerateSections.
  rewrite enumerateFrom_sections, map_app. reflexivity.
Qed.

Lemma enumerateSections_NoDup (w : EmojiListWidget.t) :
  NoDup (map SectionInfo.section (EmojiListWidget.enumerateSections st w)).
Proof.
  rewrite enumerateSections_sections. apply NoDup_app. split; [|split].
  - apply NoDup_ListNoDup. repeat constructor; cbn; intuition lia.
  - intros s Hs Hc. apply customEntriesFrom_ge in Hc.
    unfold kEmojiSectionCount in Hc.
    repeat (apply elem_of_cons in Hs; destruct Hs as [->|Hs]; [lia|]).
    inversion Hs.
  - apply customEntriesFrom_NoDup.
Qed.

(** Every custom set has its section in the enumeration. *)
Lemma enumerateSections_custom (w : EmojiListWidget.t) (j : nat)
  (set : CustomSet.t) :
  EmojiListWidget._custom w !! j = Some set ->
  exists info,
    info ∈ EmojiListWidget.enumerateSections st w
    /\ SectionInfo.section info = kEmojiSectionCount + Z.of_nat j
    /\ EmojiListWidget.customAt w (SectionInfo.section info) = Some set.
Proof.
  intros Hj.
  assert (Hin : (kEmojiSectionCount + Z.of_nat j)
                ∈ map SectionInfo.section
                    (EmojiListWidget.enumerateSections st w)).
  { rewrite enumerateSections_sections. apply elem_of_app. right.
    eapply customEntriesFrom_lookup. exact Hj. }
  apply list_elem_of_fmap in Hin. destruct Hin as (info & Hs & Hin).
  exists info. split; [exact Hin|]. split; [auto|].
  unfold EmojiListWidget.customAt. rewrite <- Hs.
  destruct (Z.leb_spec kEmojiSectionCount (kEmojiSectionCount + Z.of_nat j));
    [|lia].
  replace (Z.to_nat (kEmojiSectionCount + Z.of_nat j - kEmojiSectionCount))
    with j by lia.
  exact Hj.
Qed.

Lemma unloadAll_spec (l : list CustomOne.t) (w : EmojiListWidget.t) :
  let w' :=
    fold_left
      (fun w single =>
         w <| EmojiListWidget._instances :=
                alter CustomInstance.unload (CustomOne.instance single)
                  (EmojiListWidget._instances w) |>)
      l w in
  w' = w <| EmojiListWidget._instances := EmojiListWidget._instances w' |>
  /\ forall key,
       EmojiListWidget._instances w' !! key
       = if bool_decide (key ∈ map CustomOne.instance l)
         then CustomInstance.unload <$> EmojiListWidget._instances w !! key
         else EmojiListWidget._instances w !! key.
Proof.
  revert w. induction l as [|one l IH]; intros w; cbn zeta.
  - split; [destruct w; reflexivity|]. intros key. cbn.
    rewrite bool_decide_eq_false_2; [reflexivity|]. intros H. inversion H.
  - cbn [fold_left].
    destruct (IH (w <| EmojiListWidget._instances :=
                         alter CustomInstance.unload (CustomOne.instance one)
                           (EmojiListWidget._instances w) |>)) as [E L].
    cbn zeta in E, L. split.
    + rewrite E at 1. reflexivity.
    + intros key. rewrite L.
      change (EmojiListWidget._instances
                (w <| EmojiListWidget._instances :=
                        alter CustomInstance.unload (CustomOne.instance one)
                          (EmojiListWidget._instances w) |>))
        with (alter CustomInstance.unload (CustomOne.instance one)
                (EmojiListWidget._instances w)).
      rewrite lookup_alter. cbn [map].
      destruct (decide (CustomOne.instance one = key)) as [->|Hne].
      * rewrite (bool_decide_eq_true_2
                   (key ∈ key :: map CustomOne.instance l))
          by (apply elem_of_cons; auto).
        destruct (bool_decide (key ∈ map CustomOne.instance l));
          [|reflexivity].
        destruct (EmojiListWidget._instances w !! key); reflexivity.
      * destruct (bool_decide (key ∈ map CustomOne.instance l)) eqn:Hb.
        -- apply bool_decide_eq_true in Hb.
           rewrite bool_decide_eq_true_2 by (apply elem_of_cons; auto).
           reflexivity.
        -- apply bool_decide_eq_false in Hb.
           rewrite bool_decide_eq_false_2; [reflexivity|].
           intros H. apply elem_of_cons in H. destruct H; congruence.
Qed.

Lemma afterUnload_false (o : option CustomSet.t) :
  afterUnload false <$> o = o.
Proof. destruct o; reflexivity. Qed.

Lemma unloadSection_spec (top bottom : Z) (w : EmojiListWidget.t)
  (info : SectionInfo.t) :
  let w1 := EmojiListWidget.unloadSection top bottom w info in
  sameButCustom w w1
  /\ (forall s,
        EmojiListWidget.customAt w1 s
        = if decide (s = SectionInfo.section info)
          then afterUnload (unseen top bottom info)
                 <$> EmojiListWidget.customAt w s
          else EmojiListWidget.customAt w s)
  /\ (forall key,
        EmojiListWidget._instances w1 !! key
        = if unloadedBy top bottom w key info
          then CustomInstance.unload <$> EmojiListWidget._instances w !! key
          else EmojiListWidget._instances w !! key).
Proof.
  cbn zeta. unfold EmojiListWidget.unloadSection, unloadedBy, unseen.
  set (guard := (SectionInfo.section info <? kEmojiSectionCount)
                || ((top <? SectionInfo.rowsBottom info)
                    && (SectionInfo.rowsTop info <? bottom))).
  assert (Hsame : sameButCustom w w) by (destruct w; reflexivity).
  destruct guard; cbn [negb andb].
  { split; [exact Hsame|]. split; [|reflexivity].
    intros s. rewrite afterUnload_false. destruct (decide _); reflexivity. }
  destruct (EmojiListWidget.customAt w (SectionInfo.section info))
    as [custom|] eqn:Hat.
  2:{ split; [exact Hsame|]. split; [|reflexivity].
      intros s. destruct (decide _) as [->|]; [|reflexivity].
      rewrite Hat. reflexivity. }
  destruct (CustomSet.painted custom) eqn:Hpainted; cbn [negb andb].
  2:{ split; [exact Hsame|]. split; [|reflexivity].
      intros s. destruct (decide _) as [->|]; [|reflexivity].
      rewrite Hat. cbn. unfold afterUnload. rewrite Hpainted. reflexivity. }
  set (j := Z.to_nat (SectionInfo.section info - kEmojiSectionCount)).
  set (w0 := w <| EmojiListWidget._custom :=
                    <[j := custom <| CustomSet.painted := false |>]>
                      (EmojiListWidget._custom w) |>).
  destruct (unloadAll_spec (CustomSet.list custom) w0) as [E L].
  cbn zeta in E, L.
  set (w1 := fold_left _ (CustomSet.list custom) w0) in *.
  assert (Hcustom : EmojiListWidget._custom w1
                    = <[j := custom <| CustomSet.painted := false |>]>
                        (EmojiListWidget._custom w)).
  { rewrite E. reflexivity. }
  split; [|split].
  - unfold sameButCustom. rewrite E at 1. rewrite Hcustom. reflexivity.
  - intros s. unfold EmojiListWidget.customAt in *. rewrite Hcustom.
    destruct (Z.leb_spec kEmojiSectionCount (SectionInfo.section info))
      as [Hk|Hk]; [|discriminate].
    destruct (decide (s = SectionInfo.section info)) as [->|Hne].
    + destruct (Z.leb_spec kEmojiSectionCount (SectionInfo.section info));
        [|lia].
      fold j. fold j in Hat. rewrite Hat. cbn.
      rewrite list_lookup_insert_eq
        by (apply lookup_lt_Some in Hat; exact Hat).
      unfold afterUnload. rewrite Hpainted. reflexivity.
    + destruct (Z.leb_spec kEmojiSectionCount s); [|reflexivity].
      apply list_lookup_insert_ne. unfold j. lia.
  - intros key. rewrite L. reflexivity.
Qed.

Lemma sameButCustom_trans (w w1 w2 : EmojiListWidget.t) :
  sameButCustom w w1 -> sameButCustom w1 w2 -> sameButCustom w w2.
Proof.
  unfold sameButCustom. intros H1 H2. rewrite H2 at 1. rewrite H1 at 1.
  reflexivity.
Qed.

Lemma unload_twice (o : option CustomInstance.t) :
  CustomInstance.unload <$> (CustomInstance.unload <$> o)
  = CustomInstance.unload <$> o.
Proof. destruct o; reflexivity. Qed.

Lemma unload_fold (top bottom : Z) (l : list SectionInfo.t)
  (w : EmojiListWidget.t) :
  NoDup (map SectionInfo.section l) ->
  let w' := fold_left (EmojiListWidget.unloadSection top bottom) l w in
  sameButCustom w w'
  /\ (forall info, info ∈ l ->
        EmojiListWidget.customAt w' (SectionInfo.section info)
        = afterUnload (unseen top bottom info)
            <$> EmojiListWidget.customAt w (SectionInfo.section info))
  /\ (forall s, s ∉ map SectionInfo.section l ->
        EmojiListWidget.customAt w' s = EmojiListWidget.customAt w s)
  /\ (forall key,
        EmojiListWidget._instances w' !! key
        = if existsb (unloadedBy top bottom w key) l
          then CustomInstance.unload <$> EmojiListWidget._instances w !! key
          else EmojiListWidget._instances w !! key).
Proof.
  revert w. induction l as [|info rest IH]; intros w Hnd; cbn zeta.
  - cbn. split; [destruct w; reflexivity|]. split; [|auto].
    intros info H. inversion H.
  - cbn [fold_left map] in *. apply NoDup_cons in Hnd.
    destruct Hnd as [Hfresh Hnd].
    destruct (unloadSection_spec top bottom w info) as (S1 & C1 & I1).
    cbn zeta in S1, C1, I1.
    set (w1 := EmojiListWidget.unloadSection top bottom w info) in *.
    destruct (IH w1 Hnd) as (S2 & A2 & A2' & B2). cbn zeta in S2, A2, A2', B2.
    set (w' := fold_left (EmojiListWidget.unloadSection top bottom) rest w1)
      in *.
    assert (Hrest : forall info', info' ∈ rest ->
              EmojiListWidget.customAt w1 (SectionInfo.section info')
              = EmojiListWidget.customAt w (SectionInfo.section info')).
    { intros info' Hin. rewrite C1.
      destruct (decide _) as [Heq|]; [|reflexivity].
      exfalso. apply Hfresh. rewrite <- Heq.
      apply list_elem_of_fmap. exists info'. auto. }
    split; [eapply sameButCustom_trans; eassumption|]. split; [|split].
    + intros info' Hin. apply elem_of_cons in Hin.
      destruct Hin as [->|Hin].
      * rewrite A2' by exact Hfresh. rewrite C1.
        destruct (decide _); [reflexivity|congruence].
      * rewrite A2 by exact Hin. rewrite Hrest by exact Hin. reflexivity.
    + intros s Hs. rewrite not_elem_of_cons in Hs. destruct Hs as [Hs1 Hs2].
      rewrite A2' by exact Hs2. rewrite C1.
      destruct (decide _); [congruence|reflexivity].
    + intros key. rewrite B2, I1. cbn [existsb].
      assert (Hex : existsb (unloadedBy top bottom w1 key) rest
                    = existsb (unloadedBy top bottom w key) rest).
      { clear -Hrest. induction rest as [|info' rest IH]; [reflexivity|].
        cbn [existsb]. rewrite IH.
        - unfold unloadedBy. rewrite Hrest; [reflexivity|].
          apply elem_of_cons. auto.
        - intros info'' Hin. apply Hrest. apply elem_of_cons. auto. }
      rewrite Hex.
      destruct (unloadedBy top bottom w key info),
        (existsb (unloadedBy top bottom w key) rest); cbn [orb];
        rewrite ?unload_twice; reflexivity.
Qed.

(** C4, as it holds: on a visibility update every custom set whose rows do
    not meet the visible range and whose painted flag is set has the flag
    cleared and the decoded state of every item released; the record of
    every other custom set (identifier, title, items, painted flag) and the
    built-in sections are left as they were.  An instance is unloaded
    exactly when an unseen painted set has an item on it, whichever other
    sets share the instance; the other instances are untouched. *)
Theorem unload_not_seen (top bottom : Z) (w : EmojiListWidget.t) :
  let w' := EmojiListWidget.visibleTopBottomUpdated st top bottom w in
  (forall j set,
     EmojiListWidget._custom w !! j = Some set ->
     exists info,
       info ∈ EmojiListWidget.enumerateSections st w
       /\ SectionInfo.section info = kEmojiSectionCount + Z.of_nat j
       /\ EmojiListWidget._custom w' !! j
          = Some (afterUnload (unseen top bottom info) set)
       /\ (unseen top bottom info = true -> CustomSet.painted set = true ->
           itemsUnloaded w' set))
  /\ EmojiListWidget._counts w' = EmojiListWidget._counts w
  /\ EmojiListWidget._emoji w' = EmojiListWidget._emoji w
  /\ (forall key,
        EmojiListWidget._instances w' !! key
        = if existsb (unloadedBy top bottom w key)
               (EmojiListWidget.enumerateSections st w)
          then CustomInstance.unload <$> EmojiListWidget._instances w !! key
          else EmojiListWidget._instances w !! key).
Proof.
  cbn zeta.
  unfold EmojiListWidget.visibleTopBottomUpdated,
    EmojiListWidget.unloadNotSeenCustom.
  set (w0 := w <| EmojiListWidget.visibleTop := top |>
               <| EmojiListWidget.visibleBottom := bottom |>).
  change (EmojiListWidget.enumerateSections st w0)
    with (EmojiListWidget.enumerateSections st w).
  destruct (unload_fold top bottom (EmojiListWidget.enumerateSections st w)
              w0 (enumerateSections_NoDup w)) as (S & A & _ & B).
  cbn zeta in S, A, B.
  set (w' := fold_left (EmojiListWidget.unloadSection top bottom)
               (EmojiListWidget.enumerateSections st w) w0) in *.
  assert (HB : forall key,
             EmojiListWidget._instances w' !! key
             = if existsb (unloadedBy top bottom w key)
                    (EmojiListWidget.enumerateSections st w)
               then CustomInstance.unload
                      <$> EmojiListWidget._instances w !! key
               else EmojiListWidget._instances w !! key).
  { intros key. rewrite B. reflexivity. }
  split; [|split; [|split]].
  - intros j set Hj.
    destruct (enumerateSections_custom w j set Hj) as (info & Hin & Hs & Hat).
    exists info. split; [exact Hin|]. split; [exact Hs|].
    specialize (A info Hin).
    change (EmojiListWidget.customAt w0 (SectionInfo.section info))
      with (EmojiListWidget.customAt w (SectionInfo.section info)) in A.
    rewrite Hat in A. cbn in A. split.
    + unfold EmojiListWidget.customAt in A. rewrite Hs in A.
      destruct (Z.leb_spec kEmojiSectionCount
                  (kEmojiSectionCount + Z.of_nat j)); [|lia].
      replace (Z.to_nat (kEmojiSectionCount + Z.of_nat j - kEmojiSectionCount))
        with j in A by lia.
      exact A.
    + intros Hunseen Hpainted one i Hone Hi. rewrite HB in Hi.
      assert (Hex : existsb
                      (unloadedBy top bottom w (CustomOne.instance one))
                      (EmojiListWidget.enumerateSections st w) = true).
      { apply existsb_exists. exists info.
        split; [apply list_elem_of_In; exact Hin|].
        unfold unloadedBy. rewrite Hunseen, Hat, Hpainted. cbn.
        apply bool_decide_eq_true_2. apply list_elem_of_fmap.
        exists one. auto. }
      rewrite Hex in Hi.
      destruct (EmojiListWidget._instances w !! CustomOne.instance one);
        [|discriminate].
      injection Hi as <-. reflexivity.
  - rewrite S. reflexivity.
  - rewrite S. reflexivity.
  - exact HB.
Qed.

End Virtualizer.

(** C4 fails as stated: sets 7 and 8 share document 42 and both were
    painted.  With only the rows of section 8 (set 7) in the visible range,
    the update unloads the items of the unseen section 9 (set 8), and with
    them the shared instance: the item of the visible section goes from
    loaded to unloaded. *)
Lemma unload_shared_counterexample :
  unseen 190 210
    (EmojiListWidget.sectionInfo Fixture.st Fixture.drawn 8) = false
  /\ (exists set,
        EmojiListWidget.customAt Fixture.drawn 8 = Some set
        /\ map CustomOne.instance (CustomSet.list set) = [42%N])
  /\ EmojiListWidget._instances Fixture.drawn !! 42%N
     = Some (CustomInstance.mk 7 true)
  /\ EmojiListWidget._instances Fixture.scrolled !! 42%N
     = Some (CustomInstance.mk 7 false).
Proof.
  split; [vm_compute; reflexivity|]. split.
  - eexists. split; vm_compute; reflexivity.
  - split; vm_compute; reflexivity.
Qed.

(** ** Catalog refresh *)

Section Refresh.

Lemma sameDocuments_spec (l : list CustomOne.t) (docs : list DocumentData.t) :
  EmojiListWidget.sameDocuments l docs
  = bool_decide (map CustomOne.document l = docs).
Proof.
  revert docs. induction l as [|one l IH]; intros [|d docs]; cbn;
    try reflexivity.
  rewrite IH.
  destruct (decide (CustomOne.document one = d)) as [->|Hne].
  - rewrite bool_decide_eq_true_2 by reflexivity. cbn.
    apply bool_decide_ext. split; [intros ->; reflexivity|].
    intros [= H]. exact H.
  - rewrite bool_decide_eq_false_2 by exact Hne. cbn.
    symmetry. apply bool_decide_eq_false_2. intros [= H _]. contradiction.
Qed.

Lemma addDocument_fold (setId : N) (docs : list DocumentData.t)
  (set : list CustomOne.t) (instances : gmap N CustomInstance.t) :
  let r := fold_left (EmojiListWidget.addDocument setId) docs (set, instances) in
  let stickers := filter (fun d => DocumentData.sticker d) docs in
  r.1 = set ++ map (fun d => CustomOne.mk (DocumentData.id d) d) stickers
  /\ forall key,
       r.2 !! key
       = match instances !! key with
         | Some i => Some i
         | None =>
             if bool_decide (key ∈ map DocumentData.id stickers)
             then Some (CustomInstance.mk setId false)
             else None
         end.
Proof.
  revert set instances. induction docs as [|d docs IH];
    intros set instances; cbn zeta.
  - cbn. rewrite app_nil_r. split; [reflexivity|]. intros key.
    destruct (instances !! key); [reflexivity|].
    rewrite bool_decide_eq_false_2; [reflexivity|]. intros H. inversion H.
  - cbn [fold_left]. rewrite filter_cons.
    assert (Hstep :
      EmojiListWidget.addDocument setId (set, instances) d
      = if DocumentData.sticker d then
          (set ++ [CustomOne.mk (DocumentData.id d) d],
           match instances !! DocumentData.id d with
           | Some _ => instances
           | None =>
               <[DocumentData.id d := CustomInstance.mk setId false]> instances
           end)
        else (set, instances)) by reflexivity.
    rewrite Hstep. clear Hstep.
    destruct (DocumentData.sticker d) eqn:Hst.
    + destruct (decide (Is_true true)) as [_|Hn]; [|exfalso; apply Hn; exact I].
      cbn [map].
      destruct (instances !! DocumentData.id d) as [i0|] eqn:Hd.
      * destruct (IH (set ++ [CustomOne.mk (DocumentData.id d) d]) instances)
          as [E L].
        cbn zeta in E, L. split.
        -- rewrite E. rewrite <- app_assoc. reflexivity.
        -- intros key. rewrite L.
           destruct (instances !! key) as [i|] eqn:Hk; [reflexivity|].
           destruct (decide (key = DocumentData.id d)) as [->|Hne];
             [congruence|].
           erewrite bool_decide_ext; [reflexivity|].
           rewrite elem_of_cons. intuition congruence.
      * destruct (IH (set ++ [CustomOne.mk (DocumentData.id d) d])
                    (<[DocumentData.id d := CustomInstance.mk setId false]>
                       instances)) as [E L].
        cbn zeta in E, L. split.
        -- rewrite E. rewrite <- app_assoc. reflexivity.
        -- intros key. rewrite L. rewrite lookup_insert.
           destruct (decide (DocumentData.id d = key)) as [<-|Hne].
           ++ rewrite Hd. rewrite bool_decide_eq_true_2;
                [reflexivity|apply elem_of_cons; auto].
           ++ destruct (instances !! key); [reflexivity|].
              erewrite bool_decide_ext; [reflexivity|].
              rewrite elem_of_cons. intuition congruence.
    + destruct (decide (Is_true false)) as [Hn|_]; [destruct Hn|].
      apply IH.
Qed.

Lemma refreshSet_fresh (setId : N) (it : StickersSet.t)
  (old custom : list CustomSet.t) (instances : gmap N CustomInstance.t) :
  builtFresh setId it old custom instances
    (let '(set, instances') :=
       fold_left (EmojiListWidget.addDocument setId) (StickersSet.stickers it)
         ([], instances) in
     (old, custom ++ [CustomSet.mk setId (StickersSet.title it) set false],
      instances')).
Proof.
  destruct (addDocument_fold setId (StickersSet.stickers it) [] instances)
    as [E L]. cbn zeta in E, L.
  destruct (fold_left (EmojiListWidget.addDocument setId)
              (StickersSet.stickers it) ([], instances)) as [set instances'].
  cbn [fst snd] in E, L. subst set.
  unfold builtFresh. cbn. split; [reflexivity|]. split; [reflexivity|].
  exact L.
Qed.

Lemma refreshSet_spec (sets : gmap N StickersSet.t)
  (old custom : list CustomSet.t) (instances : gmap N CustomInstance.t)
  (setId : N) (it : StickersSet.t) :
  sets !! setId = Some it ->
  StickersSet.stickers it <> [] ->
  let r := EmojiListWidget.refreshSet sets (old, custom, instances) setId in
  match priorSet old setId with
  | Some (i, found) =>
      if bool_decide
           (map CustomOne.document (CustomSet.list found)
            = StickersSet.stickers it)
      then r = (<[i := CustomSet.empty]> old, custom ++ [found], instances)
      else builtFresh setId it old custom instances r
  | None => builtFresh setId it old custom instances r
  end.
Proof.
  intros Hit Hne. cbn zeta. unfold EmojiListWidget.refreshSet, priorSet.
  rewrite Hit.
  pose proof (refreshSet_fresh setId it old custom instances) as Hfresh.
  destruct (StickersSet.stickers it) as [|d ds] eqn:Hdocs; [contradiction|].
  rewrite <- Hdocs in *.
  destruct (list_find (fun s => CustomSet.id s = setId) old)
    as [[i found]|]; [|exact Hfresh].
  rewrite sameDocuments_spec.
  destruct (bool_decide _); [reflexivity|exact Hfresh].
Qed.

Lemma refreshSet_skip (sets : gmap N StickersSet.t)
  (acc : list CustomSet.t * list CustomSet.t * gmap N CustomInstance.t)
  (setId : N) :
  inCatalog sets setId = false ->
  EmojiListWidget.refreshSet sets acc setId = acc.
Proof.
  unfold inCatalog, EmojiListWidget.refreshSet.
  destruct acc as [[old custom] instances].
  destruct (sets !! setId) as [it|]; [|reflexivity].
  destruct (StickersSet.stickers it); [reflexivity|].
  rewrite bool_decide_eq_false_2 by discriminate. discriminate.
Qed.

Lemma refreshSet_turn (sets : gmap N StickersSet.t)
  (old custom : list CustomSet.t) (instances : gmap N CustomInstance.t)
  (setId : N) :
  inCatalog sets setId = true ->
  let r := EmojiListWidget.refreshSet sets (old, custom, instances) setId in
  (exists set, r.1.2 = custom ++ [set] /\ CustomSet.id set = setId)
  /\ (forall key i, instances !! key = Some i -> r.2 !! key = Some i).
Proof.
  intros Hin. unfold inCatalog in Hin.
  destruct (sets !! setId) as [it|] eqn:Hit; [|discriminate].
  assert (Hne : StickersSet.stickers it <> []).
  { intros E. rewrite E in Hin. discriminate. }
  pose proof (refreshSet_spec sets old custom instances setId it Hit Hne)
    as Hspec. cbn zeta in *.
  set (r := EmojiListWidget.refreshSet sets (old, custom, instances) setId)
    in *.
  assert (Hfresh : builtFresh setId it old custom instances r ->
            (exists set, r.1.2 = custom ++ [set] /\ CustomSet.id set = setId)
            /\ (forall key i, instances !! key = Some i -> r.2 !! key = Some i)).
  { intros (_ & Hc & Hi). split; [eexists; split; [exact Hc|reflexivity]|].
    intros key i Hk. rewrite Hi, Hk. reflexivity. }
  unfold priorSet in Hspec.
  destruct (list_find (fun s => CustomSet.id s = setId) old)
    as [[i found]|] eqn:Hfind; [|auto].
  destruct (bool_decide
              (map CustomOne.document (CustomSet.list found)
               = StickersSet.stickers it)); [|auto].
  rewrite Hspec. cbn. split; [|auto].
  exists found. split; [reflexivity|].
  apply list_find_Some in Hfind. destruct Hfind as (_ & Hid & _). exact Hid.
Qed.

Lemma refresh_fold (sets : gmap N StickersSet.t) (order : list N)
  (old custom : list CustomSet.t) (instances : gmap N CustomInstance.t) :
  let r :=
    fold_left (EmojiListWidget.refreshSet sets) order
      (old, custom, instances) in
  map CustomSet.id r.1.2
  = map CustomSet.id custom ++ filter (fun id => inCatalog sets id) order
  /\ (forall key i, instances !! key = Some i -> r.2 !! key = Some i).
Proof.
  revert old custom instances.
  induction order as [|setId order IH]; intros old custom instances;
    cbn zeta.
  - cbn. rewrite app_nil_r. auto.
  - cbn [fold_left]. rewrite filter_cons.
    destruct (inCatalog sets setId) eqn:Hin.
    + destruct (refreshSet_turn sets old custom instances setId Hin)
        as ((set & Hc & Hid) & Hi). cbn zeta in Hc, Hi.
      destruct (EmojiListWidget.refreshSet sets (old, custom, instances) setId)
        as [[old' custom'] instances'].
      cbn [fst snd] in Hc, Hi. subst custom'.
      destruct (IH old' (custom ++ [set]) instances') as [E1 E2].
      cbn zeta in E1, E2.
      destruct (decide (Is_true true)) as [_|Hn]; [|exfalso; apply Hn; exact I].
      split.
      * rewrite E1, map_app, <- app_assoc. cbn. rewrite Hid. reflexivity.
      * intros key i Hk. apply E2, Hi, Hk.
    + rewrite refreshSet_skip by exact Hin.
      destruct (decide (Is_true false)) as [Hn|_]; [destruct Hn|].
      apply IH.
Qed.

Lemma list_find_related {A : Type} (P : A -> Prop) `{forall x, Decision (P x)}
  (l k : list A) :
  Forall2 (fun a b => (P a <-> P b) /\ (P a -> a = b)) l k ->
  list_find P l = list_find P k.
Proof.
  induction 1 as [|a b l k [Hiff Heq] _ IH]; [reflexivity|].
  cbn [list_find].
  destruct (decide (P a)) as [Ha|Ha]; destruct (decide (P b)) as [Hb|Hb].
  - rewrite (Heq Ha). reflexivity.
  - exfalso. apply Hb, Hiff, Ha.
  - exfalso. apply Ha, Hiff, Hb.
  - change (list_find P l) with (list_find P l) in IH.
    fold (@list_find A P _). rewrite IH. reflexivity.
Qed.

Lemma priorSet_takenOver (processed : list N) (old orig : list CustomSet.t)
  (setId : N) :
  Forall2 (takenOver processed) old orig ->
  setId <> 0%N -> setId ∉ processed ->
  priorSet old setId = priorSet orig setId.
Proof.
  intros Hrel H0 Hnew. unfold priorSet. apply list_find_related.
  eapply Forall2_impl; [exact Hrel|].
  intros a b [->|[-> Hb]]; [tauto|].
  cbn [CustomSet.id CustomSet.empty]. split.
  - split; intros E.
    + exfalso. apply H0. symmetry. exact E.
    + exfalso. apply Hnew. rewrite <- E. exact Hb.
  - intros E. exfalso. apply H0. symmetry. exact E.
Qed.

Lemma takenOver_mono (processed : list N) (setId : N) (a b : CustomSet.t) :
  takenOver processed a b -> takenOver (setId :: processed) a b.
Proof.
  intros [->|[-> H]]; [left; reflexivity|].
  right. split; [reflexivity|]. apply list_elem_of_further. exact H.
Qed.

(** One turn of the loop of [refreshCustom] in terms of the prior sets. *)
Lemma refreshSet_step (sets : gmap N StickersSet.t)
  (orig : list CustomSet.t) (processed : list N)
  (old custom : list CustomSet.t) (instances : gmap N CustomInstance.t)
  (setId : N) :
  Forall2 (takenOver processed) old orig ->
  setId <> 0%N -> setId ∉ processed ->
  let r := EmojiListWidget.refreshSet sets (old, custom, instances) setId in
  Forall2 (takenOver (setId :: processed)) r.1.1 orig
  /\ r.1.2 = custom ++ option_list (refreshedSet orig sets setId)
  /\ (forall key i, instances !! key = Some i -> r.2 !! key = Some i)
  /\ (forall key i,
        instances !! key = None -> r.2 !! key = Some i ->
        i = CustomInstance.mk setId false
        /\ exists it,
             sets !! setId = Some it
             /\ StickersSet.stickers it <> []
             /\ reusable orig setId it = None
             /\ key ∈ map DocumentData.id
                        (filter (fun d => DocumentData.sticker d)
                           (StickersSet.stickers it)))
  /\ (forall it d,
        sets !! setId = Some it ->
        StickersSet.stickers it <> [] ->
        reusable orig setId it = None ->
        d ∈ filter (fun d => DocumentData.sticker d) (StickersSet.stickers it) ->
        is_Some (r.2 !! DocumentData.id d)).
Proof.
  intros Hrel H0 Hnew. cbn zeta.
  pose proof (priorSet_takenOver processed old orig setId Hrel H0 Hnew)
    as Hprior.
  assert (Hkeep : Forall2 (takenOver (setId :: processed)) old orig).
  { eapply Forall2_impl; [exact Hrel|]. intros a b. apply takenOver_mono. }
  destruct (inCatalog sets setId) eqn:Ecat.
  2:{ rewrite refreshSet_skip by exact Ecat. cbn [fst snd].
      assert (Enone : refreshedSet orig sets setId = None).
      { unfold refreshedSet. unfold inCatalog in Ecat.
        destruct (sets !! setId) as [it|]; [|reflexivity].
        apply negb_false_iff in Ecat. rewrite Ecat. reflexivity. }
      rewrite Enone. cbn [option_list]. rewrite app_nil_r.
      split; [exact Hkeep|]. split; [reflexivity|]. split; [auto|].
      split.
      - intros key i Hn Hs. rewrite Hn in Hs. discriminate.
      - intros it d Hit Hne. exfalso. unfold inCatalog in Ecat.
        rewrite Hit in Ecat. apply negb_false_iff, bool_decide_eq_true in Ecat.
        contradiction. }
  unfold inCatalog in Ecat.
  destruct (sets !! setId) as [it|] eqn:Eit; [|discriminate].
  apply negb_true_iff in Ecat. pose proof Ecat as Ene.
  apply bool_decide_eq_false in Ene.
  pose proof (refreshSet_spec sets old custom instances setId it Eit Ene)
    as Hspec. cbn zeta in Hspec. rewrite Hprior in Hspec.
  set (r := EmojiListWidget.refreshSet sets (old, custom, instances) setId)
    in *.
  assert (Eref : refreshedSet orig sets setId
                 = Some (default (builtSet setId it) (reusable orig setId it))).
  { unfold refreshedSet. rewrite Eit, Ecat. reflexivity. }
  rewrite Eref. cbn [option_list].
  assert (Hfresh : reusable orig setId it = None ->
                   builtFresh setId it old custom instances r ->
                   Forall2 (takenOver (setId :: processed)) r.1.1 orig
                   /\ r.1.2 = custom ++ [default (builtSet setId it)
                                           (reusable orig setId it)]
                   /\ (forall key i, instances !! key = Some i ->
                         r.2 !! key = Some i)
                   /\ (forall key i,
                         instances !! key = None -> r.2 !! key = Some i ->
                         i = CustomInstance.mk setId false
                         /\ exists it0,
                              Some it = Some it0
                              /\ StickersSet.stickers it0 <> []
                              /\ reusable orig setId it0 = None
                              /\ key ∈ map DocumentData.id
                                         (filter (fun d => DocumentData.sticker d)
                                            (StickersSet.stickers it0)))
                   /\ (forall it0 d,
                         Some it = Some it0 ->
                         StickersSet.stickers it0 <> [] ->
                         reusable orig setId it0 = None ->
                         d ∈ filter (fun d => DocumentData.sticker d)
                               (StickersSet.stickers it0) ->
                         is_Some (r.2 !! DocumentData.id d))).
  { intros Enone (B1 & B2 & B3). rewrite Enone.
    cbn [default from_option id]. rewrite B1.
    split; [exact Hkeep|]. split; [exact B2|]. split.
    - intros key i Hi. rewrite B3, Hi. reflexivity.
    - split.
      + intros key i Hn Hs. rewrite B3, Hn in Hs.
        match type of Hs with
        | context [bool_decide ?P] => destruct (bool_decide P) eqn:Ein
        end; [|discriminate].
        injection Hs as <-. split; [reflexivity|].
        exists it. split; [reflexivity|]. split; [exact Ene|].
        split; [exact Enone|]. apply bool_decide_eq_true in Ein. exact Ein.
      + intros it0 d [= <-] _ _ Hd. rewrite B3.
        destruct (instances !! DocumentData.id d); [eauto|].
        rewrite bool_decide_eq_true_2; [eauto|].
        apply list_elem_of_fmap. exists d. split; [reflexivity|exact Hd]. }
  unfold reusable in Hfresh |- *.
  destruct (priorSet orig setId) as [[i found]|] eqn:Eprior;
    [|exact (Hfresh eq_refl Hspec)].
  destruct (bool_decide
              (map CustomOne.document (CustomSet.list found)
               = StickersSet.stickers it)) eqn:Esame;
    [|exact (Hfresh eq_refl Hspec)].
  clear Hfresh. rewrite Hspec. cbn [fst snd default from_option id].
  split.
  - (* the set taken over is blanked *)
    unfold priorSet in Hprior.
    apply list_find_Some in Hprior. destruct Hprior as (Hfound & Hid & _).
    destruct (Forall2_lookup_l _ _ _ _ _ Hrel Hfound) as (b & Hb & Hab).
    rewrite <- (list_insert_id orig i b Hb).
    apply Forall2_insert; [exact Hkeep|].
    right. split; [reflexivity|].
    destruct Hab as [<-|[-> _]].
    + rewrite Hid. apply list_elem_of_here.
    + exfalso. apply H0. symmetry. exact Hid.
  - split; [reflexivity|]. split; [auto|]. split.
    + intros key j Hn Hs. rewrite Hn in Hs. discriminate.
    + intros it0 d [= <-] _ Hre. rewrite Esame in Hre. discriminate.
Qed.

Lemma refresh_fold_prior (sets : gmap N StickersSet.t)
  (orig : list CustomSet.t) (order processed : list N)
  (old custom : list CustomSet.t) (instances : gmap N CustomInstance.t) :
  Forall2 (takenOver processed) old orig ->
  NoDup order -> 0%N ∉ order ->
  (forall s, s ∈ order -> s ∉ processed) ->
  let r :=
    fold_left (EmojiListWidget.refreshSet sets) order
      (old, custom, instances) in
  r.1.2 = custom ++ omap (refreshedSet orig sets) order
  /\ (forall key i, instances !! key = Some i -> r.2 !! key = Some i)
  /\ (forall key i,
        instances !! key = None -> r.2 !! key = Some i ->
        exists setId it,
          i = CustomInstance.mk setId false
          /\ setId ∈ order
          /\ sets !! setId = Some it
          /\ StickersSet.stickers it <> []
          /\ reusable orig setId it = None
          /\ key ∈ map DocumentData.id
                     (filter (fun d => DocumentData.sticker d)
                        (StickersSet.stickers it)))
  /\ (forall setId it d,
        setId ∈ order ->
        sets !! setId = Some it ->
        StickersSet.stickers it <> [] ->
        reusable orig setId it = None ->
        d ∈ filter (fun d => DocumentData.sticker d) (StickersSet.stickers it) ->
        is_Some (r.2 !! DocumentData.id d)).
Proof.
  revert processed old custom instances.
  induction order as [|setId order IH];
    intros processed old custom instances Hrel Hnd H0 Hnew; cbn zeta.
  - cbn [fold_left fst snd]. rewrite app_nil_r.
    split; [reflexivity|]. split; [auto|]. split.
    + intros key i Hn Hs. rewrite Hn in Hs. discriminate.
    + intros setId it d Hin. apply elem_of_nil in Hin. contradiction.
  - cbn [fold_left].
    apply NoDup_cons in Hnd. destruct Hnd as [Hfirst Hnd].
    assert (Hne0 : setId <> 0%N).
    { intros ->. apply H0. apply list_elem_of_here. }
    destruct (refreshSet_step sets orig processed old custom instances setId
                Hrel Hne0 (Hnew setId (list_elem_of_here _ _)))
      as (S1 & S2 & S3 & S4 & S5).
    cbn zeta in S1, S2, S3, S4, S5.
    destruct (EmojiListWidget.refreshSet sets (old, custom, instances) setId)
      as [[old' custom'] instances'].
    cbn [fst snd] in S1, S2, S3, S4, S5.
    destruct (IH (setId :: processed) old' custom' instances' S1 Hnd)
      as (I1 & I2 & I3 & I4).
    { intros Hin. apply H0. apply list_elem_of_further. exact Hin. }
    { intros s Hs Hin. apply elem_of_cons in Hin. destruct Hin as [->|Hin].
      - contradiction.
      - apply (Hnew s); [apply list_elem_of_further; exact Hs|exact Hin]. }
    cbn zeta in I1, I2, I3, I4.
    split; [|split; [|split]].
    + rewrite I1, S2, <- app_assoc. f_equal.
      change (omap (refreshedSet orig sets) (setId :: order))
        with (match refreshedSet orig sets setId with
              | Some y => y :: omap (refreshedSet orig sets) order
              | None => omap (refreshedSet orig sets) order
              end).
      destruct (refreshedSet orig sets setId); reflexivity.
    + intros key i Hi. apply I2, S3, Hi.
    + intros key i Hn Hs.
      destruct (instances' !! key) as [i'|] eqn:E'.
      * rewrite (I2 key i' E') in Hs. injection Hs as <-.
        destruct (S4 key i' Hn E') as (-> & it & A1 & A2 & A3 & A4).
        exists setId, it. split; [reflexivity|].
        split; [apply list_elem_of_here|]. auto.
      * destruct (I3 key i E' Hs) as (s & it & A0 & A1 & A2).
        exists s, it. split; [exact A0|].
        split; [apply list_elem_of_further; exact A1|exact A2].
    + intros s it d Hs Hit Hne Hre Hd.
      apply elem_of_cons in Hs. destruct Hs as [->|Hs].
      * destruct (S5 it d Hit Hne Hre Hd) as [i Hi].
        exists i. apply I2. exact Hi.
      * apply (I4 s it d Hs Hit Hne Hre Hd).
Qed.

(** C5, as it holds: a refresh rebuilds [_custom] from the catalog order
    alone and changes nothing but [_custom] and [_instances].  When the
    order lists no identifier twice and not the identifier 0, the new list
    has, in the order of the catalog, one section for every set that is
    present and not empty: the prior set as it is, with its state, exactly
    when the first prior set of the widget with the same identifier, at
    whatever position, has the same ordered document list, and otherwise a
    set built afresh with the painted flag clear, from the sticker
    documents in order, each on the instance registered under its content
    identifier.  The registry keeps every instance it had; an instance
    that is new in it was created unloaded for a set built afresh, under
    the identifier of one of the set's sticker documents, and every item
    of a set built afresh has its instance.  (A set that is listed a
    second time, or has the identifier 0, is matched against the prior
    list in which the sets already taken over are blanked; the last part
    gives the turn of the loop on any such list.) *)
Theorem refresh_reuses (sets : gmap N StickersSet.t) (order : list N)
  (w : EmojiListWidget.t) :
  NoDup order -> 0%N ∉ order ->
  let w' := EmojiListWidget.refreshCustom order sets w in
  EmojiListWidget._custom w'
  = omap (refreshedSet (EmojiListWidget._custom w) sets) order
  /\ sameButCustom w w'
  /\ (forall key i,
        EmojiListWidget._instances w !! key = Some i ->
        EmojiListWidget._instances w' !! key = Some i)
  /\ (forall key i,
        EmojiListWidget._instances w !! key = None ->
        EmojiListWidget._instances w' !! key = Some i ->
        exists setId it,
          i = CustomInstance.mk setId false
          /\ setId ∈ order
          /\ sets !! setId = Some it
          /\ StickersSet.stickers it <> []
          /\ reusable (EmojiListWidget._custom w) setId it = None
          /\ key ∈ map DocumentData.id
                     (filter (fun d => DocumentData.sticker d)
                        (StickersSet.stickers it)))
  /\ (forall setId it d,
        setId ∈ order ->
        sets !! setId = Some it ->
        StickersSet.stickers it <> [] ->
        reusable (EmojiListWidget._custom w) setId it = None ->
        d ∈ filter (fun d => DocumentData.sticker d) (StickersSet.stickers it) ->
        is_Some (EmojiListWidget._instances w' !! DocumentData.id d))
  /\ (forall old custom instances setId it,
        sets !! setId = Some it ->
        StickersSet.stickers it <> [] ->
        let r :=
          EmojiListWidget.refreshSet sets (old, custom, instances) setId in
        match priorSet old setId with
        | Some (i, found) =>
            if bool_decide
                 (map CustomOne.document (CustomSet.list found)
                  = StickersSet.stickers it)
            then
              r = (<[i := CustomSet.empty]> old, custom ++ [found], instances)
            else builtFresh setId it old custom instances r
        | None => builtFresh setId it old custom instances r
        end).
Proof.
  intros Hnd H0. cbn zeta.
  assert (Hrel : Forall2 (takenOver []) (EmojiListWidget._custom w)
                   (EmojiListWidget._custom w)).
  { induction (EmojiListWidget._custom w) as [|a l IH]; constructor;
      [left; reflexivity|exact IH]. }
  assert (Hnew : forall s, s ∈ order -> s ∉ []).
  { intros s _ Hin. apply elem_of_nil in Hin. exact Hin. }
  destruct (refresh_fold_prior sets (EmojiListWidget._custom w) order []
              (EmojiListWidget._custom w) [] (EmojiListWidget._instances w)
              Hrel Hnd H0 Hnew) as (F1 & F2 & F3 & F4).
  cbn zeta in F1, F2, F3, F4.
  unfold EmojiListWidget.refreshCustom.
  destruct (fold_left (EmojiListWidget.refreshSet sets) order
              (EmojiListWidget._custom w, [], EmojiListWidget._instances w))
    as [[old' custom'] instances'].
  cbn [fst snd app] in F1, F2, F3, F4.
  split; [exact F1|]. split; [reflexivity|]. split; [exact F2|].
  split; [exact F3|]. split; [exact F4|].
  intros old custom instances setId it Hit Hne.
  apply (refreshSet_spec sets old custom instances setId it Hit Hne).
Qed.

End Refresh.

Lemma refresh_reuses_witness :
  let w' :=
    EmojiListWidget.refreshCustom [2%N; 1%N] Fixture.catalog2 Fixture.before in
  EmojiListWidget._custom w'
  = omap (refreshedSet (EmojiListWidget._custom Fixture.before)
            Fixture.catalog2) [2%N; 1%N]
  /\ omap (refreshedSet (EmojiListWidget._custom Fixture.before)
             Fixture.catalog2) [2%N; 1%N]
     = [CustomSet.mk 2 "two" [CustomOne.mk 20 Fixture.doc20] true;
        CustomSet.mk 1 "one" [CustomOne.mk 10 Fixture.doc10] true].
Proof.
  assert (Hnd : NoDup [2%N; 1%N]).
  { apply NoDup_cons. split; [|apply NoDup_singleton].
    intros H. apply list_elem_of_singleton in H. discriminate. }
  assert (H0 : 0%N ∉ [2%N; 1%N]).
  { intros H. apply elem_of_cons in H. destruct H as [H|H]; [discriminate|].
    apply list_elem_of_singleton in H. discriminate. }
  split; [|vm_compute; reflexivity].
  exact (proj1 (refresh_reuses Fixture.catalog2 [2%N; 1%N] Fixture.before
                  Hnd H0)).
Defined.

(** What the two hypotheses on the order keep out.  A set listed twice is
    taken over the first time and built afresh the second time; and with
    the identifier 0 in the order, the set 0 is matched against the
    blanked place of set 1, taken over before, and built afresh although
    the prior set 0 has the same documents. *)
Lemma refresh_blanked_example :
  map CustomSet.painted
    (EmojiListWidget._custom
       (EmojiListWidget.refreshCustom [1%N; 1%N] Fixture.catalog2
          Fixture.before))
  = [true; false]
  /\ map CustomSet.painted (EmojiListWidget._custom Fixture.before0)
     = [true; true]
  /\ map CustomSet.painted
       (EmojiListWidget._custom
          (EmojiListWidget.refreshCustom [1%N; 0%N] Fixture.catalog0
             Fixture.before0))
     = [true; false].
Proof. vm_compute. repeat split; reflexivity. Qed.

(** C5 fails as stated: the catalog delivers the painted sets 1 and 2 in
    the other order.  The set at position 0 after the refresh is set 2 with
    its prior state (the painted flag, which a set built afresh does not
    have), although the old set at position 0 is set 1, with another
    identifier and other documents. *)
Lemma refresh_position_counterexample :
  EmojiListWidget._custom Fixture.before
  = [CustomSet.mk 1 "one" [CustomOne.mk 10 Fixture.doc10] true;
     CustomSet.mk 2 "two" [CustomOne.mk 20 Fixture.doc20] true]
  /\ EmojiListWidget._custom Fixture.reordered
     = [CustomSet.mk 2 "two" [CustomOne.mk 20 Fixture.doc20] true;
        CustomSet.mk 1 "one" [CustomOne.mk 10 Fixture.doc10] true]
  /\ EmojiListWidget._custom Fixture.reordered !! 0%nat
     <> EmojiListWidget._custom Fixture.before !! 0%nat.
Proof.
  split; [vm_compute; reflexivity|]. split; [vm_compute; reflexivity|].
  vm_compute. discriminate.
Qed.

(** ** Press, release and the variant overlay *)

Section Interaction.

Variable st : Style.t.
Variable rtl : bool.
Variable pickerLeft : Z -> Z -> Z -> Z.

Lemma setSelected_frame (n : Z) (w : EmojiListWidget.t) :
  exists p,
    EmojiListWidget.setSelected n w
    = w <| EmojiListWidget._selected := n |>
        <| EmojiListWidget._picker := p |>
    /\ (EmojiColorPicker.hidden (EmojiListWidget._picker w) = true ->
        p = EmojiListWidget._picker w).
Proof.
  unfold EmojiListWidget.setSelected.
  destruct (Z.eqb_spec (EmojiListWidget._selected w) n) as [<-|Hne].
  - exists (EmojiListWidget._picker w). split; [|reflexivity].
    destruct w; reflexivity.
  - cbn [set]. cbn.
    destruct (EmojiColorPicker.hidden (EmojiListWidget._picker w)) eqn:Hh;
      cbn [negb andb].
    + rewrite andb_false_r. eexists. split; [|reflexivity].
      destruct w; reflexivity.
    + destruct (0 <=? n); cbn [andb].
      * destruct (negb (n =? EmojiListWidget._pickerSel w)); eexists;
          (split; [reflexivity|discriminate]).
      * exists (EmojiListWidget._picker w). split; [|reflexivity].
        destruct w; reflexivity.
Qed.

Lemma updateSelected_frame (w : EmojiListWidget.t) :
  EmojiListWidget._pressedSel w < 0 ->
  EmojiListWidget._pickerSel w < 0 ->
  exists p,
    EmojiListWidget.updateSelected st rtl w
    = w <| EmojiListWidget._selected := EmojiListWidget.itemAt st rtl w |>
        <| EmojiListWidget._picker := p |>
    /\ (EmojiColorPicker.hidden (EmojiListWidget._picker w) = true ->
        p = EmojiListWidget._picker w).
Proof.
  intros Hp Hk. unfold EmojiListWidget.updateSelected.
  destruct (Z.leb_spec 0 (EmojiListWidget._pressedSel w)); [lia|].
  destruct (Z.leb_spec 0 (EmojiListWidget._pickerSel w)); [lia|].
  cbn [orb]. apply setSelected_frame.
Qed.

Lemma checkPickerHide_idle (w : EmojiListWidget.t) :
  EmojiListWidget._pickerSel w < 0 ->
  EmojiListWidget.checkPickerHide st rtl w = (false, w).
Proof.
  intros Hk. unfold EmojiListWidget.checkPickerHide.
  destruct (Z.leb_spec 0 (EmojiListWidget._pickerSel w)); [lia|].
  rewrite andb_false_r. reflexivity.
Qed.

(** A left press while nothing is pressed and no overlay target is set:
    the item under the pointer becomes the selected and the pressed one,
    and for an item with variants the overlay's one. *)
Lemma press_resolved (w : EmojiListWidget.t) (p1 : QPoint) :
  EmojiListWidget._pressedSel w < 0 ->
  EmojiListWidget._pickerSel w < 0 ->
  0 <= hit st rtl w p1 ->
  exists pk,
    (EmojiColorPicker.hidden (EmojiListWidget._picker w) = true ->
     pk = EmojiListWidget._picker w)
    /\ EmojiListWidget.mousePressEvent st rtl pickerLeft LeftButton p1 w
       = let w3 :=
           w <| EmojiListWidget._lastMousePos := p1 |>
             <| EmojiListWidget._selected := hit st rtl w p1 |>
             <| EmojiListWidget._picker := pk |>
             <| EmojiListWidget._pressedSel := hit st rtl w p1 |> in
         match itemOf w (hit st rtl w p1) with
         | Some emoji =>
             if One.hasVariants emoji then
               let w4 :=
                 w3 <| EmojiListWidget._pickerSel := hit st rtl w p1 |> in
               match
                 EmojiListWidget.emojiVariants w !! One.nonColoredId emoji
               with
               | None => EmojiListWidget.showPicker st rtl pickerLeft w4
               | Some _ =>
                   w4 <| EmojiListWidget._showPickerTimer := Some 500 |>
               end
             else w3
         | None => w3
         end.
Proof.
  intros Hp Hk Hi. unfold EmojiListWidget.mousePressEvent.
  pose proof (updateSelected_frame
                (w <| EmojiListWidget._lastMousePos := p1 |>)) as Hframe.
  destruct (Hframe Hp Hk) as (pk & E & Hpk). clear Hframe.
  exists pk. split; [exact Hpk|]. rewrite E. clear E.
  fold (hit st rtl w p1). set (i := hit st rtl w p1) in *.
  set (w1 := w <| EmojiListWidget._lastMousePos := p1 |>
               <| EmojiListWidget._selected := i |>
               <| EmojiListWidget._picker := pk |>).
  rewrite (checkPickerHide_idle w1) by exact Hk.
  rewrite bool_decide_eq_true_2 by reflexivity.
  cbn beta iota zeta. cbn [orb negb].
  change (EmojiListWidget._selected w1) with i.
  set (w3 := w1 <| EmojiListWidget._pressedSel := i |>).
  change (EmojiListWidget._selected w3) with i.
  destruct (Z.leb_spec 0 i); [|lia].
  change (EmojiListWidget.sectionCounts w3)
    with (EmojiListWidget.sectionCounts w).
  unfold itemOf.
  destruct (Layout.IndexToPosition (EmojiListWidget.sectionCounts w) i)
    as [section sel].
  change (EmojiListWidget.emojiAt w3 section sel)
    with (EmojiListWidget.emojiAt w section sel).
  destruct (EmojiListWidget.emojiAt w section sel) as [emoji|];
    [|reflexivity].
  destruct (One.hasVariants emoji); reflexivity.
Qed.

Lemma release_state (w : EmojiListWidget.t) (p c : QPoint) :
  EmojiListWidget.pickerTakes p w = false ->
  exists pk ks sel t,
    EmojiListWidget.mouseReleaseEvent st rtl p c w
    = EmojiListWidget.commitRelease (EmojiListWidget._pressedSel w)
        (beforeCommit w p pk ks sel t)
    /\ (EmojiListWidget._pickerSel w < 0 -> sel = hit st rtl w p).
Proof.
  intros Htakes. unfold EmojiListWidget.mouseReleaseEvent. cbn zeta.
  set (w1 := w <| EmojiListWidget._pressedSel := -1 |>
               <| EmojiListWidget._lastMousePos := p |>).
  change (EmojiListWidget.pickerTakes p w1)
    with (EmojiListWidget.pickerTakes p w).
  rewrite Htakes.
  assert (Hw2 : forall w2 : EmojiListWidget.t,
            (exists pk ks,
               w2 = w1 <| EmojiListWidget._picker := pk |>
                       <| EmojiListWidget._pickerSel := ks |>
               /\ (EmojiListWidget._pickerSel w < 0 ->
                   ks = EmojiListWidget._pickerSel w)) ->
            exists pk ks sel t,
              EmojiListWidget.commitRelease (EmojiListWidget._pressedSel w)
                match EmojiListWidget._showPickerTimer
                        (EmojiListWidget.updateSelected st rtl w2) with
                | Some _ =>
                    (EmojiListWidget.updateSelected st rtl w2)
                      <| EmojiListWidget._showPickerTimer := None |>
                      <| EmojiListWidget._pickerSel := -1 |>
                      <| EmojiListWidget._picker :=
                           (EmojiListWidget._picker
                              (EmojiListWidget.updateSelected st rtl w2))
                             <| EmojiColorPicker.hidden := true |> |>
                | None => EmojiListWidget.updateSelected st rtl w2
                end
              = EmojiListWidget.commitRelease (EmojiListWidget._pressedSel w)
                  (beforeCommit w p pk ks sel t)
              /\ (EmojiListWidget._pickerSel w < 0 -> sel = hit st rtl w p)).
  { intros w2 (pk & ks & -> & Hks).
    set (w2 := w1 <| EmojiListWidget._picker := pk |>
                  <| EmojiListWidget._pickerSel := ks |>).
    assert (Hw3 : exists pk' sel,
              EmojiListWidget.updateSelected st rtl w2
              = w2 <| EmojiListWidget._selected := sel |>
                   <| EmojiListWidget._picker := pk' |>
              /\ (EmojiListWidget._pickerSel w < 0 -> sel = hit st rtl w p)).
    { unfold EmojiListWidget.updateSelected.
      change (EmojiListWidget._pressedSel w2) with (-1).
      change (EmojiListWidget._pickerSel w2) with ks.
      cbn [Z.leb Z.compare orb].
      destruct (Z.leb_spec 0 ks) as [Hge|Hlt].
      - exists pk, (EmojiListWidget._selected w). split; [reflexivity|].
        intros Hk. specialize (Hks Hk). lia.
      - destruct (setSelected_frame (EmojiListWidget.itemAt st rtl w2) w2)
          as (pk' & E & _).
        exists pk', (EmojiListWidget.itemAt st rtl w2).
        split; [exact E|]. intros _. reflexivity. }
    destruct Hw3 as (pk' & sel & -> & Hsel).
    destruct (EmojiListWidget._showPickerTimer w) as [t0|] eqn:Ht.
    - change (EmojiListWidget._showPickerTimer
                (w2 <| EmojiListWidget._selected := sel |>
                    <| EmojiListWidget._picker := pk' |>))
        with (EmojiListWidget._showPickerTimer w).
      rewrite Ht.
      exists (pk' <| EmojiColorPicker.hidden := true |>), (-1), sel, None.
      split; [reflexivity|exact Hsel].
    - change (EmojiListWidget._showPickerTimer
                (w2 <| EmojiListWidget._selected := sel |>
                    <| EmojiListWidget._picker := pk' |>))
        with (EmojiListWidget._showPickerTimer w).
      rewrite Ht. exists pk', ks, sel, None. split; [|exact Hsel].
      f_equal. unfold beforeCommit, w2, w1. destruct w.
      cbn in Ht. subst. reflexivity. }
  apply Hw2. clear Hw2.
  assert (Hsame : exists pk ks,
            w1 = w1 <| EmojiListWidget._picker := pk |>
                    <| EmojiListWidget._pickerSel := ks |>
            /\ (EmojiListWidget._pickerSel w < 0 ->
                ks = EmojiListWidget._pickerSel w)).
  { exists (EmojiListWidget._picker w), (EmojiListWidget._pickerSel w).
    split; [|reflexivity]. unfold w1. destruct w; reflexivity. }
  destruct (negb (EmojiColorPicker.hidden (EmojiListWidget._picker w1))
            && (0 <=? EmojiListWidget._pickerSel w1)) eqn:Hopen;
    [|exact Hsame].
  destruct (Layout.IndexToPosition _ _) as [section sel].
  destruct (EmojiListWidget.emojiAt w1 section sel) as [emoji|];
    [|exact Hsame].
  destruct (One.hasVariants emoji && _); [|exact Hsame].
  eexists _, _. split; [reflexivity|].
  intros Hk. apply andb_true_iff in Hopen. destruct Hopen as [_ Hopen].
  apply Z.leb_le in Hopen. change (EmojiListWidget._pickerSel w1)
    with (EmojiListWidget._pickerSel w) in Hopen. lia.
Qed.

Lemma commitRelease_cases (pressed : Z) (w : EmojiListWidget.t) :
  EmojiListWidget.commitRelease pressed w = w
  \/ (exists em,
        EmojiListWidget.commitRelease pressed w
        = EmojiListWidget.selectEmoji em w
        /\ EmojiListWidget._selected w = pressed
        /\ itemOf w (EmojiListWidget._selected w) = Some em
        /\ One.hasVariants em
           && negb (EmojiColorPicker.hidden (EmojiListWidget._picker w))
           = false)
  \/ (exists d,
        EmojiListWidget.commitRelease pressed w
        = EmojiListWidget.selectCustom d w
        /\ EmojiListWidget._selected w = pressed
        /\ itemOf w (EmojiListWidget._selected w) = None).
Proof.
  unfold EmojiListWidget.commitRelease, itemOf.
  destruct (Z.ltb_spec (EmojiListWidget._selected w) 0); cbn [orb];
    [auto|].
  destruct (Z.eqb_spec (EmojiListWidget._selected w) pressed) as [Heq|];
    cbn [negb]; [|auto].
  destruct (Layout.IndexToPosition _ _) as [section sel].
  destruct (EmojiListWidget.emojiAt w section sel) as [em|].
  - destruct (One.hasVariants em
              && negb (EmojiColorPicker.hidden (EmojiListWidget._picker w)))
      eqn:Hopen; [auto|].
    right. left. exists em. auto.
  - destruct (EmojiListWidget.customAt w section) as [set|]; [|auto].
    destruct (CustomSet.list set !! Z.to_nat sel) as [one|]; [|auto].
    right. right. eexists. auto.
Qed.


(** *** The overlay *)

Lemma picker_setSelected (n : Z) (p : EmojiColorPicker.t) :
  EmojiColorPicker.setSelected n p = p <| EmojiColorPicker._selected := n |>.
Proof.
  unfold EmojiColorPicker.setSelected.
  destruct (Z.eqb_spec (EmojiColorPicker._selected p) n) as [<-|];
    [destruct p|]; reflexivity.
Qed.

Lemma picker_clearSelection (p : EmojiColorPicker.t) :
  EmojiColorPicker.clearSelection p
  = p <| EmojiColorPicker._pressedSel := -1 |>
      <| EmojiColorPicker._selected := -1 |>
      <| EmojiColorPicker._lastMousePos :=
           EmojiColorPicker.mapToGlobal p (-10, -10) |>.
Proof.
  unfold EmojiColorPicker.clearSelection. rewrite picker_setSelected.
  reflexivity.
Qed.

Lemma showAnimated_frame (p : EmojiColorPicker.t) :
  EmojiColorPicker._ignoreShow p = false ->
  EmojiColorPicker.hidden (EmojiColorPicker.showAnimated p) = false
  /\ EmojiColorPicker._variants (EmojiColorPicker.showAnimated p)
     = EmojiColorPicker._variants p.
Proof.
  intros Hshow. unfold EmojiColorPicker.showAnimated. rewrite Hshow.
  destruct (EmojiColorPicker.hidden p) eqn:Hh; cbn [negb andb].
  - rewrite picker_clearSelection.
    destruct (EmojiColorPicker.cacheNull _); split; reflexivity.
  - destruct (EmojiColorPicker._hiding p); cbn [negb].
    + rewrite picker_clearSelection.
      destruct (EmojiColorPicker.cacheNull _); split; reflexivity.
    + split; [exact Hh|reflexivity].
Qed.

Lemma showEmoji_shown (emoji : EmojiPtr) (p : EmojiColorPicker.t) :
  One.hasVariants emoji = true ->
  EmojiColorPicker.hidden (EmojiColorPicker.showEmoji st rtl emoji p) = false
  /\ EmojiColorPicker._variants (EmojiColorPicker.showEmoji st rtl emoji p)
     = EmojiColorPicker.variantsOf emoji.
Proof.
  intros Hvar. unfold EmojiColorPicker.showEmoji. rewrite Hvar. cbn [negb].
  unfold EmojiColorPicker.updateSize, EmojiColorPicker.updateSelected.
  rewrite picker_setSelected.
  match goal with
  | |- context [EmojiColorPicker.showAnimated ?q] =>
      destruct (showAnimated_frame q) as [H1 H2]
  end.
  - destruct (negb _); reflexivity.
  - rewrite H1, H2. split; [reflexivity|].
    destruct (negb _); reflexivity.
Qed.

Lemma variantsOf_lookup (emoji : EmojiPtr) (v : Z) :
  0 <= v <= One.variantsCount emoji ->
  EmojiColorPicker.variantsOf emoji !! Z.to_nat v = Some (One.variant emoji v).
Proof.
  intros Hv. unfold EmojiColorPicker.variantsOf.
  rewrite list_lookup_fmap.
  rewrite lookup_seq_lt by lia. cbn. f_equal. f_equal. lia.
Qed.

Lemma releaseSelect_spec (c : QPoint) (p : EmojiColorPicker.t) :
  let v :=
    EmojiColorPicker.variantAt st rtl
      (p <| EmojiColorPicker._lastMousePos := c |>) in
  let pressed := EmojiColorPicker._pressedSel p in
  EmojiColorPicker.releaseSelect st rtl c p
  = (p <| EmojiColorPicker._lastMousePos := c |>
       <| EmojiColorPicker._pressedSel := -1 |>
       <| EmojiColorPicker._selected := v |>,
     if (0 <=? v) && ((pressed <? 0) || (v =? pressed))
     then EmojiColorPicker._variants p !! Z.to_nat v
     else None).
Proof.
  cbn zeta. unfold EmojiColorPicker.releaseSelect, EmojiColorPicker.updateSelected.
  rewrite picker_setSelected. cbn zeta.
  change (EmojiColorPicker.variantAt st rtl
            (p <| EmojiColorPicker._lastMousePos := c |>
               <| EmojiColorPicker._pressedSel := -1 |>))
    with (EmojiColorPicker.variantAt st rtl
            (p <| EmojiColorPicker._lastMousePos := c |>)).
  set (v := EmojiColorPicker.variantAt st rtl
              (p <| EmojiColorPicker._lastMousePos := c |>)).
  change (EmojiColorPicker._selected
            (p <| EmojiColorPicker._lastMousePos := c |>
               <| EmojiColorPicker._pressedSel := -1 |>
               <| EmojiColorPicker._selected := v |>)) with v.
  change (EmojiColorPicker._pressedSel
            (p <| EmojiColorPicker._lastMousePos := c |>))
    with (EmojiColorPicker._pressedSel p).
  destruct ((0 <=? v) && _); reflexivity.
Qed.

Lemma colorChosen_logs (emoji : EmojiPtr) (w : EmojiListWidget.t) :
  let w' := EmojiListWidget.colorChosen emoji w in
  EmojiListWidget.chosen w' = EmojiListWidget.chosen w ++ [emoji]
  /\ EmojiListWidget.recentEmoji w' = EmojiListWidget.recentEmoji w ++ [emoji]
  /\ EmojiListWidget.customChosen w' = EmojiListWidget.customChosen w
  /\ EmojiListWidget._pressedSel w' = EmojiListWidget._pressedSel w
  /\ EmojiListWidget.emojiVariants w'
     = if One.hasVariants emoji
       then <[One.nonColoredId emoji := One.variantIndex emoji]>
              (EmojiListWidget.emojiVariants w)
       else EmojiListWidget.emojiVariants w.
Proof.
  cbn zeta. unfold EmojiListWidget.colorChosen.
  destruct (One.hasVariants emoji).
  - set (w1 := EmojiListWidget.saveEmojiVariant emoji w).
    destruct (0 <=? EmojiListWidget._pickerSel w1);
      [destruct (Layout.IndexToPosition _ _) as [section sel];
       destruct ((0 <=? section) && _)|]; repeat split; reflexivity.
  - destruct (0 <=? EmojiListWidget._pickerSel w);
      [destruct (Layout.IndexToPosition _ _) as [section sel];
       destruct ((0 <=? section) && _)|]; repeat split; reflexivity.
Qed.

(** A release that the overlay takes. *)
Lemma release_in_overlay (w : EmojiListWidget.t) (p c : QPoint) :
  EmojiListWidget.pickerTakes p w = true ->
  let w' := EmojiListWidget.mouseReleaseEvent st rtl p c w in
  let v := variantUnder st rtl w c in
  let pressed := EmojiColorPicker._pressedSel (EmojiListWidget._picker w) in
  w' = EmojiListWidget.pickerHandleMouseRelease st rtl c
         (w <| EmojiListWidget._pressedSel := -1 |>
            <| EmojiListWidget._lastMousePos := p |>)
  /\ EmojiListWidget._pressedSel w' = -1
  /\ match
       (if (0 <=? v) && ((pressed <? 0) || (v =? pressed))
        then EmojiColorPicker._variants (EmojiListWidget._picker w)
               !! Z.to_nat v
        else None)
     with
     | Some e =>
         EmojiListWidget.chosen w' = EmojiListWidget.chosen w ++ [e]
         /\ EmojiListWidget.recentEmoji w'
            = EmojiListWidget.recentEmoji w ++ [e]
         /\ EmojiListWidget.emojiVariants w'
            = if One.hasVariants e
              then <[One.nonColoredId e := One.variantIndex e]>
                     (EmojiListWidget.emojiVariants w)
              else EmojiListWidget.emojiVariants w
     | None =>
         EmojiListWidget.chosen w' = EmojiListWidget.chosen w
         /\ EmojiListWidget.recentEmoji w' = EmojiListWidget.recentEmoji w
         /\ EmojiListWidget.emojiVariants w' = EmojiListWidget.emojiVariants w
     end.
Proof.
  intros Htakes. cbn zeta. unfold EmojiListWidget.mouseReleaseEvent.
  cbn zeta.
  set (w1 := w <| EmojiListWidget._pressedSel := -1 |>
               <| EmojiListWidget._lastMousePos := p |>).
  change (EmojiListWidget.pickerTakes p w1)
    with (EmojiListWidget.pickerTakes p w).
  rewrite Htakes. split; [reflexivity|].
  unfold EmojiListWidget.pickerHandleMouseRelease.
  rewrite releaseSelect_spec.
  change (EmojiListWidget._picker w1) with (EmojiListWidget._picker w).
  fold (variantUnder st rtl w c).
  set (v := variantUnder st rtl w c).
  set (pressed := EmojiColorPicker._pressedSel (EmojiListWidget._picker w)).
  destruct (if (0 <=? v) && ((pressed <? 0) || (v =? pressed))
            then EmojiColorPicker._variants (EmojiListWidget._picker w)
                   !! Z.to_nat v
            else None) as [e|].
  - match goal with
    | |- context [EmojiListWidget.colorChosen e ?x] =>
        destruct (colorChosen_logs e x) as (L1 & L2 & L3 & L4 & L5);
        cbn zeta in L1, L2, L3, L4, L5;
        set (w2 := EmojiListWidget.colorChosen e x) in *
    end.
    split; [exact L4|]. split; [exact L1|]. split; [exact L2|exact L5].
  - repeat split; reflexivity.
Qed.

Lemma showPicker_shown (w : EmojiListWidget.t) (em : EmojiPtr) :
  0 <= EmojiListWidget._pickerSel w ->
  itemOf w (EmojiListWidget._pickerSel w) = Some em ->
  One.hasVariants em = true ->
  let w' := EmojiListWidget.showPicker st rtl pickerLeft w in
  EmojiColorPicker.hidden (EmojiListWidget._picker w') = false
  /\ EmojiColorPicker._variants (EmojiListWidget._picker w')
     = EmojiColorPicker.variantsOf em
  /\ EmojiListWidget._showPickerTimer w' = EmojiListWidget._showPickerTimer w
  /\ EmojiListWidget._pickerSel w' = EmojiListWidget._pickerSel w
  /\ EmojiListWidget._pressedSel w' = EmojiListWidget._pressedSel w.
Proof.
  intros Hk Hem Hvar. cbn zeta. unfold EmojiListWidget.showPicker.
  destruct (Z.ltb_spec (EmojiListWidget._pickerSel w) 0); [lia|].
  unfold itemOf in Hem.
  destruct (Layout.IndexToPosition _ _) as [section sel].
  rewrite Hem, Hvar.
  destruct (showEmoji_shown em (EmojiListWidget._picker w) Hvar) as [H1 H2].
  repeat split; [exact H1|exact H2].
Qed.

(** C7: a press on a multi-variant item whose family has no stored
    preferred variant shows the overlay at once, with the variants of the
    item, and arms no timer; with a stored preference the press arms the
    delay timer for 500 ms and leaves a hidden overlay hidden.  A release
    that the overlay takes on variant [v], with no press recorded in the
    overlay or one on [v], fires [chosen] with that variant, hands it to
    the "recently used" collaborator and stores [v] as the preferred
    variant of the family. *)
Theorem variant_overlay (w : EmojiListWidget.t) (p : QPoint) (em : EmojiPtr) :
  EmojiListWidget._pressedSel w < 0 ->
  EmojiListWidget._pickerSel w < 0 ->
  0 <= hit st rtl w p ->
  itemOf w (hit st rtl w p) = Some em ->
  One.hasVariants em = true ->
  let w1 := EmojiListWidget.mousePressEvent st rtl pickerLeft LeftButton p w in
  (EmojiListWidget.emojiVariants w !! One.nonColoredId em = None ->
   EmojiColorPicker.hidden (EmojiListWidget._picker w1) = false
   /\ EmojiColorPicker._variants (EmojiListWidget._picker w1)
      = EmojiColorPicker.variantsOf em
   /\ EmojiListWidget._showPickerTimer w1 = EmojiListWidget._showPickerTimer w
   /\ EmojiListWidget._pickerSel w1 = hit st rtl w p
   /\ EmojiListWidget._pressedSel w1 = hit st rtl w p)
  /\ (is_Some (EmojiListWidget.emojiVariants w !! One.nonColoredId em) ->
      EmojiListWidget._showPickerTimer w1 = Some 500
      /\ EmojiListWidget._pickerSel w1 = hit st rtl w p
      /\ EmojiListWidget._pressedSel w1 = hit st rtl w p
      /\ (EmojiColorPicker.hidden (EmojiListWidget._picker w) = true ->
          EmojiListWidget._picker w1 = EmojiListWidget._picker w))
  /\ (forall (w0 : EmojiListWidget.t) (p0 c : QPoint) (v : Z),
        EmojiListWidget.pickerTakes p0 w0 = true ->
        EmojiColorPicker._variants (EmojiListWidget._picker w0)
        = EmojiColorPicker.variantsOf em ->
        variantUnder st rtl w0 c = v ->
        0 <= v <= One.variantsCount em ->
        EmojiColorPicker._pressedSel (EmojiListWidget._picker w0) < 0
        \/ EmojiColorPicker._pressedSel (EmojiListWidget._picker w0) = v ->
        let w' := EmojiListWidget.mouseReleaseEvent st rtl p0 c w0 in
        EmojiListWidget.chosen w'
        = EmojiListWidget.chosen w0 ++ [One.variant em v]
        /\ EmojiListWidget.recentEmoji w'
           = EmojiListWidget.recentEmoji w0 ++ [One.variant em v]
        /\ EmojiListWidget.emojiVariants w' !! One.nonColoredId em = Some v).
Proof.
  intros Hp Hk Hi Hem Hvar. cbn zeta.
  destruct (press_resolved w p Hp Hk Hi) as (pk & Hpk & E).
  rewrite Hem, Hvar in E. cbn zeta in E. rewrite E. clear E.
  set (i := hit st rtl w p) in *.
  set (w4 := w <| EmojiListWidget._lastMousePos := p |>
               <| EmojiListWidget._selected := i |>
               <| EmojiListWidget._picker := pk |>
               <| EmojiListWidget._pressedSel := i |>
               <| EmojiListWidget._pickerSel := i |>).
  split; [|split].
  - intros Hnone. rewrite Hnone.
    apply (showPicker_shown w4 em); [exact Hi|exact Hem|exact Hvar].
  - intros [v0 Hsome]. rewrite Hsome.
    repeat split; try reflexivity. exact Hpk.
  - clear -Hvar. intros w0 p0 c v Htakes Hvariants Hv Hrange Hpressed.
    cbn zeta.
    destruct (release_in_overlay w0 p0 c Htakes) as (_ & _ & Hcommit).
    cbn zeta in Hcommit. rewrite Hv, Hvariants in Hcommit.
    rewrite variantsOf_lookup in Hcommit by exact Hrange.
    assert (Hcond :
      (0 <=? v)
      && ((EmojiColorPicker._pressedSel (EmojiListWidget._picker w0) <? 0)
          || (v =? EmojiColorPicker._pressedSel (EmojiListWidget._picker w0)))
      = true).
    { apply andb_true_iff. split; [apply Z.leb_le; lia|].
      apply orb_true_iff. destruct Hpressed as [H|H];
        [left; apply Z.ltb_lt; exact H|right; apply Z.eqb_eq; auto]. }
    rewrite Hcond in Hcommit. destruct Hcommit as (C1 & C2 & C3).
    split; [exact C1|]. split; [exact C2|].
    rewrite C3. change (One.hasVariants (One.variant em v))
      with (One.hasVariants em). rewrite Hvar.
    apply lookup_insert_eq.
Qed.

(** C8, as it holds: a release inside the bounds of the open overlay is
    forwarded to the overlay, which commits the variant under the release
    exactly when there is one (index [>= 0]) and either no press was
    recorded in the overlay (its pressed index is [-1]) or the recorded
    index equals the index under the release. *)
Theorem overlay_release (w : EmojiListWidget.t) (p c : QPoint) :
  EmojiListWidget.pickerTakes p w = true ->
  let w' := EmojiListWidget.mouseReleaseEvent st rtl p c w in
  let v := variantUnder st rtl w c in
  let pressed := EmojiColorPicker._pressedSel (EmojiListWidget._picker w) in
  w' = EmojiListWidget.pickerHandleMouseRelease st rtl c
         (w <| EmojiListWidget._pressedSel := -1 |>
            <| EmojiListWidget._lastMousePos := p |>)
  /\ (forall e,
        0 <= v -> pressed < 0 \/ v = pressed ->
        EmojiColorPicker._variants (EmojiListWidget._picker w) !! Z.to_nat v
        = Some e ->
        EmojiListWidget.chosen w' = EmojiListWidget.chosen w ++ [e]
        /\ EmojiListWidget.recentEmoji w'
           = EmojiListWidget.recentEmoji w ++ [e])
  /\ (v < 0 \/ (0 <= pressed /\ v <> pressed) ->
      EmojiListWidget.chosen w' = EmojiListWidget.chosen w
      /\ EmojiListWidget.recentEmoji w' = EmojiListWidget.recentEmoji w
      /\ EmojiListWidget.emojiVariants w' = EmojiListWidget.emojiVariants w).
Proof.
  intros Htakes. cbn zeta.
  destruct (release_in_overlay w p c Htakes) as (Hfwd & _ & Hcommit).
  cbn zeta in Hfwd, Hcommit.
  set (v := variantUnder st rtl w c) in *.
  set (pressed := EmojiColorPicker._pressedSel (EmojiListWidget._picker w))
    in *.
  split; [exact Hfwd|]. split.
  - intros e Hv Hpressed He.
    assert (Hcond : (0 <=? v) && ((pressed <? 0) || (v =? pressed)) = true).
    { apply andb_true_iff. split; [apply Z.leb_le; lia|].
      apply orb_true_iff. destruct Hpressed as [H|H];
        [left; apply Z.ltb_lt; exact H|right; apply Z.eqb_eq; auto]. }
    rewrite Hcond, He in Hcommit. destruct Hcommit as (C1 & C2 & _). auto.
  - intros Hno.
    assert (Hcond : (0 <=? v) && ((pressed <? 0) || (v =? pressed)) = false).
    { destruct Hno as [H|[H1 H2]].
      - destruct (Z.leb_spec 0 v); [lia|reflexivity].
      - apply andb_false_iff. right. apply orb_false_iff.
        split; [apply Z.ltb_ge; lia|apply Z.eqb_neq; exact H2]. }
    rewrite Hcond in Hcommit. exact Hcommit.
Qed.

End Interaction.



Lemma variant_overlay_witness :
  EmojiColorPicker.hidden (EmojiListWidget._picker Fixture.opened) = false
  /\ EmojiColorPicker._variants (EmojiListWidget._picker Fixture.opened)
     = EmojiColorPicker.variantsOf Fixture.hand
  /\ EmojiListWidget._showPickerTimer Fixture.opened = None
  /\ EmojiListWidget._pickerSel Fixture.opened = 0
  /\ EmojiListWidget._pressedSel Fixture.opened = 0.
Proof.
  assert (Hp : EmojiListWidget._pressedSel Fixture.panel < 0)
    by (vm_compute; reflexivity).
  assert (Hk : EmojiListWidget._pickerSel Fixture.panel < 0)
    by (vm_compute; reflexivity).
  assert (Hi : 0 <= hit Fixture.st false Fixture.panel (5, 7))
    by (vm_compute; discriminate).
  assert (Hem : itemOf Fixture.panel (hit Fixture.st false Fixture.panel (5, 7))
                = Some Fixture.hand) by (vm_compute; reflexivity).
  assert (Hvar : One.hasVariants Fixture.hand = true) by reflexivity.
  destruct (variant_overlay Fixture.st false (fun _ _ _ => 0) Fixture.panel
              (5, 7) Fixture.hand Hp Hk Hi Hem Hvar) as (Ha & _ & _).
  apply Ha. vm_compute. reflexivity.
Defined.

Lemma overlay_release_witness :
  EmojiListWidget.chosen
    (EmojiListWidget.mouseReleaseEvent Fixture.st false (30, 20) (30, 20)
       Fixture.opened)
  = [] ++ [One.variant Fixture.hand 2].
Proof.
  assert (Htakes : EmojiListWidget.pickerTakes (30, 20) Fixture.opened = true)
    by (vm_compute; reflexivity).
  destruct (overlay_release Fixture.st false Fixture.opened (30, 20) (30, 20)
              Htakes) as (_ & Hcommit & _).
  apply Hcommit.
  - vm_compute. discriminate.
  - left. vm_compute. reflexivity.
  - vm_compute. reflexivity.
Defined.

(** C8 fails as stated, in both directions.  The press that opened the
    overlay landed on the grid, so the overlay recorded no press (index
    [-1]); the release on variant 2 commits it although the two indices
    differ.  A release inside the bounds of the overlay but on none of
    its variants has the index [-1], equal to the recorded one, and
    commits nothing. *)
Lemma overlay_release_counterexample :
  EmojiColorPicker._pressedSel (EmojiListWidget._picker Fixture.opened) = -1
  /\ EmojiListWidget.chosen Fixture.opened = []
  /\ (EmojiListWidget.pickerTakes (30, 20) Fixture.opened = true
      /\ variantUnder Fixture.st false Fixture.opened (30, 20) = 2
      /\ EmojiListWidget.chosen
           (EmojiListWidget.mouseReleaseEvent Fixture.st false (30, 20)
              (30, 20) Fixture.opened)
         = [One.mk 100 2 3])
  /\ (EmojiListWidget.pickerTakes (1, 13) Fixture.opened = true
      /\ variantUnder Fixture.st false Fixture.opened (1, 13) = -1
      /\ EmojiListWidget.chosen
           (EmojiListWidget.mouseReleaseEvent Fixture.st false (1, 13)
              (1, 13) Fixture.opened)
         = []).
Proof. vm_compute. repeat split; reflexivity. Qed.

(** * Further properties of the code *)

(** ** Geometry of the sections *)

Lemma cellRow_quot (C sel : Z) :
  1 <= C -> 0 <= sel -> cellRow C sel = sel ÷ C /\ cellColumn C sel = Z.rem sel C.
Proof.
  intros HC Hsel. unfold cellRow, cellColumn. split; [|reflexivity].
  cbn zeta.
  assert (E : sel - Z.rem sel C = C * (sel ÷ C)).
  { pose proof (Z.quot_rem' sel C). lia. }
  rewrite E.
  rewrite (Z.mul_comm C), Z.quot_mul, Z.rem_mul by lia.
  change (0 =? 0) with true. cbv iota. lia.
Qed.

Lemma quot_cell (C row column : Z) :
  1 <= C -> 0 <= row -> 0 <= column < C ->
  cellOffset C row column ÷ C = row
  /\ Z.rem (cellOffset C row column) C = column.
Proof.
  intros HC Hr Hc. unfold cellOffset.
  assert (H0 : 0 <= row * C + column) by nia.
  rewrite Z.quot_div_nonneg, Z.rem_mod_nonneg by lia.
  split.
  - symmetry. apply (Z.div_unique _ _ row column); lia.
  - symmetry. apply (Z.mod_unique _ _ row column); lia.
Qed.

Section Geometry.

Variable st : Style.t.

Lemma enumerateFrom_lookup (C h top : Z) (entries : list (Z * Z * Z))
  (k : nat) (info : SectionInfo.t) :
  EmojiListWidget.enumerateFrom st C h top entries !! k = Some info ->
  exists e,
    entries !! k = Some e
    /\ SectionInfo.section info = e.1.2
    /\ SectionInfo.count info = e.2
    /\ SectionInfo.rowsCount info = (e.2 + C - 1) ÷ C
    /\ SectionInfo.rowsTop info
       = SectionInfo.top info
         + (if e.1.1 =? 0 then Style.emojiPanPadding st
            else Style.emojiPanHeader st)
    /\ SectionInfo.rowsBottom info
       = SectionInfo.rowsTop info + SectionInfo.rowsCount info * h.
Proof.
  revert top k. induction entries as [|[[i s] c] rest IH]; intros top k Hk.
  - destruct k; discriminate.
  - destruct k as [|k].
    + injection Hk as <-. exists (i, s, c). repeat split; reflexivity.
    + cbn [EmojiListWidget.enumerateFrom] in Hk. cbn zeta in Hk.
      apply IH in Hk. exact Hk.
Qed.

Lemma enumerateFrom_stacked (C h top : Z) (entries : list (Z * Z * Z)) :
  let infos := EmojiListWidget.enumerateFrom st C h top entries in
  (forall info, infos !! 0%nat = Some info -> SectionInfo.top info = top)
  /\ (forall k a b, infos !! k = Some a -> infos !! S k = Some b ->
        SectionInfo.top b = SectionInfo.rowsBottom a).
Proof.
  revert top. induction entries as [|[[i s] c] rest IH]; intros top; cbn zeta.
  - split; intros; discriminate.
  - split.
    + intros info Hi. injection Hi as <-. reflexivity.
    + intros k a b Ha Hb. cbn [EmojiListWidget.enumerateFrom] in Ha, Hb.
      cbn zeta in Ha, Hb.
      destruct (IH (SectionInfo.rowsBottom
                      (EmojiListWidget.next st C h i s c top))) as [H0 HS].
      destruct k as [|k].
      * injection Ha as <-. apply H0. exact Hb.
      * apply (HS k); assumption.
Qed.

Lemma enumerateFrom_length (C h top : Z) (entries : list (Z * Z * Z)) :
  length (EmojiListWidget.enumerateFrom st C h top entries) = length entries.
Proof.
  revert top. induction entries as [|[[i s] c] rest IH]; intros top;
    [reflexivity|]. cbn. now rewrite IH.
Qed.

Lemma customEntriesFrom_at (i : Z) (custom : list CustomSet.t) (j : nat)
  (e : Z * Z * Z) :
  EmojiListWidget.customEntriesFrom i custom !! j = Some e ->
  exists set,
    custom !! j = Some set
    /\ e = (i + Z.of_nat j + 1, i + Z.of_nat j,
            Z.of_nat (length (CustomSet.list set))).
Proof.
  revert i j. induction custom as [|set rest IH]; intros i j Hj.
  - destruct j; discriminate.
  - destruct j as [|j].
    + injection Hj as <-. exists set. split; [reflexivity|].
      change (Z.of_nat 0) with 0. rewrite Z.add_0_r. reflexivity.
    + cbn [EmojiListWidget.customEntriesFrom] in Hj.
      apply IH in Hj. destruct Hj as (set' & Hs & ->).
      exists set'. split; [exact Hs|].
      replace (i + Z.of_nat (S j)) with (i + 1 + Z.of_nat j) by lia.
      reflexivity.
Qed.

Lemma customEntriesFrom_length (i : Z) (custom : list CustomSet.t) :
  length (EmojiListWidget.customEntriesFrom i custom) = length custom.
Proof.
  revert i. induction custom as [|set rest IH]; intros i; [reflexivity|].
  cbn. now rewrite IH.
Qed.

Lemma builtinEntries_at (w : EmojiListWidget.t) (k : nat) (e : Z * Z * Z) :
  EmojiListWidget.builtinEntries w !! k = Some e ->
  (k < 8)%nat
  /\ e = (Z.of_nat k, Z.of_nat k, nth k (EmojiListWidget._counts w) 0).
Proof.
  unfold EmojiListWidget.builtinEntries. rewrite list_lookup_fmap.
  change (Z.to_nat kEmojiSectionCount) with 8%nat.
  intros Hk. destruct (seq 0 8 !! k) as [i|] eqn:E; [|discriminate].
  apply lookup_seq in E. destruct E as [-> Hlt]. injection Hk as <-.
  split; [exact Hlt|reflexivity].
Qed.

(** The entry behind the section at position [k] of the enumeration. *)
Lemma entries_at (w : EmojiListWidget.t) (k : nat) (e : Z * Z * Z) :
  (EmojiListWidget.builtinEntries w ++ EmojiListWidget.customEntries w) !! k
  = Some e ->
  e.1.2 = Z.of_nat k
  /\ (e.1.1 = 0 <-> k = 0%nat)
  /\ e.2 = nth k (EmojiListWidget.sectionCounts w) 0
  /\ (0 <= e.2 \/ ((k < 8)%nat /\ e.2 = nth k (EmojiListWidget._counts w) 0)).
Proof.
  intros Hk.
  assert (Hc : e.2 = nth k (EmojiListWidget.sectionCounts w) 0).
  { unfold EmojiListWidget.sectionCounts.
    apply (f_equal (fmap snd)) in Hk. rewrite <- list_lookup_fmap in Hk.
    symmetry. apply nth_lookup_Some with (d := 0) in Hk. exact Hk. }
  assert (Hlen : length (EmojiListWidget.builtinEntries w) = 8%nat).
  { unfold EmojiListWidget.builtinEntries. rewrite length_map, length_seq.
    reflexivity. }
  destruct (decide (k < 8)%nat) as [Hlt|Hge].
  - rewrite lookup_app_l in Hk by lia.
    apply builtinEntries_at in Hk. destruct Hk as [_ ->].
    cbn [fst snd] in *.
    repeat split; first [lia | right; split; [lia|reflexivity]].
  - rewrite lookup_app_r in Hk by lia. rewrite Hlen in Hk.
    apply customEntriesFrom_at in Hk. destruct Hk as (set & _ & ->).
    cbn [fst snd] in *. unfold kEmojiSectionCount.
    repeat split; try lia.
Qed.

Lemma enumerateSections_at (w : EmojiListWidget.t) (k : nat)
  (info : SectionInfo.t) :
  EmojiListWidget.enumerateSections st w !! k = Some info ->
  SectionInfo.section info = Z.of_nat k
  /\ SectionInfo.count info = nth k (EmojiListWidget.sectionCounts w) 0
  /\ (0 <= SectionInfo.count info
      \/ ((k < 8)%nat
          /\ SectionInfo.count info = nth k (EmojiListWidget._counts w) 0))
  /\ SectionInfo.rowsCount info
     = (SectionInfo.count info + EmojiListWidget._columnCount w - 1)
       ÷ EmojiListWidget._columnCount w
  /\ SectionInfo.rowsTop info
     = SectionInfo.top info
       + (if decide (k = 0%nat) then Style.emojiPanPadding st
          else Style.emojiPanHeader st)
  /\ SectionInfo.rowsBottom info
     = SectionInfo.rowsTop info
       + SectionInfo.rowsCount info
         * sizeHeight (EmojiListWidget._singleSize w).
Proof.
  intros Hk. unfold EmojiListWidget.enumerateSections in Hk.
  apply enumerateFrom_lookup in Hk.
  destruct Hk as (e & He & Hs & Hc & Hr & Ht & Hb).
  apply entries_at in He. destruct He as (E1 & E2 & E3 & E4).
  split; [congruence|]. split; [congruence|].
  split; [rewrite Hc; exact E4|]. split; [rewrite Hr, Hc; reflexivity|].
  split; [|exact Hb].
  rewrite Ht. destruct (Z.eqb_spec e.1.1 0) as [H0|H0];
    destruct (decide (k = 0%nat)) as [K|K]; try reflexivity.
  - apply E2 in H0. contradiction.
  - apply E2 in K. contradiction.
Qed.

Lemma enumerateSections_length (w : EmojiListWidget.t) :
  Z.of_nat (length (EmojiListWidget.enumerateSections st w))
  = EmojiListWidget.sectionsCount w.
Proof.
  unfold EmojiListWidget.enumerateSections, EmojiListWidget.sectionsCount.
  rewrite enumerateFrom_length, length_app.
  unfold EmojiListWidget.builtinEntries, EmojiListWidget.customEntries.
  rewrite length_map, length_seq, customEntriesFrom_length.
  change (Z.to_nat kEmojiSectionCount) with 8%nat.
  unfold kEmojiSectionCount. lia.
Qed.

Lemma enumerateSections_first (w : EmojiListWidget.t) (info : SectionInfo.t) :
  EmojiListWidget.enumerateSections st w !! 0%nat = Some info ->
  SectionInfo.top info = 0.
Proof. apply enumerateFrom_stacked. Qed.

Lemma enumerateSections_next (w : EmojiListWidget.t) (k : nat)
  (a b : SectionInfo.t) :
  EmojiListWidget.enumerateSections st w !! k = Some a ->
  EmojiListWidget.enumerateSections st w !! S k = Some b ->
  SectionInfo.top b = SectionInfo.rowsBottom a.
Proof. apply enumerateFrom_stacked. Qed.

(** X1: [enumerateSections] gives one section per built-in category and
    per custom set, numbered from 0 in the order of the list.  The first
    section starts at 0 and has [st::emojiPanPadding] above its rows; every
    later one starts where the rows of the one before it end and has
    [st::emojiPanHeader] above its rows; the rows of a section take
    [rowsCount] times the height of a cell. *)
Theorem sections_stacked (w : EmojiListWidget.t) :
  EmojiListWidget._columnCount w <> 0 ->
  let infos := EmojiListWidget.enumerateSections st w in
  Z.of_nat (length infos) = EmojiListWidget.sectionsCount w
  /\ (forall k info, infos !! k = Some info ->
        SectionInfo.section info = Z.of_nat k
        /\ SectionInfo.rowsTop info
           = SectionInfo.top info
             + (if decide (k = 0%nat) then Style.emojiPanPadding st
                else Style.emojiPanHeader st)
        /\ SectionInfo.rowsBottom info
           = SectionInfo.rowsTop info
             + SectionInfo.rowsCount info
               * sizeHeight (EmojiListWidget._singleSize w))
  /\ (forall info, infos !! 0%nat = Some info -> SectionInfo.top info = 0)
  /\ (forall k a b, infos !! k = Some a -> infos !! S k = Some b ->
        SectionInfo.top b = SectionInfo.rowsBottom a).
Proof.
  intros _. cbn zeta. split; [apply enumerateSections_length|]. split.
  - intros k info Hk. apply enumerateSections_at in Hk.
    destruct Hk as (H1 & _ & _ & _ & H5 & H6). auto.
  - apply enumerateFrom_stacked.
Qed.


Lemma rows_ceiling (C count : Z) :
  1 <= C -> 0 <= count ->
  0 <= (count + C - 1) ÷ C
  /\ C * ((count + C - 1) ÷ C - 1) < count <= C * ((count + C - 1) ÷ C).
Proof.
  intros HC Hc. rewrite Z.quot_div_nonneg by lia.
  pose proof (Z.div_mod (count + C - 1) C ltac:(lia)) as E.
  pose proof (Z.mod_pos_bound (count + C - 1) C ltac:(lia)) as B.
  set (q := (count + C - 1) / C) in *. nia.
Qed.

Lemma nth_nonneg (l : list Z) (k : nat) :
  Forall (fun c => 0 <= c) l -> 0 <= nth k l 0.
Proof.
  intros H. revert k. induction H as [|c l Hc _ IH]; intros [|k]; cbn;
    try lia. apply IH.
Qed.

Lemma find_lookup {A : Type} (P : A -> bool) (l : list A) (x : A) :
  find P l = Some x ->
  exists k,
    l !! k = Some x /\ P x = true
    /\ forall j y, (j < k)%nat -> l !! j = Some y -> P y = false.
Proof.
  induction l as [|a l IH]; [discriminate|]. cbn [find].
  destruct (P a) eqn:Ea.
  - intros [= ->]. exists 0%nat. repeat split; [exact Ea|]. lia.
  - intros H. destruct (IH H) as (k & Hk & Hx & Hbefore).
    exists (S k). repeat split; [exact Hk|exact Hx|].
    intros [|j] y Hj Hy; [injection Hy as <-; exact Ea|].
    apply (Hbefore j); [lia|exact Hy].
Qed.

Lemma find_section (l : list SectionInfo.t) (info : SectionInfo.t) :
  NoDup (map SectionInfo.section l) -> info ∈ l ->
  find (fun i => SectionInfo.section i =? SectionInfo.section info) l
  = Some info.
Proof.
  induction l as [|a l IH]; intros Hnd Hin.
  - apply elem_of_nil in Hin. contradiction.
  - cbn [map] in Hnd. apply NoDup_cons in Hnd. destruct Hnd as [Hna Hnd].
    cbn [find]. apply elem_of_cons in Hin. destruct Hin as [->|Hin].
    + rewrite Z.eqb_refl. reflexivity.
    + destruct (Z.eqb_spec (SectionInfo.section a) (SectionInfo.section info))
        as [E|E].
      * exfalso. apply Hna. rewrite E. apply list_elem_of_fmap.
        exists info. split; [reflexivity|exact Hin].
      * apply IH; assumption.
Qed.

Lemma sectionInfo_elem (w : EmojiListWidget.t) (info : SectionInfo.t) :
  info ∈ EmojiListWidget.enumerateSections st w ->
  EmojiListWidget.sectionInfo st w (SectionInfo.section info) = info.
Proof.
  intros Hin. unfold EmojiListWidget.sectionInfo.
  rewrite find_section; [reflexivity| |exact Hin].
  apply enumerateSections_NoDup.
Qed.

(** The hypotheses on the sizes under which the layout is the intended
    one. *)
Section Sized.

Variable w : EmojiListWidget.t.
Hypothesis columns : 1 <= EmojiListWidget._columnCount w.
Hypothesis rowHeight : 0 <= sizeHeight (EmojiListWidget._singleSize w).
Hypothesis padding : 0 <= Style.emojiPanPadding st.
Hypothesis header : 0 <= Style.emojiPanHeader st.
Hypothesis counts : Forall (fun c => 0 <= c) (EmojiListWidget._counts w).

Lemma section_at (k : nat) (info : SectionInfo.t) :
  EmojiListWidget.enumerateSections st w !! k = Some info ->
  0 <= SectionInfo.count info
  /\ 0 <= SectionInfo.rowsCount info
  /\ EmojiListWidget._columnCount w * (SectionInfo.rowsCount info - 1)
     < SectionInfo.count info
     <= EmojiListWidget._columnCount w * SectionInfo.rowsCount info
  /\ SectionInfo.top info <= SectionInfo.rowsTop info
  /\ SectionInfo.rowsTop info <= SectionInfo.rowsBottom info.
Proof.
  intros Hk. apply enumerateSections_at in Hk.
  destruct Hk as (_ & _ & Hc & Hr & Ht & Hb).
  assert (H0 : 0 <= SectionInfo.count info).
  { destruct Hc as [Hc|[_ Hc]]; [exact Hc|].
    rewrite Hc. apply nth_nonneg. exact counts. }
  destruct (rows_ceiling _ _ columns H0) as [R1 R2].
  rewrite <- Hr in R1, R2.
  split; [exact H0|]. split; [exact R1|]. split; [exact R2|].
  split.
  - rewrite Ht. destruct (decide (k = 0%nat)); lia.
  - rewrite Hb. nia.
Qed.

Lemma section_top (k : nat) (info : SectionInfo.t) :
  EmojiListWidget.enumerateSections st w !! k = Some info ->
  0 <= SectionInfo.top info.
Proof.
  revert info. induction k as [|k IH]; intros info Hk.
  - rewrite (enumerateSections_first w info Hk). lia.
  - destruct (lookup_lt_is_Some_2 (EmojiListWidget.enumerateSections st w) k)
      as [a Ha].
    { apply lookup_lt_Some in Hk. lia. }
    rewrite (enumerateSections_next w k a info Ha Hk).
    pose proof (IH a Ha). pose proof (section_at k a Ha). lia.
Qed.

Lemma section_below (j k : nat) (a b : SectionInfo.t) :
  (j < k)%nat ->
  EmojiListWidget.enumerateSections st w !! j = Some a ->
  EmojiListWidget.enumerateSections st w !! k = Some b ->
  SectionInfo.rowsBottom a <= SectionInfo.top b.
Proof.
  intros Hjk Ha. revert b. induction k as [|k IH]; intros b Hb; [lia|].
  destruct (lookup_lt_is_Some_2 (EmojiListWidget.enumerateSections st w) k)
    as [c Hc].
  { apply lookup_lt_Some in Hb. lia. }
  rewrite (enumerateSections_next w k c b Hc Hb).
  destruct (decide (j = k)) as [->|Hne].
  - rewrite Ha in Hc. injection Hc as <-. lia.
  - pose proof (IH ltac:(lia) c Hc). pose proof (section_at k c Hc). lia.
Qed.

Lemma sectionCounts_nonneg :
  Forall (fun c => 0 <= c) (EmojiListWidget.sectionCounts w).
Proof.
  apply Forall_lookup. intros i x Hx. unfold EmojiListWidget.sectionCounts in Hx.
  rewrite list_lookup_fmap in Hx.
  destruct ((EmojiListWidget.builtinEntries w
             ++ EmojiListWidget.customEntries w) !! i) as [e|] eqn:E;
    [|discriminate].
  injection Hx as <-. apply entries_at in E.
  destruct E as (_ & _ & _ & [H|[_ H]]); [exact H|].
  rewrite H. apply nth_nonneg. exact counts.
Qed.

End Sized.

(** X2: with at least one column, and with counts, cell height and
    paddings that are not negative, every section has exactly the rows
    that its items need: [rowsCount] rows of [_columnCount] cells hold the
    [count] items and one row less does not.  No section starts above 0,
    and its rows lie below its top. *)
Theorem sections_hold_items (w : EmojiListWidget.t) (info : SectionInfo.t) :
  1 <= EmojiListWidget._columnCount w ->
  0 <= sizeHeight (EmojiListWidget._singleSize w) ->
  0 <= Style.emojiPanPadding st ->
  0 <= Style.emojiPanHeader st ->
  Forall (fun c => 0 <= c) (EmojiListWidget._counts w) ->
  info ∈ EmojiListWidget.enumerateSections st w ->
  0 <= SectionInfo.count info
  /\ 0 <= SectionInfo.rowsCount info
  /\ EmojiListWidget._columnCount w * (SectionInfo.rowsCount info - 1)
     < SectionInfo.count info
     <= EmojiListWidget._columnCount w * SectionInfo.rowsCount info
  /\ 0 <= SectionInfo.top info
  /\ SectionInfo.top info <= SectionInfo.rowsTop info
  /\ SectionInfo.rowsTop info <= SectionInfo.rowsBottom info.
Proof.
  intros HC Hh Hp Hhd Hc Hin. apply list_elem_of_lookup in Hin.
  destruct Hin as [k Hk].
  destruct (section_at w HC Hh Hp Hhd Hc k info Hk) as (A & B & C & D & E).
  pose proof (section_top w HC Hh Hp Hhd Hc k info Hk). tauto.
Qed.

(** X3: the rectangle that [emojiRect] gives for an item of a section
    lies within the rows of the section and within the columns of the
    grid, and no two items of a section get the same rectangle. *)
Theorem item_rect_in_rows (w : EmojiListWidget.t) (info : SectionInfo.t)
  (sel : Z) :
  1 <= EmojiListWidget._columnCount w ->
  0 < sizeWidth (EmojiListWidget._singleSize w) ->
  0 < sizeHeight (EmojiListWidget._singleSize w) ->
  Forall (fun c => 0 <= c) (EmojiListWidget._counts w) ->
  info ∈ EmojiListWidget.enumerateSections st w ->
  0 <= sel < SectionInfo.count info ->
  let r := EmojiListWidget.emojiRect st w (SectionInfo.section info) sel in
  (SectionInfo.rowsTop info <= QRect.y r
   /\ QRect.y r + QRect.height r <= SectionInfo.rowsBottom info
   /\ EmojiListWidget._rowsLeft w <= QRect.x r
   /\ QRect.x r + QRect.width r
      <= EmojiListWidget._rowsLeft w
         + EmojiListWidget._columnCount w
           * sizeWidth (EmojiListWidget._singleSize w))
  /\ forall sel',
       0 <= sel' ->
       EmojiListWidget.emojiRect st w (SectionInfo.section info) sel' = r ->
       sel' = sel.
Proof.
  intros HC Hw Hh Hc Hin Hsel. cbn zeta.
  unfold EmojiListWidget.emojiRect. cbn zeta.
  rewrite (sectionInfo_elem w info Hin).
  apply list_elem_of_lookup in Hin. destruct Hin as [k Hk].
  apply enumerateSections_at in Hk.
  destruct Hk as (_ & _ & _ & Hr & _ & Hb).
  destruct (rows_ceiling (EmojiListWidget._columnCount w)
              (SectionInfo.count info) HC ltac:(lia)) as [R1 R2].
  rewrite <- Hr in R1, R2.
  destruct (cellRow_quot (EmojiListWidget._columnCount w) sel HC ltac:(lia))
    as [Erow Ecol].
  cbn [QRect.x QRect.y QRect.width QRect.height].
  set (C := EmojiListWidget._columnCount w) in *.
  set (sw := sizeWidth (EmojiListWidget._singleSize w)) in *.
  set (sh := sizeHeight (EmojiListWidget._singleSize w)) in *.
  assert (Hq : 0 <= sel ÷ C < SectionInfo.rowsCount info).
  { rewrite Z.quot_div_nonneg by lia.
    pose proof (Z.div_mod sel C ltac:(lia)).
    pose proof (Z.mod_pos_bound sel C ltac:(lia)).
    split; [apply Z.div_pos; lia|]. nia. }
  assert (Hm : 0 <= Z.rem sel C < C).
  { rewrite Z.rem_mod_nonneg by lia. apply Z.mod_pos_bound. lia. }
  split.
  - rewrite Erow, Ecol, Hb. repeat split; nia.
  - intros sel' Hsel' E.
    destruct (cellRow_quot C sel' HC Hsel') as [Erow' Ecol'].
    injection E as Ex Ey.
    assert (Hcol : cellColumn C sel' = cellColumn C sel) by nia.
    assert (Hrow : cellRow C sel' = cellRow C sel) by nia.
    rewrite <- (cell_roundtrip C sel' HC Hsel').
    rewrite <- (cell_roundtrip C sel HC ltac:(lia)).
    rewrite Hcol, Hrow. reflexivity.
Qed.

(** X4: whatever the offset, [sectionInfoByOffset] returns a section of
    the enumeration, and [currentSection] its number.  The section is the
    last one or has its rows end below the offset; it does not start below
    an offset that is not negative; and any section whose extent from
    [top] to [rowsBottom] holds the offset is the one returned. *)
Theorem section_by_offset (w : EmojiListWidget.t) (y : Z) :
  1 <= EmojiListWidget._columnCount w ->
  0 <= sizeHeight (EmojiListWidget._singleSize w) ->
  0 <= Style.emojiPanPadding st ->
  0 <= Style.emojiPanHeader st ->
  Forall (fun c => 0 <= c) (EmojiListWidget._counts w) ->
  let info := EmojiListWidget.sectionInfoByOffset st w y in
  info ∈ EmojiListWidget.enumerateSections st w
  /\ EmojiListWidget.currentSection st y w = SectionInfo.section info
  /\ (0 <= y -> SectionInfo.top info <= y)
  /\ (y < SectionInfo.rowsBottom info
      \/ SectionInfo.section info = EmojiListWidget.sectionsCount w - 1)
  /\ (forall other,
        other ∈ EmojiListWidget.enumerateSections st w ->
        SectionInfo.top other <= y < SectionInfo.rowsBottom other ->
        other = info).
Proof.
  intros HC Hh Hp Hhd Hc. cbn zeta.
  unfold EmojiListWidget.currentSection, EmojiListWidget.sectionInfoByOffset.
  cbn zeta.
  set (infos := EmojiListWidget.enumerateSections st w).
  set (P := fun info =>
              (y <? SectionInfo.rowsBottom info)
              || (SectionInfo.section info
                  =? EmojiListWidget.sectionsCount w - 1)).
  pose proof (enumerateSections_length w) as Hlen. fold infos in Hlen.
  assert (Hpos : 8 <= EmojiListWidget.sectionsCount w).
  { unfold EmojiListWidget.sectionsCount, kEmojiSectionCount. lia. }
  destruct (find P infos) as [info|] eqn:Efind.
  - cbn [default from_option id].
    apply find_lookup in Efind. destruct Efind as (k & Hk & HP & Hbefore).
    assert (Hcase : y < SectionInfo.rowsBottom info
                    \/ SectionInfo.section info
                       = EmojiListWidget.sectionsCount w - 1).
    { unfold P in HP. apply orb_true_iff in HP.
      destruct HP as [H|H]; [left; apply Z.ltb_lt; exact H|
                             right; apply Z.eqb_eq; exact H]. }
    assert (Hprev : forall j a, (j < k)%nat -> infos !! j = Some a ->
                      SectionInfo.rowsBottom a <= y).
    { intros j a Hj Ha. pose proof (Hbefore j a Hj Ha) as H. unfold P in H.
      apply orb_false_iff in H. destruct H as [H _].
      apply Z.ltb_ge in H. exact H. }
    split; [apply list_elem_of_lookup; exists k; exact Hk|].
    split; [reflexivity|]. split; [|split; [exact Hcase|]].
    + intros Hy. destruct k as [|k].
      * rewrite (enumerateSections_first w info Hk). exact Hy.
      * destruct (lookup_lt_is_Some_2 infos k) as [a Ha].
        { apply lookup_lt_Some in Hk. lia. }
        rewrite (enumerateSections_next w k a info Ha Hk).
        apply (Hprev k a); [lia|exact Ha].
    + intros other Hother Hin.
      apply list_elem_of_lookup in Hother. destruct Hother as [j Hj].
      destruct (lt_eq_lt_dec j k) as [[Hlt|Heq]|Hgt].
      * pose proof (Hprev j other Hlt Hj). lia.
      * subst j. fold infos in Hj. congruence.
      * pose proof (section_below w HC Hh Hp Hhd Hc k j info other Hgt Hk Hj).
        destruct Hcase as [Hcase|Hcase]; [lia|].
        apply enumerateSections_at in Hk. apply lookup_lt_Some in Hj.
        fold infos in Hj. lia.
  - exfalso.
    destruct (lookup_lt_is_Some_2 infos (length infos - 1)) as [a Ha]; [lia|].
    assert (Hin : a ∈ infos) by (apply list_elem_of_lookup; eauto).
    apply list_elem_of_In in Hin.
    pose proof (find_none P infos Efind a Hin) as HP.
    apply enumerateSections_at in Ha. destruct Ha as (Hs & _).
    unfold P in HP. apply orb_false_iff in HP. destruct HP as [_ HP].
    apply Z.eqb_neq in HP. lia.
Qed.

End Geometry.

Section HoverCell.

Variable st : Style.t.
Variable rtl : bool.

(** X5: when [updateSelected] finds an item under the pointer, the
    position that [IndexToPosition] decodes from its linear index is a
    cell of the section under the pointer, and the rectangle that
    [emojiRect] gives for that position contains the pointer, in the
    coordinates that [updateSelected] tests (the [x] mirrored when
    [rtl()]). *)
Theorem hover_cell (w : EmojiListWidget.t) :
  1 <= EmojiListWidget._columnCount w ->
  0 < sizeWidth (EmojiListWidget._singleSize w) ->
  0 < sizeHeight (EmojiListWidget._singleSize w) ->
  Forall (fun c => 0 <= c) (EmojiListWidget._counts w) ->
  0 <= EmojiListWidget.itemAt st rtl w ->
  let p := EmojiListWidget.mapFromGlobal w (EmojiListWidget._lastMousePos w) in
  let sx := if rtl then EmojiListWidget.width w - px p else px p in
  let cell :=
    Layout.IndexToPosition (EmojiListWidget.sectionCounts w)
      (EmojiListWidget.itemAt st rtl w) in
  let r := EmojiListWidget.emojiRect st w cell.1 cell.2 in
  cell.1 = EmojiListWidget.currentSection st (py p) w
  /\ 0 <= cell.2 < sectionCount (EmojiListWidget.sectionCounts w) cell.1
  /\ QRect.x r <= sx < QRect.x r + QRect.width r
  /\ QRect.y r <= py p < QRect.y r + QRect.height r.
Proof.
  intros HC Hw Hh Hc Hi. cbn zeta.
  unfold EmojiListWidget.itemAt in *. cbn zeta in *.
  unfold EmojiListWidget.currentSection.
  set (p := EmojiListWidget.mapFromGlobal w (EmojiListWidget._lastMousePos w))
    in *.
  set (info := EmojiListWidget.sectionInfoByOffset st w (py p)) in *.
  set (sx := (if rtl then EmojiListWidget.width w - px p else px p)) in *.
  set (C := EmojiListWidget._columnCount w) in *.
  set (sw := sizeWidth (EmojiListWidget._singleSize w)) in *.
  set (sh := sizeHeight (EmojiListWidget._singleSize w)) in *.
  destruct ((SectionInfo.rowsTop info <=? py p)
            && (py p <? SectionInfo.rowsBottom info)) eqn:Ey; [|lia].
  apply andb_true_iff in Ey. destruct Ey as [Ey1 Ey2].
  apply Z.leb_le in Ey1. apply Z.ltb_lt in Ey2.
  destruct ((0 <=? sx - EmojiListWidget._rowsLeft w)
            && (sx - EmojiListWidget._rowsLeft w <? C * sw)) eqn:Ex; [|lia].
  apply andb_true_iff in Ex. destruct Ex as [Ex1 Ex2].
  apply Z.leb_le in Ex1. apply Z.ltb_lt in Ex2.
  set (row := (py p - SectionInfo.rowsTop info) ÷ sh) in *.
  set (col := (sx - EmojiListWidget._rowsLeft w) ÷ sw) in *.
  destruct (Z.leb_spec (SectionInfo.count info) (cellOffset C row col))
    as [Hge|Hlt]; [lia|].
  assert (Hrow : 0 <= row /\ row * sh <= py p - SectionInfo.rowsTop info
                               < (row + 1) * sh).
  { unfold row. rewrite Z.quot_div_nonneg by lia.
    pose proof (Z.div_mod (py p - SectionInfo.rowsTop info) sh ltac:(lia)).
    pose proof (Z.mod_pos_bound (py p - SectionInfo.rowsTop info) sh
                  ltac:(lia)).
    split; [apply Z.div_pos; lia|]. nia. }
  assert (Hcol : 0 <= col < C
                 /\ col * sw <= sx - EmojiListWidget._rowsLeft w
                              < (col + 1) * sw).
  { unfold col. rewrite Z.quot_div_nonneg by lia.
    pose proof (Z.div_mod (sx - EmojiListWidget._rowsLeft w) sw ltac:(lia)).
    pose proof (Z.mod_pos_bound (sx - EmojiListWidget._rowsLeft w) sw
                  ltac:(lia)).
    split; [|nia]. split; [apply Z.div_pos; lia|].
    apply Z.div_lt_upper_bound; lia. }
  destruct Hrow as [Hrow0 Hrow]. destruct Hcol as [Hcol0 Hcol].
  assert (Hoff : 0 <= cellOffset C row col) by (unfold cellOffset; nia).
  (* the section found is one of the enumeration *)
  assert (Hin : info ∈ EmojiListWidget.enumerateSections st w).
  { unfold info, EmojiListWidget.sectionInfoByOffset in *. cbn zeta in *.
    destruct (find _ (EmojiListWidget.enumerateSections st w)) as [i|] eqn:E.
    - apply find_lookup in E. destruct E as (k & Hk & _).
      apply list_elem_of_lookup. exists k. exact Hk.
    - cbn in Ey1, Ey2. lia. }
  pose proof (sectionInfo_elem st w info Hin) as Hinfo.
  apply list_elem_of_lookup in Hin. destruct Hin as [k Hk].
  pose proof (lookup_lt_Some _ _ _ Hk) as Hklen.
  apply enumerateSections_at in Hk.
  destruct Hk as (Hs & Hcount & _).
  assert (Hlen : length (EmojiListWidget.sectionCounts w)
                 = length (EmojiListWidget.enumerateSections st w)).
  { unfold EmojiListWidget.sectionCounts, EmojiListWidget.enumerateSections.
    rewrite length_map, enumerateFrom_length. reflexivity. }
  destruct (encode_decode (EmojiListWidget.sectionCounts w) k
              (cellOffset C row col) (sectionCounts_nonneg w Hc)
              ltac:(lia) ltac:(lia)) as [Edec Erange].
  assert (Eidx :
    cellOffset C row col
    + Layout.PositionToIndex (EmojiListWidget.sectionCounts w)
        (SectionInfo.section info) 0
    = Layout.runningTotal (EmojiListWidget.sectionCounts w) k
      + cellOffset C row col).
  { unfold Layout.PositionToIndex. rewrite Hs, Nat2Z.id. lia. }
  rewrite Eidx. unfold Layout.IndexToPosition.
  destruct (Z.ltb_spec
              (Layout.runningTotal (EmojiListWidget.sectionCounts w) k
               + cellOffset C row col) 0) as [Hneg|_]; [lia|].
  rewrite Edec. cbn [fst snd].
  split; [symmetry; exact Hs|].
  split; [unfold sectionCount; rewrite Nat2Z.id; lia|].
  unfold EmojiListWidget.emojiRect. cbn zeta. rewrite <- Hs, Hinfo.
  cbn [QRect.x QRect.y QRect.width QRect.height].
  destruct (cellRow_quot C (cellOffset C row col) HC Hoff) as [Er Ec].
  destruct (quot_cell C row col HC Hrow0 Hcol0) as [Q1 Q2].
  fold C sw sh. rewrite Er, Ec, Q1, Q2. lia.
Qed.

End HoverCell.

(** ** The overlay on its own *)

Section Overlay.

Variable st : Style.t.
Variable rtl : bool.

Lemma hideAnimated_flags (p : EmojiColorPicker.t) :
  EmojiColorPicker._hiding (EmojiColorPicker.hideAnimated p) = true
  /\ EmojiColorPicker.animating (EmojiColorPicker.hideAnimated p) = true
  /\ EmojiColorPicker.hidden (EmojiColorPicker.hideAnimated p)
     = EmojiColorPicker.hidden p
  /\ EmojiColorPicker._ignoreShow (EmojiColorPicker.hideAnimated p)
     = EmojiColorPicker._ignoreShow p
  /\ EmojiColorPicker._variants (EmojiColorPicker.hideAnimated p)
     = EmojiColorPicker._variants p.
Proof.
  unfold EmojiColorPicker.hideAnimated.
  destruct (EmojiColorPicker.cacheNull p).
  - rewrite picker_clearSelection. repeat split; reflexivity.
  - repeat split; reflexivity.
Qed.

Lemma showAnimated_ignored (p : EmojiColorPicker.t) :
  EmojiColorPicker._ignoreShow p = true -> EmojiColorPicker.showAnimated p = p.
Proof. intros H. unfold EmojiColorPicker.showAnimated. now rewrite H. Qed.

Lemma variantAt_range (p : EmojiColorPicker.t) :
  0 < sizeWidth (EmojiColorPicker._singleSize p) ->
  EmojiColorPicker._variants p <> [] ->
  EmojiColorPicker.variantAt st rtl p = -1
  \/ 0 <= EmojiColorPicker.variantAt st rtl p
     < Z.of_nat (length (EmojiColorPicker._variants p)).
Proof.
  intros Hw Hne. unfold EmojiColorPicker.variantAt. cbn zeta.
  set (sw := sizeWidth (EmojiColorPicker._singleSize p)) in *.
  set (n := Z.of_nat (length (EmojiColorPicker._variants p))).
  assert (Hn : 1 <= n).
  { unfold n. destruct (EmojiColorPicker._variants p); [contradiction|].
    cbn [length]. lia. }
  destruct (_ && _); [|left; reflexivity].
  destruct (_ && _); [right; lia|].
  match goal with |- context [(0 <=? ?a) && (?a <? ?b)] =>
    set (x' := a); destruct (Z.leb_spec 0 x'); cbn [andb];
    [destruct (Z.ltb_spec x' b)|]
  end; try (left; reflexivity).
  right. rewrite Z.quot_div_nonneg by lia.
  assert (x' / sw < n - 1) by (apply Z.div_lt_upper_bound; lia).
  pose proof (Z.div_pos x' sw ltac:(lia) ltac:(lia)). lia.
Qed.

(** X6: while the overlay has variants, the index that its
    [updateSelected] computes is [-1] or a position of [_variants].  A
    release on the overlay fires [_chosen] exactly when there is a variant
    under it and either no press was recorded or the press was on that
    variant; the press recorded by the overlay is cleared in any case. *)
Theorem release_fires_variant (c : QPoint) (p : EmojiColorPicker.t) :
  0 < sizeWidth (EmojiColorPicker._singleSize p) ->
  EmojiColorPicker._variants p <> [] ->
  let v :=
    EmojiColorPicker.variantAt st rtl
      (p <| EmojiColorPicker._lastMousePos := c |>) in
  let pressed := EmojiColorPicker._pressedSel p in
  (v = -1 \/ 0 <= v < Z.of_nat (length (EmojiColorPicker._variants p)))
  /\ (is_Some (EmojiColorPicker.releaseSelect st rtl c p).2
      <-> 0 <= v /\ (pressed < 0 \/ v = pressed))
  /\ EmojiColorPicker._pressedSel (EmojiColorPicker.releaseSelect st rtl c p).1
     = -1
  /\ EmojiColorPicker._selected (EmojiColorPicker.releaseSelect st rtl c p).1
     = v.
Proof.
  intros Hw Hne. cbn zeta.
  pose proof (variantAt_range (p <| EmojiColorPicker._lastMousePos := c |>)
                Hw Hne) as Hrange.
  change (EmojiColorPicker._variants
            (p <| EmojiColorPicker._lastMousePos := c |>))
    with (EmojiColorPicker._variants p) in Hrange.
  rewrite releaseSelect_spec. cbn zeta. cbn [fst snd].
  set (v := EmojiColorPicker.variantAt st rtl
              (p <| EmojiColorPicker._lastMousePos := c |>)) in *.
  set (pressed := EmojiColorPicker._pressedSel p).
  split; [exact Hrange|]. split; [|split; reflexivity].
  destruct (Z.leb_spec 0 v) as [H0|H0]; cbn [andb].
  - destruct (Z.ltb_spec pressed 0) as [Hp|Hp]; cbn [orb].
    + split; [intros _; lia|]. intros _.
      apply lookup_lt_is_Some_2. lia.
    + destruct (Z.eqb_spec v pressed) as [He|He].
      * split; [intros _; lia|]. intros _.
        apply lookup_lt_is_Some_2. lia.
      * split; [intros [? ?]; discriminate|lia].
  - split; [intros [? ?]; discriminate|lia].
Qed.

(** X7: after [updateSize] a position over a variant lies inside the
    bounds of the overlay, so that [mouseReleaseEvent] forwards a release
    on a variant to the overlay.  This needs margins and paddings that are
    not negative, something to the left of the first cell, and a right
    margin that makes up for the paddings between the variants when there
    are fewer than five of them. *)
Theorem variant_cells_inside (p : EmojiColorPicker.t) (g : QPoint) :
  0 <= Style.emojiPanMarginsLeft st ->
  0 <= Style.emojiPanMarginsTop st ->
  0 <= Style.emojiPanMarginsBottom st ->
  0 <= Style.emojiColorsPadding st ->
  0 <= Style.emojiColorsSep st ->
  0 < Style.emojiPanMarginsLeft st + Style.emojiColorsPadding st ->
  0 < sizeWidth (EmojiColorPicker._singleSize p) ->
  EmojiColorPicker._variants p <> [] ->
  3 * Style.emojiColorsPadding st
  <= (Z.of_nat (length (EmojiColorPicker._variants p)) - 2)
     * Style.emojiColorsPadding st
     + Style.emojiPanMarginsRight st ->
  let q := EmojiColorPicker.updateSize st rtl p in
  0 <= EmojiColorPicker.variantAt st rtl
         (q <| EmojiColorPicker._lastMousePos := g |>) ->
  EmojiColorPicker.rectContains q (EmojiColorPicker.mapFromGlobal q g) = true.
Proof.
  intros Hml Hmt Hmb Hpad Hsep Hpos Hw Hne Hfit. cbn zeta.
  unfold EmojiColorPicker.updateSize, EmojiColorPicker.updateSelected.
  cbn zeta. rewrite picker_setSelected.
  match goal with
  | |- context [set EmojiColorPicker._selected ?v _] => generalize v
  end.
  intros sel0.
  unfold EmojiColorPicker.variantAt, EmojiColorPicker.rectContains,
    EmojiColorPicker.mapFromGlobal.
  cbn [set EmojiColorPicker.set_lastMousePos EmojiColorPicker.set_selected
       EmojiColorPicker.set_width EmojiColorPicker.set_height
       EmojiColorPicker._lastMousePos EmojiColorPicker.origin
       EmojiColorPicker.width EmojiColorPicker.height
       EmojiColorPicker._singleSize EmojiColorPicker._variants].
  cbn zeta.
  set (sw := sizeWidth (EmojiColorPicker._singleSize p)) in *.
  set (sh := sizeHeight (EmojiColorPicker._singleSize p)) in *.
  set (n := Z.of_nat (length (EmojiColorPicker._variants p))) in *.
  assert (Hn : 1 <= n).
  { unfold n. destruct (EmojiColorPicker._variants p); [contradiction|].
    cbn [length]. lia. }
  set (gx := px g - px (EmojiColorPicker.origin p)).
  set (gy := py g - py (EmojiColorPicker.origin p)).
  change (px (gx, gy)) with gx. change (py (gx, gy)) with gy.
  set (W := Style.emojiPanMarginsLeft st + sw * n
            + (n - 2) * Style.emojiColorsPadding st
            + Style.emojiColorsSep st + Style.emojiPanMarginsRight st).
  set (sx := if rtl then W - gx else gx).
  assert (Hsx : 0 < sx /\ sx < W -> 0 <= gx < W).
  { unfold sx. destruct rtl; lia. }
  intros Hv.
  assert (Hy : 0 <= gy - Style.emojiPanMarginsTop st
                    - Style.emojiColorsPadding st < sh
               /\ 0 < sx /\ sx < W).
  { revert Hv.
    destruct (Z.leb_spec 0 (gy - Style.emojiPanMarginsTop st
                            - Style.emojiColorsPadding st)); cbn [andb]; cbv iota;
      [|lia].
    destruct (Z.ltb_spec (gy - Style.emojiPanMarginsTop st
                          - Style.emojiColorsPadding st) sh); cbv iota; [|lia].
    destruct (Z.leb_spec 0 (sx - Style.emojiPanMarginsLeft st
                            - Style.emojiColorsPadding st)); cbn [andb]; cbv iota.
    - destruct (Z.ltb_spec (sx - Style.emojiPanMarginsLeft st
                            - Style.emojiColorsPadding st) sw); cbv iota.
      + intros _. unfold W in *. nia.
      + match goal with |- context [(0 <=? ?a) && (?a <? ?b)] =>
          destruct (Z.leb_spec 0 a); cbn [andb];
          [destruct (Z.ltb_spec a b)|]
        end; cbv iota; try lia; try (intros _; unfold W; nia).
    - match goal with |- context [(0 <=? ?a) && (?a <? ?b)] =>
        destruct (Z.leb_spec 0 a); cbn [andb];
        [destruct (Z.ltb_spec a b)|]
      end; cbv iota; try lia; try (intros _; unfold W; nia). }
  destruct Hy as (Hy & Hx). apply Hsx in Hx.
  repeat (apply andb_true_iff; split);
    first [apply Z.leb_le | apply Z.ltb_lt]; lia.
Qed.

End Overlay.

(** ** Presses, releases and the life of the overlay *)

Section Gestures.

Variable st : Style.t.
Variable rtl : bool.
Variable pickerLeft : Z -> Z -> Z -> Z.

Lemma updateSelected_shape (w : EmojiListWidget.t) :
  exists sel pk,
    EmojiListWidget.updateSelected st rtl w
    = w <| EmojiListWidget._selected := sel |>
        <| EmojiListWidget._picker := pk |>
    /\ (EmojiColorPicker.hidden (EmojiListWidget._picker w) = true ->
        pk = EmojiListWidget._picker w)
    /\ (EmojiListWidget._pressedSel w < 0 ->
        EmojiListWidget._pickerSel w < 0 ->
        sel = EmojiListWidget.itemAt st rtl w).
Proof.
  unfold EmojiListWidget.updateSelected.
  destruct (Z.leb_spec 0 (EmojiListWidget._pressedSel w)) as [Hp|Hp];
    cbn [orb].
  - exists (EmojiListWidget._selected w), (EmojiListWidget._picker w).
    split; [destruct w; reflexivity|]. split; [reflexivity|lia].
  - destruct (Z.leb_spec 0 (EmojiListWidget._pickerSel w)) as [Hk|Hk].
    + exists (EmojiListWidget._selected w), (EmojiListWidget._picker w).
      split; [destruct w; reflexivity|]. split; [reflexivity|lia].
    + destruct (setSelected_frame (EmojiListWidget.itemAt st rtl w) w)
        as (pk & E & Hpk).
      exists (EmojiListWidget.itemAt st rtl w), pk. auto.
Qed.

(** What [setSelected] can do to the overlay. *)
Lemma setSelected_picker (n : Z) (w : EmojiListWidget.t) :
  let pk := EmojiListWidget._picker (EmojiListWidget.setSelected n w) in
  pk = EmojiListWidget._picker w
  \/ pk = EmojiColorPicker.hideAnimated (EmojiListWidget._picker w)
  \/ (0 <= n /\ n = EmojiListWidget._pickerSel w
      /\ pk = EmojiColorPicker.showAnimated (EmojiListWidget._picker w)).
Proof.
  cbn zeta. unfold EmojiListWidget.setSelected.
  destruct (Z.eqb_spec (EmojiListWidget._selected w) n) as [<-|Hne];
    [left; reflexivity|].
  cbn zeta.
  change (EmojiListWidget._selected
            (w <| EmojiListWidget._selected := n |>)) with n.
  change (EmojiListWidget._picker
            (w <| EmojiListWidget._selected := n |>))
    with (EmojiListWidget._picker w).
  change (EmojiListWidget._pickerSel
            (w <| EmojiListWidget._selected := n |>))
    with (EmojiListWidget._pickerSel w).
  destruct (Z.leb_spec 0 n) as [H0|H0]; cbn [andb]; [|left; reflexivity].
  destruct (EmojiColorPicker.hidden (EmojiListWidget._picker w));
    cbn [negb]; [left; reflexivity|].
  destruct (Z.eqb_spec n (EmojiListWidget._pickerSel w)) as [He|He];
    cbn [negb].
  - right. right. repeat split; assumption || reflexivity.
  - right. left. reflexivity.
Qed.

Lemma commitRelease_frame (pressed : Z) (w : EmojiListWidget.t) :
  let w' := EmojiListWidget.commitRelease pressed w in
  EmojiListWidget._pressedSel w' = EmojiListWidget._pressedSel w
  /\ EmojiListWidget._showPickerTimer w' = EmojiListWidget._showPickerTimer w
  /\ EmojiListWidget._picker w' = EmojiListWidget._picker w
  /\ EmojiListWidget._pickerSel w' = EmojiListWidget._pickerSel w
  /\ EmojiListWidget._selected w' = EmojiListWidget._selected w
  /\ EmojiListWidget.scrollDisabled w' = EmojiListWidget.scrollDisabled w.
Proof.
  cbn zeta.
  destruct (commitRelease_cases pressed w) as [E|[(em & E & _)|(d & E & _)]];
    rewrite E; repeat split; reflexivity.
Qed.

Lemma colorChosen_frame (emoji : EmojiPtr) (w : EmojiListWidget.t) :
  let w' := EmojiListWidget.colorChosen emoji w in
  EmojiListWidget._showPickerTimer w' = EmojiListWidget._showPickerTimer w
  /\ EmojiListWidget._pickerSel w' = EmojiListWidget._pickerSel w
  /\ EmojiListWidget._selected w' = EmojiListWidget._selected w
  /\ EmojiListWidget._picker w'
     = EmojiColorPicker.hideAnimated (EmojiListWidget._picker w).
Proof.
  cbn zeta. unfold EmojiListWidget.colorChosen. cbn zeta.
  destruct (One.hasVariants emoji);
    (destruct (0 <=? _);
     [destruct (Layout.IndexToPosition _ _) as [section sel];
      destruct ((0 <=? section) && _)|]; repeat split; reflexivity).
Qed.

Lemma releaseHide_flags (p : EmojiColorPicker.t) :
  EmojiColorPicker._ignoreShow (EmojiColorPicker.releaseHide p) = true
  /\ EmojiColorPicker._hiding (EmojiColorPicker.releaseHide p) = true
  /\ EmojiColorPicker.hidden (EmojiColorPicker.releaseHide p)
     = EmojiColorPicker.hidden p.
Proof.
  unfold EmojiColorPicker.releaseHide.
  destruct (hideAnimated_flags (p <| EmojiColorPicker._ignoreShow := true |>))
    as (H1 & _ & H3 & H4 & _).
  rewrite H1, H3, H4. repeat split; reflexivity.
Qed.

(** X8: every release ends the press: [_pressedSel] is [-1] after it.
    A release that the overlay does not take leaves no delay timer
    running.  One that the overlay takes leaves the timer as it was, and
    the overlay hiding with further requests to show it ignored. *)
Theorem release_ends_press (w : EmojiListWidget.t) (p c : QPoint) :
  let w' := EmojiListWidget.mouseReleaseEvent st rtl p c w in
  EmojiListWidget._pressedSel w' = -1
  /\ (EmojiListWidget.pickerTakes p w = false ->
      EmojiListWidget._showPickerTimer w' = None)
  /\ (EmojiListWidget.pickerTakes p w = true ->
      EmojiListWidget._showPickerTimer w' = EmojiListWidget._showPickerTimer w
      /\ EmojiColorPicker._ignoreShow (EmojiListWidget._picker w') = true
      /\ EmojiColorPicker._hiding (EmojiListWidget._picker w') = true).
Proof.
  cbn zeta. destruct (EmojiListWidget.pickerTakes p w) eqn:Ht.
  - destruct (release_in_overlay st rtl w p c Ht) as (Hfwd & Hpressed & _).
    cbn zeta in Hfwd, Hpressed.
    split; [exact Hpressed|]. split; [discriminate|]. intros _.
    rewrite Hfwd. unfold EmojiListWidget.pickerHandleMouseRelease.
    destruct (EmojiColorPicker.releaseSelect st rtl c _) as [q fired].
    match goal with
    | |- context [EmojiColorPicker.releaseHide ?x] =>
        destruct (releaseHide_flags x) as (F1 & F2 & _)
    end.
    split; [|split; [exact F1|exact F2]].
    destruct fired as [e|]; [|reflexivity].
    match goal with
    | |- context [EmojiListWidget.colorChosen e ?x] =>
        destruct (colorChosen_frame e x) as (C1 & _); cbn zeta in C1
    end.
    etransitivity; [exact C1|reflexivity].
  - split.
    + destruct (release_state st rtl w p c Ht) as (pk & ks & sel & t & E & _).
      rewrite E.
      destruct (commitRelease_frame (EmojiListWidget._pressedSel w)
                  (beforeCommit w p pk ks sel t)) as (C1 & _).
      cbn zeta in C1. rewrite C1. reflexivity.
    + split; [|discriminate]. intros _.
      unfold EmojiListWidget.mouseReleaseEvent. cbn zeta.
      change (EmojiListWidget.pickerTakes p
                (w <| EmojiListWidget._pressedSel := -1 |>
                   <| EmojiListWidget._lastMousePos := p |>))
        with (EmojiListWidget.pickerTakes p w).
      rewrite Ht.
      match goal with
      | |- context [EmojiListWidget.updateSelected st rtl ?x] =>
          set (w2 := x)
      end.
      set (w3 := EmojiListWidget.updateSelected st rtl w2).
      match goal with
      | |- context [EmojiListWidget.commitRelease ?a ?x] =>
          destruct (commitRelease_frame a x) as (_ & C2 & _);
          cbn zeta in C2; rewrite C2
      end.
      destruct (EmojiListWidget._showPickerTimer w3) eqn:Et;
        [reflexivity|exact Et].
Qed.

Lemma updateSelected_suspended (w : EmojiListWidget.t) :
  0 <= EmojiListWidget._pickerSel w \/ 0 <= EmojiListWidget._pressedSel w ->
  EmojiListWidget.updateSelected st rtl w = w.
Proof.
  intros H. unfold EmojiListWidget.updateSelected.
  destruct (Z.leb_spec 0 (EmojiListWidget._pressedSel w)); [reflexivity|].
  destruct (Z.leb_spec 0 (EmojiListWidget._pickerSel w)); [reflexivity|lia].
Qed.

(** Hover updates keep a dismissed overlay dismissed. *)
Lemma setSelected_dismissed (n : Z) (w : EmojiListWidget.t) :
  EmojiColorPicker._hiding (EmojiListWidget._picker w) = true ->
  EmojiColorPicker._ignoreShow (EmojiListWidget._picker w) = true
  \/ EmojiListWidget._pickerSel w < 0 ->
  let pk := EmojiListWidget._picker (EmojiListWidget.setSelected n w) in
  EmojiColorPicker._hiding pk = true
  /\ EmojiColorPicker._ignoreShow pk
     = EmojiColorPicker._ignoreShow (EmojiListWidget._picker w)
  /\ EmojiColorPicker.hidden pk
     = EmojiColorPicker.hidden (EmojiListWidget._picker w).
Proof.
  intros Hh Hi. cbn zeta.
  destruct (hideAnimated_flags (EmojiListWidget._picker w))
    as (F1 & _ & F3 & F4 & _).
  destruct (setSelected_picker n w) as [E|[E|(H0 & Hn & E)]];
    cbn zeta in E; rewrite E.
  - auto.
  - auto.
  - destruct Hi as [Hi|Hi]; [|lia].
    rewrite showAnimated_ignored by exact Hi. auto.
Qed.

Lemma updateSelected_dismissed (w : EmojiListWidget.t) :
  EmojiColorPicker._hiding (EmojiListWidget._picker w) = true ->
  EmojiColorPicker._ignoreShow (EmojiListWidget._picker w) = true
  \/ EmojiListWidget._pickerSel w < 0 ->
  let pk := EmojiListWidget._picker (EmojiListWidget.updateSelected st rtl w) in
  EmojiColorPicker._hiding pk = true
  /\ EmojiColorPicker._ignoreShow pk
     = EmojiColorPicker._ignoreShow (EmojiListWidget._picker w)
  /\ EmojiColorPicker.hidden pk
     = EmojiColorPicker.hidden (EmojiListWidget._picker w).
Proof.
  intros Hh Hi. cbn zeta. unfold EmojiListWidget.updateSelected.
  destruct (_ || _); [auto|]. apply setSelected_dismissed; assumption.
Qed.

(** X9: a press of any button while the overlay is visible on a target
    only dismisses the overlay: the target is cleared and the overlay
    starts to hide; no press is recorded, no timer is armed and nothing is
    committed. *)
Theorem press_dismisses_overlay (button : MouseButton) (p : QPoint)
  (w : EmojiListWidget.t) :
  EmojiColorPicker.hidden (EmojiListWidget._picker w) = false ->
  0 <= EmojiListWidget._pickerSel w ->
  let w' := EmojiListWidget.mousePressEvent st rtl pickerLeft button p w in
  EmojiListWidget._pickerSel w' = -1
  /\ EmojiColorPicker._hiding (EmojiListWidget._picker w') = true
  /\ EmojiListWidget._pressedSel w' = EmojiListWidget._pressedSel w
  /\ EmojiListWidget._showPickerTimer w' = EmojiListWidget._showPickerTimer w
  /\ EmojiListWidget.chosen w' = EmojiListWidget.chosen w
  /\ EmojiListWidget.customChosen w' = EmojiListWidget.customChosen w
  /\ EmojiListWidget._lastMousePos w' = p.
Proof.
  intros Hh Hk. cbn zeta. unfold EmojiListWidget.mousePressEvent.
  rewrite (updateSelected_suspended
             (w <| EmojiListWidget._lastMousePos := p |>))
    by (left; exact Hk).
  unfold EmojiListWidget.checkPickerHide.
  change (EmojiListWidget._picker
            (w <| EmojiListWidget._lastMousePos := p |>))
    with (EmojiListWidget._picker w).
  change (EmojiListWidget._pickerSel
            (w <| EmojiListWidget._lastMousePos := p |>))
    with (EmojiListWidget._pickerSel w).
  rewrite Hh. destruct (Z.leb_spec 0 (EmojiListWidget._pickerSel w)); [|lia].
  cbn [negb andb orb]. cbn beta iota zeta.
  set (w2 := w <| EmojiListWidget._lastMousePos := p |>
               <| EmojiListWidget._picker :=
                    EmojiColorPicker.hideAnimated (EmojiListWidget._picker w) |>
               <| EmojiListWidget._pickerSel := -1 |>).
  destruct (hideAnimated_flags (EmojiListWidget._picker w))
    as (F1 & _ & F3 & F4 & _).
  destruct (updateSelected_dismissed w2) as (D1 & _).
  { exact F1. }
  { right. change (EmojiListWidget._pickerSel w2) with (-1). lia. }
  cbn zeta in D1.
  destruct (updateSelected_shape w2) as (sel & pk & E & _).
  rewrite E in D1 |- *.
  split; [reflexivity|]. split; [exact D1|]. repeat split; reflexivity.
Qed.

(** X10: a click on an item with variants whose family has a stored
    preference.  The press arms the delay timer of 500 ms; a release
    before the timer fires, wherever the pointer is by then, cancels the
    timer, leaves the overlay hidden and commits the item. *)
Theorem quick_click_commits (w : EmojiListWidget.t) (p1 p2 c2 : QPoint)
  (em : EmojiPtr) :
  EmojiListWidget._pressedSel w < 0 ->
  EmojiListWidget._pickerSel w < 0 ->
  EmojiColorPicker.hidden (EmojiListWidget._picker w) = true ->
  0 <= hit st rtl w p1 ->
  itemOf w (hit st rtl w p1) = Some em ->
  One.hasVariants em = true ->
  is_Some (EmojiListWidget.emojiVariants w !! One.nonColoredId em) ->
  let w1 := EmojiListWidget.mousePressEvent st rtl pickerLeft LeftButton p1 w in
  let w2 := EmojiListWidget.mouseReleaseEvent st rtl p2 c2 w1 in
  EmojiListWidget._showPickerTimer w1 = Some 500
  /\ EmojiListWidget.chosen w2 = EmojiListWidget.chosen w ++ [em]
  /\ EmojiListWidget.recentEmoji w2 = EmojiListWidget.recentEmoji w ++ [em]
  /\ EmojiListWidget._showPickerTimer w2 = None
  /\ EmojiListWidget._pickerSel w2 = -1
  /\ EmojiListWidget._pressedSel w2 = -1
  /\ EmojiColorPicker.hidden (EmojiListWidget._picker w2) = true.
Proof.
  intros Hp Hk Hh Hi Hem Hvar [v Hpref]. cbn zeta.
  destruct (press_resolved st rtl pickerLeft w p1 Hp Hk Hi) as (pk & Hpk & E).
  rewrite Hem, Hvar, Hpref in E. cbn zeta in E. rewrite E. clear E.
  specialize (Hpk Hh). subst pk.
  set (i := hit st rtl w p1) in *.
  set (w1 := w <| EmojiListWidget._lastMousePos := p1 |>
               <| EmojiListWidget._selected := i |>
               <| EmojiListWidget._picker := EmojiListWidget._picker w |>
               <| EmojiListWidget._pressedSel := i |>
               <| EmojiListWidget._pickerSel := i |>
               <| EmojiListWidget._showPickerTimer := Some 500 |>).
  split; [reflexivity|].
  unfold EmojiListWidget.mouseReleaseEvent. cbn zeta.
  set (w1' := w1 <| EmojiListWidget._pressedSel := -1 |>
                 <| EmojiListWidget._lastMousePos := p2 |>).
  unfold EmojiListWidget.pickerTakes.
  change (EmojiListWidget._picker w1') with (EmojiListWidget._picker w).
  rewrite Hh. cbn [negb andb].
  rewrite (updateSelected_suspended w1')
    by (left; change (EmojiListWidget._pickerSel w1') with i; exact Hi).
  change (EmojiListWidget._showPickerTimer w1') with (Some 500).
  cbn beta iota.
  change (EmojiListWidget._pressedSel w1) with i.
  set (w4 := w1' <| EmojiListWidget._showPickerTimer := None |>
                 <| EmojiListWidget._pickerSel := -1 |>
                 <| EmojiListWidget._picker :=
                      (EmojiListWidget._picker w1')
                        <| EmojiColorPicker.hidden := true |> |>).
  unfold EmojiListWidget.commitRelease.
  change (EmojiListWidget._selected w4) with i.
  destruct (Z.ltb_spec i 0); [lia|]. rewrite Z.eqb_refl. cbn [orb negb].
  change (EmojiListWidget.sectionCounts w4)
    with (EmojiListWidget.sectionCounts w).
  unfold itemOf in Hem.
  destruct (Layout.IndexToPosition (EmojiListWidget.sectionCounts w) i)
    as [section sel].
  change (EmojiListWidget.emojiAt w4 section sel)
    with (EmojiListWidget.emojiAt w section sel).
  rewrite Hem, Hvar.
  change (EmojiColorPicker.hidden (EmojiListWidget._picker w4)) with true.
  cbn [negb andb].
  repeat split; reflexivity.
Qed.

Lemma showPicker_scroll (w : EmojiListWidget.t) (em : EmojiPtr) :
  0 <= EmojiListWidget._pickerSel w ->
  itemOf w (EmojiListWidget._pickerSel w) = Some em ->
  One.hasVariants em = true ->
  EmojiListWidget.scrollDisabled (EmojiListWidget.showPicker st rtl pickerLeft w)
  = true.
Proof.
  intros Hk Hem Hvar. unfold EmojiListWidget.showPicker.
  destruct (Z.ltb_spec (EmojiListWidget._pickerSel w) 0); [lia|].
  unfold itemOf in Hem.
  destruct (Layout.IndexToPosition _ _) as [section sel].
  rewrite Hem, Hvar. reflexivity.
Qed.

(** X11: when the delay timer armed by such a press fires, the overlay
    opens with the variants of the pressed item and scrolling is disabled;
    the press stays recorded and nothing is committed. *)
Theorem long_press_opens (w : EmojiListWidget.t) (p : QPoint) (em : EmojiPtr) :
  EmojiListWidget._pressedSel w < 0 ->
  EmojiListWidget._pickerSel w < 0 ->
  0 <= hit st rtl w p ->
  itemOf w (hit st rtl w p) = Some em ->
  One.hasVariants em = true ->
  is_Some (EmojiListWidget.emojiVariants w !! One.nonColoredId em) ->
  let w1 := EmojiListWidget.mousePressEvent st rtl pickerLeft LeftButton p w in
  let w2 := EmojiListWidget.showPickerTimerFired st rtl pickerLeft w1 in
  EmojiColorPicker.hidden (EmojiListWidget._picker w2) = false
  /\ EmojiColorPicker._variants (EmojiListWidget._picker w2)
     = EmojiColorPicker.variantsOf em
  /\ EmojiListWidget._showPickerTimer w2 = None
  /\ EmojiListWidget._pickerSel w2 = hit st rtl w p
  /\ EmojiListWidget._pressedSel w2 = hit st rtl w p
  /\ EmojiListWidget.scrollDisabled w2 = true
  /\ EmojiListWidget.chosen w2 = EmojiListWidget.chosen w.
Proof.
  intros Hp Hk Hi Hem Hvar [v Hpref]. cbn zeta.
  destruct (press_resolved st rtl pickerLeft w p Hp Hk Hi) as (pk & _ & E).
  rewrite Hem, Hvar, Hpref in E. cbn zeta in E. rewrite E. clear E.
  set (i := hit st rtl w p) in *.
  unfold EmojiListWidget.showPickerTimerFired.
  set (w3 := w <| EmojiListWidget._lastMousePos := p |>
               <| EmojiListWidget._selected := i |>
               <| EmojiListWidget._picker := pk |>
               <| EmojiListWidget._pressedSel := i |>
               <| EmojiListWidget._pickerSel := i |>
               <| EmojiListWidget._showPickerTimer := Some 500 |>
               <| EmojiListWidget._showPickerTimer := None |>).
  assert (Hk3 : 0 <= EmojiListWidget._pickerSel w3) by exact Hi.
  assert (Hem3 : itemOf w3 (EmojiListWidget._pickerSel w3) = Some em)
    by exact Hem.
  destruct (showPicker_shown st rtl pickerLeft w3 em Hk3 Hem3 Hvar)
    as (S1 & S2 & S3 & S4 & S5).
  pose proof (showPicker_scroll w3 em Hk3 Hem3 Hvar) as S6.
  split; [exact S1|]. split; [exact S2|]. split; [exact S3|].
  split; [exact S4|]. split; [exact S5|]. split; [exact S6|].
  unfold EmojiListWidget.showPicker.
  destruct (_ <? 0); [reflexivity|].
  destruct (Layout.IndexToPosition _ _) as [section sel].
  destruct (EmojiListWidget.emojiAt w3 section sel) as [e|]; [|reflexivity].
  destruct (One.hasVariants e); reflexivity.
Qed.

(** X12: [animationCallback] changes nothing while the opacity
    animation runs.  When the animation of a hiding overlay has ended, the
    overlay is hidden and [_hidden] fires: the list forgets the overlay's
    target, enables scrolling again and, if no press is active, selects
    the item under the cursor. *)
Theorem overlay_hide_completes (c : QPoint) (w : EmojiListWidget.t) :
  let w' := EmojiListWidget.pickerAnimationCallback st rtl c w in
  (EmojiColorPicker.animating (EmojiListWidget._picker w) = true -> w' = w)
  /\ (EmojiColorPicker.animating (EmojiListWidget._picker w) = false ->
      EmojiColorPicker._hiding (EmojiListWidget._picker w) = true ->
      EmojiColorPicker.hidden (EmojiListWidget._picker w') = true
      /\ EmojiColorPicker.cacheNull (EmojiListWidget._picker w') = true
      /\ EmojiListWidget._pickerSel w' = -1
      /\ EmojiListWidget.scrollDisabled w' = false
      /\ EmojiListWidget._lastMousePos w' = c
      /\ EmojiListWidget.chosen w' = EmojiListWidget.chosen w
      /\ (EmojiListWidget._pressedSel w < 0 ->
          EmojiListWidget._selected w' = hit st rtl w c)).
Proof.
  cbn zeta. unfold EmojiListWidget.pickerAnimationCallback,
    EmojiColorPicker.animationCallback.
  split.
  - intros Ha. rewrite Ha. destruct w; reflexivity.
  - intros Ha Hh. rewrite Ha. cbn zeta.
    change (EmojiColorPicker._hiding
              ((EmojiListWidget._picker w)
                 <| EmojiColorPicker.cacheNull := true |>))
      with (EmojiColorPicker._hiding (EmojiListWidget._picker w)).
    rewrite Hh. unfold EmojiListWidget.pickerHidden.
    set (q := (EmojiListWidget._picker w)
                <| EmojiColorPicker.cacheNull := true |>
                <| EmojiColorPicker.hidden := true |>).
    set (w1 := w <| EmojiListWidget._picker := q |>
                 <| EmojiListWidget._pickerSel := -1 |>
                 <| EmojiListWidget.scrollDisabled := false |>
                 <| EmojiListWidget._lastMousePos := c |>).
    destruct (updateSelected_shape w1) as (sel & pk & E & Hpk & Hsel).
    rewrite E. rewrite (Hpk eq_refl).
    repeat split. intros Hp. rewrite Hsel; [reflexivity|exact Hp|].
    change (EmojiListWidget._pickerSel w1) with (-1). lia.
Qed.

(** X13: after [processHideFinished] nothing is selected or pressed and
    the overlay is hidden.  An overlay that was visible is hidden at once,
    its target forgotten and scrolling enabled; one that was hidden is
    left as it is, with its target.  The delay timer is not cancelled and
    nothing is committed. *)
Theorem hide_finished_resets (c : QPoint) (w : EmojiListWidget.t) :
  let w' := EmojiListWidget.processHideFinished st rtl c w in
  EmojiListWidget._selected w' = -1
  /\ EmojiListWidget._pressedSel w' = -1
  /\ EmojiColorPicker.hidden (EmojiListWidget._picker w') = true
  /\ EmojiListWidget._showPickerTimer w' = EmojiListWidget._showPickerTimer w
  /\ EmojiListWidget.chosen w' = EmojiListWidget.chosen w
  /\ (EmojiColorPicker.hidden (EmojiListWidget._picker w) = false ->
      EmojiListWidget._pickerSel w' = -1
      /\ EmojiListWidget.scrollDisabled w' = false
      /\ EmojiColorPicker.animating (EmojiListWidget._picker w') = false
      /\ EmojiColorPicker._selected (EmojiListWidget._picker w') = -1)
  /\ (EmojiColorPicker.hidden (EmojiListWidget._picker w) = true ->
      EmojiListWidget._pickerSel w' = EmojiListWidget._pickerSel w
      /\ EmojiListWidget.scrollDisabled w' = EmojiListWidget.scrollDisabled w
      /\ EmojiListWidget._picker w' = EmojiListWidget._picker w).
Proof.
  cbn zeta. unfold EmojiListWidget.processHideFinished,
    EmojiListWidget.clearSelection.
  destruct (EmojiColorPicker.hidden (EmojiListWidget._picker w)) eqn:Hh;
    cbn [negb].
  - match goal with
    | |- context [EmojiListWidget.setSelected (-1) ?x] =>
        destruct (setSelected_frame (-1) x) as (pk & E & Hpk)
    end.
    rewrite E. rewrite (Hpk Hh).
    repeat split; try reflexivity; try discriminate. exact Hh.
  - unfold EmojiListWidget.pickerHideFast, EmojiListWidget.pickerHidden,
      EmojiColorPicker.hideFast.
    rewrite picker_clearSelection.
    set (q := (EmojiListWidget._picker w)
                <| EmojiColorPicker._pressedSel := -1 |>
                <| EmojiColorPicker._selected := -1 |>
                <| EmojiColorPicker._lastMousePos :=
                     EmojiColorPicker.mapToGlobal (EmojiListWidget._picker w)
                       (-10, -10) |>
                <| EmojiColorPicker.animating := false |>
                <| EmojiColorPicker.cacheNull := true |>
                <| EmojiColorPicker.hidden := true |>).
    set (w1 := w <| EmojiListWidget._picker := q |>
                 <| EmojiListWidget._pickerSel := -1 |>
                 <| EmojiListWidget.scrollDisabled := false |>
                 <| EmojiListWidget._lastMousePos := c |>).
    destruct (updateSelected_shape w1) as (sel & pk & E & Hpk & _).
    rewrite E. rewrite (Hpk eq_refl). clear E Hpk.
    match goal with
    | |- context [EmojiListWidget.setSelected (-1) ?x] =>
        destruct (setSelected_frame (-1) x) as (pk' & E & Hpk')
    end.
    rewrite E. rewrite (Hpk' eq_refl).
    repeat split; try reflexivity; try discriminate.
Qed.

(** X14: [clearSelection], which the leave events call, clears the
    selected and the pressed item and parks the pointer at [(-10, -10)] of
    the widget; it leaves the overlay, its target and the delay timer
    alone, and a second call changes nothing.  [enterFromChildEvent] after
    it selects the item under the cursor, unless an overlay target
    suspends hover tracking: then nothing is selected. *)
Theorem leave_then_enter (c : QPoint) (w : EmojiListWidget.t) :
  let w1 := EmojiListWidget.clearSelection w in
  EmojiListWidget._selected w1 = -1
  /\ EmojiListWidget._pressedSel w1 = -1
  /\ EmojiListWidget._lastMousePos w1 = EmojiListWidget.mapToGlobal w (-10, -10)
  /\ EmojiListWidget._picker w1 = EmojiListWidget._picker w
  /\ EmojiListWidget._pickerSel w1 = EmojiListWidget._pickerSel w
  /\ EmojiListWidget._showPickerTimer w1 = EmojiListWidget._showPickerTimer w
  /\ EmojiListWidget.clearSelection w1 = w1
  /\ (EmojiListWidget._pickerSel w < 0 ->
      EmojiListWidget._selected (EmojiListWidget.enterFromChildEvent st rtl c w1)
      = hit st rtl w c)
  /\ (0 <= EmojiListWidget._pickerSel w ->
      EmojiListWidget._selected (EmojiListWidget.enterFromChildEvent st rtl c w1)
      = -1).
Proof.
  cbn zeta.
  assert (E : EmojiListWidget.clearSelection w
              = w <| EmojiListWidget._lastMousePos :=
                       EmojiListWidget.mapToGlobal w (-10, -10) |>
                  <| EmojiListWidget._pressedSel := -1 |>
                  <| EmojiListWidget._selected := -1 |>).
  { unfold EmojiListWidget.clearSelection, EmojiListWidget.setSelected.
    match goal with |- context [?a =? -1] => destruct (Z.eqb_spec a (-1)) end.
    - destruct w; cbn in *; subst; reflexivity.
    - cbn zeta.
      change (0 <=? EmojiListWidget._selected
                      (?x <| EmojiListWidget._selected := -1 |>))
        with false.
      cbn [andb]. reflexivity. }
  rewrite E.
  set (w1 := w <| EmojiListWidget._lastMousePos :=
                    EmojiListWidget.mapToGlobal w (-10, -10) |>
               <| EmojiListWidget._pressedSel := -1 |>
               <| EmojiListWidget._selected := -1 |>).
  do 6 (split; [reflexivity|]).
  split; [|split].
  - unfold EmojiListWidget.clearSelection, EmojiListWidget.setSelected.
    match goal with |- context [?a =? -1] => change (a =? -1) with true end.
    cbn iota. unfold w1. destruct w; reflexivity.
  - intros Hk. unfold EmojiListWidget.enterFromChildEvent.
    destruct (updateSelected_shape
                (w1 <| EmojiListWidget._lastMousePos := c |>))
      as (sel & pk & E1 & _ & Hsel).
    rewrite E1. rewrite Hsel; [reflexivity| |exact Hk].
    change (EmojiListWidget._pressedSel
              (w1 <| EmojiListWidget._lastMousePos := c |>)) with (-1). lia.
  - intros Hk. unfold EmojiListWidget.enterFromChildEvent.
    rewrite updateSelected_suspended; [reflexivity|]. left. exact Hk.
Qed.

(** X15: pointer moves never bring back an overlay that a release has
    dismissed: while [_ignoreShow] is set on a hiding overlay, a move
    leaves it set, the overlay hiding and its visibility as it was. *)
Theorem dismissed_overlay_stays (g c : QPoint) (w : EmojiListWidget.t) :
  EmojiColorPicker._ignoreShow (EmojiListWidget._picker w) = true ->
  EmojiColorPicker._hiding (EmojiListWidget._picker w) = true ->
  let w' := EmojiListWidget.mouseMoveEvent st rtl g c w in
  EmojiColorPicker._ignoreShow (EmojiListWidget._picker w') = true
  /\ EmojiColorPicker._hiding (EmojiListWidget._picker w') = true
  /\ EmojiColorPicker.hidden (EmojiListWidget._picker w')
     = EmojiColorPicker.hidden (EmojiListWidget._picker w).
Proof.
  intros Hi Hh. cbn zeta. unfold EmojiListWidget.mouseMoveEvent. cbn zeta.
  set (w1 := w <| EmojiListWidget._lastMousePos := g |>).
  change (EmojiListWidget._picker w1) with (EmojiListWidget._picker w).
  destruct (EmojiColorPicker.hidden (EmojiListWidget._picker w)) eqn:Hhid;
    cbn [negb].
  - destruct (updateSelected_dismissed w1 Hh (or_introl Hi)) as (D1 & D2 & D3).
    cbn zeta in D1, D2, D3. rewrite D1, D2, D3.
    change (EmojiListWidget._picker w1) with (EmojiListWidget._picker w).
    auto.
  - destruct (EmojiColorPicker.rectContains _ _).
    + unfold EmojiColorPicker.handleMouseMove, EmojiColorPicker.updateSelected.
      rewrite picker_setSelected. auto.
    + rewrite picker_clearSelection.
      match goal with
      | |- context [EmojiListWidget.updateSelected st rtl ?x] =>
          destruct (updateSelected_dismissed x Hh (or_introl Hi))
            as (D1 & D2 & D3)
      end.
      cbn zeta in D1, D2, D3. rewrite D1, D2, D3. auto.
Qed.

End Gestures.

(** ** The coalescer from request to repaint *)

Section CoalescerRuns.

Variable st : Style.t.

Lemma omap_none {A B : Type} (f : A -> option B) (l : list A) :
  (forall x, x ∈ l -> f x = None) -> omap f l = [].
Proof.
  induction l as [|a l IH]; intros H; [reflexivity|].
  change (omap f (a :: l))
    with (match f a with Some y => y :: omap f l | None => omap f l end).
  rewrite (H a) by apply list_elem_of_here.
  apply IH. intros x Hx. apply H. apply list_elem_of_further. exact Hx.
Qed.

Lemma filter_all {A : Type} (P : A -> Prop) `{forall x, Decision (P x)}
  (l : list A) :
  (forall x, x ∈ l -> P x) -> filter P l = l.
Proof.
  induction l as [|a l IH]; intros Hall; [reflexivity|].
  rewrite filter_cons_True by (apply Hall; apply list_elem_of_here).
  f_equal. apply IH. intros x Hx. apply Hall. apply list_elem_of_further.
  exact Hx.
Qed.

Lemma filter_none {A : Type} (P : A -> Prop) `{forall x, Decision (P x)}
  (l : list A) :
  (forall x, x ∈ l -> ~ P x) -> filter P l = [].
Proof.
  induction l as [|a l IH]; intros Hall; [reflexivity|].
  rewrite filter_cons_False by (apply Hall; apply list_elem_of_here).
  apply IH. intros x Hx. apply Hall. apply list_elem_of_further. exact Hx.
Qed.

Lemma repaintLater_frame (setId : N) (request : RepaintRequest.t)
  (w : EmojiListWidget.t) :
  exists m b,
    EmojiListWidget.repaintLater setId request w
    = w <| EmojiListWidget._repaints := m |>
        <| EmojiListWidget._repaintTimerScheduled := b |>.
Proof.
  unfold EmojiListWidget.repaintLater.
  destruct (decide (EmojiListWidget._instances w = ∅)).
  - exists (EmojiListWidget._repaints w),
      (EmojiListWidget._repaintTimerScheduled w).
    destruct w; reflexivity.
  - cbn zeta. unfold EmojiListWidget.scheduleRepaintTimer.
    match goal with
    | |- context [EmojiListWidget._repaintTimerScheduled ?x] =>
        destruct (EmojiListWidget._repaintTimerScheduled x) eqn:E
    end.
    + match goal with
      | |- context [set EmojiListWidget._repaints ?m _] => exists m, true
      end.
      destruct w; cbn in *; subst; reflexivity.
    + eexists _, true. reflexivity.
Qed.

(** X16: [invokeRepaints] before every pending deadline removes no
    bucket and invalidates nothing; it clears [_repaintNext] and posts the
    scheduling call. *)
Theorem fire_before_deadlines (now : Z) (w : EmojiListWidget.t) :
  (forall b, b ∈ EmojiListWidget._repaints w -> now < Repaint.when b.2) ->
  let w' := EmojiListWidget.invokeRepaints st now w in
  EmojiListWidget._repaints w' = EmojiListWidget._repaints w
  /\ EmojiListWidget.updated w' = EmojiListWidget.updated w
  /\ EmojiListWidget._repaintNext w' = 0
  /\ EmojiListWidget._repaintTimerScheduled w' = true.
Proof.
  intros Hall. cbn zeta. rewrite invokeRepaints_spec. cbn zeta.
  destruct (takeDue_spec now (EmojiListWidget._repaints w) ∅) as [T1 T2].
  set (taken := EmojiListWidget.takeDue now (EmojiListWidget._repaints w) ∅)
    in *.
  assert (Hnot : forall b, b ∈ EmojiListWidget._repaints w -> ¬ due now b).
  { intros b Hb Hdue. specialize (Hall b Hb). unfold due in Hdue.
    apply Is_true_true in Hdue. apply Z.leb_le in Hdue. lia. }
  split; [|split; [|split; reflexivity]].
  - change (taken.1 = EmojiListWidget._repaints w). rewrite T1.
    apply filter_all. exact Hnot.
  - match goal with
    | |- EmojiListWidget.updated (set _ _ (set _ (?u ++ ?o) _)) = _ =>
        change (u ++ o = u); assert (Ho : o = []);
        [apply omap_none|rewrite Ho; apply app_nil_r]
    end.
    intros info _. unfold invalidatedRect.
    destruct (EmojiListWidget.customAt _ _) as [set|]; [|reflexivity].
    rewrite bool_decide_eq_false_2; [reflexivity|].
    intros Hin. apply T2 in Hin. destruct Hin as [Hin|(b & Hb & Hdue & _)].
    + apply elem_of_empty in Hin. exact Hin.
    + exact (Hnot b Hb Hdue).
Qed.

Lemma bucket_filter_due (now D : Z) (m : list (Z * Repaint.t))
  (r : Repaint.t) :
  sortedBuckets m ->
  EmojiListWidget.bucket D m = Some r ->
  Repaint.when r <= now ->
  EmojiListWidget.bucket D (filter (fun b => ¬ due now b) m) = None.
Proof.
  intros Hs Hb Hdue.
  destruct (EmojiListWidget.bucket D (filter (fun b => ¬ due now b) m))
    as [r'|] eqn:E; [|reflexivity].
  exfalso. apply bucket_elem in E. apply list_elem_of_filter in E.
  destruct E as [Hnot Hin].
  apply (elem_bucket _ _ _ Hs) in Hin. rewrite Hb in Hin.
  injection Hin as <-. apply Hnot. unfold due. cbn [snd].
  apply Is_true_true. apply Z.leb_le. exact Hdue.
Qed.

(** X17: a repaint request for a set that the list shows, followed by
    [invokeRepaints] at or after its deadline and that of the bucket it
    joined, invalidates the rows of the section of the set and removes the
    bucket of the request's duration. *)
Theorem request_honoured (setId : N) (request : RepaintRequest.t) (now : Z)
  (w : EmojiListWidget.t) (j : nat) (cs : CustomSet.t) :
  EmojiListWidget._instances w <> ∅ ->
  sortedBuckets (EmojiListWidget._repaints w) ->
  EmojiListWidget._custom w !! j = Some cs ->
  CustomSet.id cs = setId ->
  0 <= now ->
  RepaintRequest.when request <= now ->
  (forall r,
     EmojiListWidget.bucket (RepaintRequest.duration request)
       (EmojiListWidget._repaints w) = Some r ->
     Repaint.when r <= now) ->
  let w1 := EmojiListWidget.repaintLater setId request w in
  let w2 := EmojiListWidget.invokeRepaints st now w1 in
  sectionRect w
    (EmojiListWidget.sectionInfo st w (kEmojiSectionCount + Z.of_nat j))
  ∈ EmojiListWidget.updated w2
  /\ EmojiListWidget.bucket (RepaintRequest.duration request)
       (EmojiListWidget._repaints w2) = None.
Proof.
  intros Hinst Hsorted Hset Hid Hnow Hwhen Hold. cbn zeta.
  destruct (repaintLater_spec setId request w Hinst Hsorted)
    as (_ & _ & _ & _ & Hsorted1 & _ & Hbucket & _).
  cbn zeta in Hsorted1, Hbucket.
  destruct (repaintLater_frame setId request w) as (m & b & E).
  rewrite E in Hsorted1, Hbucket |- *. clear E.
  set (w1 := w <| EmojiListWidget._repaints := m |>
               <| EmojiListWidget._repaintTimerScheduled := b |>) in *.
  change (EmojiListWidget._repaints w1) with m in Hsorted1, Hbucket.
  set (r := Repaint.mk _ _) in Hbucket.
  assert (Hr : Repaint.when r <= now).
  { unfold r. cbn [Repaint.when].
    destruct (EmojiListWidget.bucket (RepaintRequest.duration request)
                (EmojiListWidget._repaints w)) as [old|] eqn:Eold;
      cbn [default from_option id Repaint.when Repaint.empty].
    - specialize (Hold old eq_refl). lia.
    - cbn. lia. }
  rewrite invokeRepaints_spec. cbn zeta.
  change (EmojiListWidget._repaints w1) with m.
  destruct (takeDue_spec now m ∅) as [T1 T2].
  set (taken := EmojiListWidget.takeDue now m ∅) in *.
  split.
  - match goal with
    | |- ?x ∈ EmojiListWidget.updated (set _ _ (set _ ?v _)) =>
        change (x ∈ v)
    end.
    apply elem_of_app. right. apply list_elem_of_omap.
    destruct (enumerateSections_custom st w j cs Hset)
      as (info & Hin & Hsec & Hat).
    exists info. split; [exact Hin|].
    unfold invalidatedRect.
    change (EmojiListWidget.customAt
              (w1 <| EmojiListWidget._repaintNext := 0 |>
                  <| EmojiListWidget._repaints := taken.1 |>)
              (SectionInfo.section info))
      with (EmojiListWidget.customAt w (SectionInfo.section info)).
    rewrite Hat. rewrite bool_decide_eq_true_2.
    + rewrite <- Hsec, (sectionInfo_elem st w info Hin). reflexivity.
    + apply T2. right. exists (RepaintRequest.duration request, r).
      split; [apply bucket_elem; exact Hbucket|]. split.
      * unfold due. cbn [snd]. apply Is_true_true. apply Z.leb_le. exact Hr.
      * unfold r. cbn [snd Repaint.ids]. rewrite Hid.
        apply elem_of_union. left. apply elem_of_singleton. reflexivity.
  - change (EmojiListWidget.bucket (RepaintRequest.duration request) taken.1
            = None).
    rewrite T1. apply (bucket_filter_due now _ m r Hsorted1 Hbucket Hr).
Qed.

(** X18: when [invokeRepaints] runs after all pending deadlines no
    bucket is left, and the scheduling call that it posted only clears
    [_repaintTimerScheduled]: no timer is armed. *)
Theorem coalescer_drains (now n n' : Z) (w : EmojiListWidget.t) :
  (forall b, b ∈ EmojiListWidget._repaints w -> Repaint.when b.2 <= now) ->
  let w1 := EmojiListWidget.invokeRepaints st now w in
  EmojiListWidget._repaints w1 = []
  /\ EmojiListWidget.postponedCall st n n' w1
     = w1 <| EmojiListWidget._repaintTimerScheduled := false |>.
Proof.
  intros Hall. cbn zeta.
  assert (Hempty : EmojiListWidget._repaints
                     (EmojiListWidget.invokeRepaints st now w) = []).
  { rewrite invokeRepaints_spec. cbn zeta.
    destruct (takeDue_spec now (EmojiListWidget._repaints w) ∅) as [T1 _].
    match goal with
    | |- EmojiListWidget._repaints (set _ _ (set _ _ (set _ ?t _))) = _ =>
        change (t = [])
    end.
    rewrite T1. apply filter_none. intros b Hb Hnot. apply Hnot.
    unfold due. apply Is_true_true. apply Z.leb_le. apply Hall. exact Hb. }
  split; [exact Hempty|].
  unfold EmojiListWidget.postponedCall. cbn zeta.
  set (w1 := EmojiListWidget.invokeRepaints st now w) in *.
  change (EmojiListWidget._repaints
            (w1 <| EmojiListWidget._repaintTimerScheduled := false |>))
    with (EmojiListWidget._repaints w1).
  rewrite Hempty. reflexivity.
Qed.

End CoalescerRuns.

(** ** The registry of instances *)

Section Registry.

Variable st : Style.t.

Lemma owned_mono (custom : list CustomSet.t)
  (instances instances' : gmap N CustomInstance.t) :
  (forall key, is_Some (instances !! key) -> is_Some (instances' !! key)) ->
  instancesOwned custom instances -> instancesOwned custom instances'.
Proof.
  intros Hsub H cs one Hcs Hone. destruct (H cs one Hcs Hone) as [E S].
  split; [exact E|apply Hsub; exact S].
Qed.

Lemma owned_app (custom : list CustomSet.t) (cs : CustomSet.t)
  (instances : gmap N CustomInstance.t) :
  instancesOwned custom instances ->
  (forall one, one ∈ CustomSet.list cs ->
     CustomOne.instance one = DocumentData.id (CustomOne.document one)
     /\ is_Some (instances !! CustomOne.instance one)) ->
  instancesOwned (custom ++ [cs]) instances.
Proof.
  intros H Hcs cs' one Hin Hone. apply elem_of_app in Hin.
  destruct Hin as [Hin|Hin]; [exact (H cs' one Hin Hone)|].
  apply list_elem_of_singleton in Hin. subst cs'. apply Hcs. exact Hone.
Qed.

Lemma owned_insert (custom : list CustomSet.t) (i : nat) (cs : CustomSet.t)
  (instances : gmap N CustomInstance.t) :
  instancesOwned custom instances ->
  (forall cs0, custom !! i = Some cs0 ->
     forall one, one ∈ CustomSet.list cs -> one ∈ CustomSet.list cs0) ->
  instancesOwned (<[i := cs]> custom) instances.
Proof.
  intros H Hcs cs' one Hin Hone. apply list_elem_of_lookup in Hin.
  destruct Hin as [k Hk]. apply list_lookup_insert_Some in Hk.
  destruct Hk as [(-> & -> & Hlt)|(Hne & Hk)].
  - destruct (lookup_lt_is_Some_2 custom k Hlt) as [cs0 Hcs0].
    apply (H cs0 one); [apply list_elem_of_lookup; eauto|].
    apply (Hcs cs0 Hcs0). exact Hone.
  - apply (H cs' one); [apply list_elem_of_lookup; eauto|exact Hone].
Qed.

Lemma refreshSet_owned (sets : gmap N StickersSet.t)
  (old custom : list CustomSet.t) (instances : gmap N CustomInstance.t)
  (setId : N) :
  instancesOwned old instances -> instancesOwned custom instances ->
  let r := EmojiListWidget.refreshSet sets (old, custom, instances) setId in
  instancesOwned r.1.1 r.2 /\ instancesOwned r.1.2 r.2.
Proof.
  intros Hold Hcustom. cbn zeta.
  destruct (inCatalog sets setId) eqn:Ecat.
  2:{ rewrite refreshSet_skip by exact Ecat. split; assumption. }
  unfold inCatalog in Ecat.
  destruct (sets !! setId) as [it|] eqn:Eit; [|discriminate].
  apply negb_true_iff, bool_decide_eq_false in Ecat.
  pose proof (refreshSet_spec sets old custom instances setId it Eit Ecat)
    as Hspec. cbn zeta in Hspec.
  set (r := EmojiListWidget.refreshSet sets (old, custom, instances) setId)
    in *.
  assert (Hfresh : builtFresh setId it old custom instances r ->
                   instancesOwned r.1.1 r.2 /\ instancesOwned r.1.2 r.2).
  { intros (B1 & B2 & B3).
    assert (Hsub : forall key, is_Some (instances !! key) ->
                     is_Some (r.2 !! key)).
    { intros key [i Hi]. rewrite B3, Hi. eauto. }
    rewrite B1, B2. split; [apply (owned_mono _ _ _ Hsub Hold)|].
    apply owned_app; [apply (owned_mono _ _ _ Hsub Hcustom)|].
    cbn [CustomSet.list]. intros one Hone.
    apply list_elem_of_fmap in Hone. destruct Hone as (d & -> & Hd).
    cbn [CustomOne.instance CustomOne.document]. split; [reflexivity|].
    rewrite B3. destruct (instances !! DocumentData.id d); [eauto|].
    rewrite bool_decide_eq_true_2; [eauto|].
    apply list_elem_of_fmap. exists d. split; [reflexivity|exact Hd]. }
  destruct (priorSet old setId) as [[i found]|] eqn:Eprior;
    [|exact (Hfresh Hspec)].
  destruct (bool_decide _); [|exact (Hfresh Hspec)].
  rewrite Hspec. cbn [fst snd].
  unfold priorSet in Eprior. apply list_find_Some in Eprior.
  destruct Eprior as (Hfound & _ & _).
  split.
  - apply owned_insert; [exact Hold|].
    intros cs0 _ one Hone. cbn in Hone. apply elem_of_nil in Hone.
    contradiction.
  - apply owned_app; [exact Hcustom|]. intros one Hone.
    apply (Hold found one); [apply list_elem_of_lookup; eauto|exact Hone].
Qed.

Lemma refresh_owned (sets : gmap N StickersSet.t) (order : list N)
  (old custom : list CustomSet.t) (instances : gmap N CustomInstance.t) :
  instancesOwned old instances -> instancesOwned custom instances ->
  let r :=
    fold_left (EmojiListWidget.refreshSet sets) order
      (old, custom, instances) in
  instancesOwned r.1.2 r.2.
Proof.
  revert old custom instances.
  induction order as [|setId order IH]; intros old custom instances Ho Hc;
    [exact Hc|].
  cbn [fold_left].
  destruct (refreshSet_owned sets old custom instances setId Ho Hc) as [A B].
  cbn zeta in A, B.
  destruct (EmojiListWidget.refreshSet sets (old, custom, instances) setId)
    as [[old' custom'] instances'].
  apply IH; assumption.
Qed.

Lemma afterUnload_list (b : bool) (cs : CustomSet.t) :
  CustomSet.list (afterUnload b cs) = CustomSet.list cs
  /\ CustomSet.id (afterUnload b cs) = CustomSet.id cs
  /\ (b = true -> CustomSet.painted (afterUnload b cs) = false).
Proof.
  unfold afterUnload. destruct b; cbn [andb].
  - destruct (CustomSet.painted cs) eqn:E; repeat split; auto.
  - repeat split. discriminate.
Qed.

Lemma customAt_lookup (w : EmojiListWidget.t) (j : nat) :
  EmojiListWidget.customAt w (kEmojiSectionCount + Z.of_nat j)
  = EmojiListWidget._custom w !! j.
Proof.
  unfold EmojiListWidget.customAt, kEmojiSectionCount.
  destruct (Z.leb_spec 8 (8 + Z.of_nat j)); [|lia].
  f_equal. lia.
Qed.

(** What a pass of the unloading makes of the custom sets. *)
Lemma unload_custom (top bottom : Z) (l : list SectionInfo.t)
  (w : EmojiListWidget.t) (j : nat) :
  NoDup (map SectionInfo.section l) ->
  let w' := fold_left (EmojiListWidget.unloadSection top bottom) l w in
  exists b,
    EmojiListWidget._custom w' !! j
    = afterUnload b <$> EmojiListWidget._custom w !! j.
Proof.
  intros Hnd. cbn zeta.
  destruct (unload_fold top bottom l w Hnd) as (_ & F2 & F3 & _).
  cbn zeta in F2, F3. rewrite <- !customAt_lookup.
  destruct (decide (kEmojiSectionCount + Z.of_nat j
                    ∈ map SectionInfo.section l)) as [Hin|Hout].
  - apply list_elem_of_fmap in Hin. destruct Hin as (info & E & Hin).
    exists (unseen top bottom info). rewrite E. apply F2. exact Hin.
  - exists false. rewrite afterUnload_false. apply F3. exact Hout.
Qed.

(** X19: every item of every custom set refers to an instance that
    [_instances] owns, registered under the identifier of the item's
    document.  [refreshCustom], [drawCustom] and
    [visibleTopBottomUpdated] keep it so. *)
Theorem instances_stay_owned (w : EmojiListWidget.t) :
  instancesOwned (EmojiListWidget._custom w) (EmojiListWidget._instances w) ->
  (forall order sets,
     let w' := EmojiListWidget.refreshCustom order sets w in
     instancesOwned (EmojiListWidget._custom w')
       (EmojiListWidget._instances w'))
  /\ (forall s index,
        let w' := EmojiListWidget.drawCustom s index w in
        instancesOwned (EmojiListWidget._custom w')
          (EmojiListWidget._instances w'))
  /\ (forall top bottom,
        let w' := EmojiListWidget.visibleTopBottomUpdated st top bottom w in
        instancesOwned (EmojiListWidget._custom w')
          (EmojiListWidget._instances w')).
Proof.
  intros Hw. split; [|split].
  - intros order sets. cbn zeta. unfold EmojiListWidget.refreshCustom.
    pose proof (refresh_owned sets order (EmojiListWidget._custom w) []
                  (EmojiListWidget._instances w) Hw) as H.
    cbn zeta in H.
    destruct (fold_left _ order _) as [[old' custom'] instances'].
    apply H. intros cs one Hcs. apply elem_of_nil in Hcs. contradiction.
  - intros s index. cbn zeta. unfold EmojiListWidget.drawCustom.
    destruct (EmojiListWidget._custom w !! Z.to_nat s) as [custom|] eqn:Es;
      [|exact Hw].
    cbn zeta.
    assert (Hins : instancesOwned
                     (<[Z.to_nat s := custom <| CustomSet.painted := true |>]>
                        (EmojiListWidget._custom w))
                     (EmojiListWidget._instances w)).
    { apply owned_insert; [exact Hw|]. intros cs0 Hcs0 one Hone.
      rewrite Es in Hcs0. injection Hcs0 as <-. exact Hone. }
    destruct (CustomSet.list custom !! Z.to_nat index) as [single|];
      [|exact Hins].
    refine (owned_mono _ _ _ _ Hins). intros key Hkey.
    change (is_Some (alter CustomInstance.paint (CustomOne.instance single)
                       (EmojiListWidget._instances w) !! key)).
    rewrite lookup_alter. destruct (decide _) as [->|]; [|exact Hkey].
    apply fmap_is_Some. exact Hkey.
  - intros top bottom. cbn zeta.
    unfold EmojiListWidget.visibleTopBottomUpdated,
      EmojiListWidget.unloadNotSeenCustom.
    set (w0 := w <| EmojiListWidget.visibleTop := top |>
                 <| EmojiListWidget.visibleBottom := bottom |>).
    pose proof (enumerateSections_NoDup st w0) as Hnd.
    destruct (unload_fold top bottom _ w0 Hnd) as (_ & _ & _ & F4).
    cbn zeta in F4.
    intros cs one Hcs Hone. apply list_elem_of_lookup in Hcs.
    destruct Hcs as [j Hj].
    destruct (unload_custom top bottom _ w0 j Hnd) as [b Hb].
    cbn zeta in Hb. rewrite Hj in Hb.
    change (EmojiListWidget._custom w0) with (EmojiListWidget._custom w) in Hb.
    destruct (EmojiListWidget._custom w !! j) as [cs0|] eqn:E0;
      [|discriminate].
    injection Hb as ->.
    rewrite (proj1 (afterUnload_list b cs0)) in Hone.
    destruct (Hw cs0 one) as [E S];
      [apply list_elem_of_lookup; eauto|exact Hone|].
    split; [exact E|]. rewrite F4.
    change (EmojiListWidget._instances w0) with (EmojiListWidget._instances w).
    destruct (existsb _ _); [apply fmap_is_Some|]; exact S.
Qed.

Lemma fold_left_fixed {A B : Type} (f : A -> B -> A) (l : list B) (a : A) :
  (forall x, x ∈ l -> f a x = a) -> fold_left f l a = a.
Proof.
  induction l as [|x l IH]; intros H; [reflexivity|].
  cbn [fold_left]. rewrite (H x) by apply list_elem_of_here.
  apply IH. intros y Hy. apply H. apply list_elem_of_further. exact Hy.
Qed.

Lemma customEntriesFrom_same (i : Z) (c1 c2 : list CustomSet.t) :
  Forall2 (fun a b => CustomSet.list a = CustomSet.list b) c1 c2 ->
  EmojiListWidget.customEntriesFrom i c1 = EmojiListWidget.customEntriesFrom i c2.
Proof.
  intros H. revert i. induction H as [|a b c1 c2 Hab _ IH]; intros i;
    [reflexivity|].
  cbn [EmojiListWidget.customEntriesFrom]. rewrite Hab, IH. reflexivity.
Qed.

Lemma unload_keeps_layout (top bottom : Z) (l : list SectionInfo.t)
  (w : EmojiListWidget.t) :
  NoDup (map SectionInfo.section l) ->
  EmojiListWidget.enumerateSections st
    (fold_left (EmojiListWidget.unloadSection top bottom) l w)
  = EmojiListWidget.enumerateSections st w.
Proof.
  intros Hnd.
  destruct (unload_fold top bottom l w Hnd) as (F1 & _).
  cbn zeta in F1. unfold sameButCustom in F1.
  set (w' := fold_left (EmojiListWidget.unloadSection top bottom) l w) in *.
  assert (Hsame : Forall2 (fun a b => CustomSet.list a = CustomSet.list b)
                    (EmojiListWidget._custom w') (EmojiListWidget._custom w)).
  { apply Forall2_same_length_lookup. split.
    - apply Nat.le_antisymm.
      + destruct (Nat.le_gt_cases (length (EmojiListWidget._custom w'))
                    (length (EmojiListWidget._custom w))) as [H|H];
          [exact H|exfalso].
        destruct (lookup_lt_is_Some_2 (EmojiListWidget._custom w')
                    (length (EmojiListWidget._custom w)) H) as [x Hx].
        destruct (unload_custom top bottom l w
                    (length (EmojiListWidget._custom w)) Hnd) as [b Hb].
        cbn zeta in Hb. fold w' in Hb. rewrite Hx in Hb.
        rewrite lookup_ge_None_2 in Hb by lia. discriminate.
      + destruct (Nat.le_gt_cases (length (EmojiListWidget._custom w))
                    (length (EmojiListWidget._custom w'))) as [H|H];
          [exact H|exfalso].
        destruct (lookup_lt_is_Some_2 (EmojiListWidget._custom w)
                    (length (EmojiListWidget._custom w')) H) as [x Hx].
        destruct (unload_custom top bottom l w
                    (length (EmojiListWidget._custom w')) Hnd) as [b Hb].
        cbn zeta in Hb. fold w' in Hb. rewrite Hx in Hb.
        rewrite lookup_ge_None_2 in Hb by lia. discriminate.
    - intros j x y Hx Hy.
      destruct (unload_custom top bottom l w j Hnd) as [b Hb].
      cbn zeta in Hb. fold w' in Hb. rewrite Hx, Hy in Hb.
      injection Hb as ->. apply afterUnload_list. }
  rewrite F1. unfold EmojiListWidget.enumerateSections.
  unfold EmojiListWidget.customEntries.
  match goal with
  | |- context [EmojiListWidget.customEntriesFrom _
                  (EmojiListWidget._custom (set _ _ (set _ ?c _)))] =>
      change (EmojiListWidget._custom
                (w <| EmojiListWidget._custom := c |>
                   <| EmojiListWidget._instances :=
                        EmojiListWidget._instances w' |>))
        with c
  end.
  rewrite (customEntriesFrom_same _ _ _ Hsame). reflexivity.
Qed.

(** X20: a set that is not marked painted is never unloaded, whatever
    the state of its instances.  After [visibleTopBottomUpdated] no custom
    section outside the visible range is marked painted, so that a second
    call with the same range returns early for every section: it finds
    nothing left to unload and changes nothing. *)
Theorem unload_leaves_nothing (top bottom : Z) (w : EmojiListWidget.t) :
  let w' := EmojiListWidget.visibleTopBottomUpdated st top bottom w in
  (forall w0 info cs,
     EmojiListWidget.customAt w0 (SectionInfo.section info) = Some cs ->
     CustomSet.painted cs = false ->
     EmojiListWidget.unloadSection top bottom w0 info = w0)
  /\ (forall info cs,
        info ∈ EmojiListWidget.enumerateSections st w' ->
        unseen top bottom info = true ->
        EmojiListWidget.customAt w' (SectionInfo.section info) = Some cs ->
        CustomSet.painted cs = false)
  /\ (forall info,
        info ∈ EmojiListWidget.enumerateSections st w' ->
        EmojiListWidget.unloadSection top bottom w' info = w')
  /\ EmojiListWidget.visibleTopBottomUpdated st top bottom w' = w'.
Proof.
  cbn zeta.
  assert (Hguard : forall w0 info cs,
            EmojiListWidget.customAt w0 (SectionInfo.section info) = Some cs ->
            CustomSet.painted cs = false ->
            EmojiListWidget.unloadSection top bottom w0 info = w0).
  { intros w0 info cs Hat Hp. unfold EmojiListWidget.unloadSection.
    destruct (_ || _); [reflexivity|]. rewrite Hat, Hp. reflexivity. }
  split; [exact Hguard|].
  assert (E : EmojiListWidget.visibleTopBottomUpdated st top bottom w
              = fold_left (EmojiListWidget.unloadSection top bottom)
                  (EmojiListWidget.enumerateSections st
                     (w <| EmojiListWidget.visibleTop := top |>
                        <| EmojiListWidget.visibleBottom := bottom |>))
                  (w <| EmojiListWidget.visibleTop := top |>
                     <| EmojiListWidget.visibleBottom := bottom |>))
    by reflexivity.
  rewrite E. clear E.
  set (w0 := w <| EmojiListWidget.visibleTop := top |>
               <| EmojiListWidget.visibleBottom := bottom |>).
  set (l := EmojiListWidget.enumerateSections st w0).
  pose proof (enumerateSections_NoDup st w0) as Hnd. fold l in Hnd.
  destruct (unload_fold top bottom l w0 Hnd) as (F1 & F2 & _).
  cbn zeta in F1, F2.
  pose proof (unload_keeps_layout top bottom l w0 Hnd) as Hlayout.
  fold l in Hlayout.
  set (w' := fold_left (EmojiListWidget.unloadSection top bottom) l w0) in *.
  assert (Hvis : w' <| EmojiListWidget.visibleTop := top |>
                    <| EmojiListWidget.visibleBottom := bottom |> = w').
  { unfold sameButCustom in F1.
    set (C := EmojiListWidget._custom w') in F1.
    set (I := EmojiListWidget._instances w') in F1.
    clearbody C I. rewrite F1. unfold w0. destruct w; reflexivity. }
  clearbody w'. rewrite Hlayout.
  assert (Hclear : forall info cs,
            info ∈ l -> unseen top bottom info = true ->
            EmojiListWidget.customAt w' (SectionInfo.section info) = Some cs ->
            CustomSet.painted cs = false).
  { intros info cs Hin Hu Hat. rewrite (F2 info Hin) in Hat.
    destruct (EmojiListWidget.customAt w0 (SectionInfo.section info))
      as [cs0|]; [|discriminate].
    injection Hat as <-. apply (proj2 (proj2 (afterUnload_list _ cs0)) Hu). }
  assert (Hstep : forall info,
            info ∈ l -> EmojiListWidget.unloadSection top bottom w' info = w').
  { intros info Hin.
    destruct (unseen top bottom info) eqn:Hu.
    - destruct (EmojiListWidget.customAt w' (SectionInfo.section info))
        as [cs|] eqn:Hat.
      + apply (Hguard w' info cs Hat). apply (Hclear info cs Hin Hu Hat).
      + unfold EmojiListWidget.unloadSection.
        destruct (_ || _); [reflexivity|]. rewrite Hat. reflexivity.
    - unfold EmojiListWidget.unloadSection. unfold unseen in Hu.
      apply negb_false_iff in Hu. rewrite Hu. reflexivity. }
  split; [exact Hclear|]. split; [exact Hstep|].
  unfold EmojiListWidget.visibleTopBottomUpdated,
    EmojiListWidget.unloadNotSeenCustom.
  rewrite Hvis, Hlayout.
  apply fold_left_fixed. exact Hstep.
Qed.

End Registry.

(** ** Loading, resizing and scrolling to a set *)

Section Loading.

Variable st : Style.t.
Variable rtl : bool.

Lemma ensureLoaded_shape (recent : list EmojiPtr)
  (getSection : Z -> list EmojiPtr) (section : Z) (w : EmojiListWidget.t) :
  section < kEmojiSectionCount ->
  EmojiListWidget.sectionEmpty w section = true ->
  let source := if section =? 0 then recent else getSection section in
  EmojiListWidget.ensureLoaded recent getSection section w
  = w <| EmojiListWidget._emoji :=
           <[Z.to_nat section :=
               if section =? 0 then source
               else map (EmojiListWidget.preferVariant
                           (EmojiListWidget.emojiVariants w)) source]>
             (EmojiListWidget._emoji w) |>
      <| EmojiListWidget._counts :=
           <[Z.to_nat section := Z.of_nat (length source)]>
             (EmojiListWidget._counts w) |>.
Proof.
  intros Hs He. cbn zeta. unfold EmojiListWidget.ensureLoaded.
  destruct (Z.leb_spec kEmojiSectionCount section); [lia|].
  rewrite He. cbn [negb orb]. cbn zeta.
  destruct (section =? 0).
  - reflexivity.
  - match goal with
    | |- context [EmojiListWidget._emoji (set _ _ (set _ ?e _))] =>
        change (EmojiListWidget._emoji
                  (w <| EmojiListWidget._emoji := e |>
                     <| EmojiListWidget._counts :=
                          <[Z.to_nat section :=
                              Z.of_nat (length (getSection section))]>
                            (EmojiListWidget._counts w) |>))
          with e
    end.
    rewrite list_insert_insert_eq. destruct w; reflexivity.
Qed.

(** X21: [ensureLoaded] on a built-in section with no items loaded
    fills it from the recent emoji for section 0 and from [GetSection] for
    the others, where every emoji with variants is replaced by the stored
    preferred variant of its family; it sets the count of the section to
    the number of items loaded and touches no other section.  Loading the
    section again changes nothing. *)
Theorem ensureLoaded_loads (recent : list EmojiPtr)
  (getSection : Z -> list EmojiPtr) (section : Z) (w : EmojiListWidget.t) :
  0 <= section < kEmojiSectionCount ->
  (Z.to_nat section < length (EmojiListWidget._emoji w))%nat ->
  (Z.to_nat section < length (EmojiListWidget._counts w))%nat ->
  EmojiListWidget.sectionEmpty w section = true ->
  let w' := EmojiListWidget.ensureLoaded recent getSection section w in
  let source := if section =? 0 then recent else getSection section in
  EmojiListWidget._emoji w' !! Z.to_nat section
  = Some (if section =? 0 then source
          else map (EmojiListWidget.preferVariant
                      (EmojiListWidget.emojiVariants w)) source)
  /\ EmojiListWidget._counts w' !! Z.to_nat section
     = Some (Z.of_nat (length source))
  /\ (forall s, s <> Z.to_nat section ->
        EmojiListWidget._emoji w' !! s = EmojiListWidget._emoji w !! s
        /\ EmojiListWidget._counts w' !! s = EmojiListWidget._counts w !! s)
  /\ EmojiListWidget.ensureLoaded recent getSection section w' = w'.
Proof.
  intros Hs Hle Hlc He. cbn zeta.
  rewrite (ensureLoaded_shape recent getSection section w) by (lia || exact He).
  cbn zeta.
  set (source := if section =? 0 then recent else getSection section).
  set (L := if section =? 0 then source
            else map (EmojiListWidget.preferVariant
                        (EmojiListWidget.emojiVariants w)) source).
  set (w' := w <| EmojiListWidget._emoji :=
                    <[Z.to_nat section := L]> (EmojiListWidget._emoji w) |>
               <| EmojiListWidget._counts :=
                    <[Z.to_nat section := Z.of_nat (length source)]>
                      (EmojiListWidget._counts w) |>).
  change (EmojiListWidget._emoji w')
    with (<[Z.to_nat section := L]> (EmojiListWidget._emoji w)).
  change (EmojiListWidget._counts w')
    with (<[Z.to_nat section := Z.of_nat (length source)]>
            (EmojiListWidget._counts w)).
  split; [apply list_lookup_insert_eq; exact Hle|].
  split; [apply list_lookup_insert_eq; exact Hlc|].
  split.
  - intros s Hne. split; apply list_lookup_insert_ne; auto.
  - destruct (EmojiListWidget.sectionEmpty w' section) eqn:He'.
    + rewrite (ensureLoaded_shape recent getSection section w')
        by (lia || exact He').
      cbn zeta. fold source.
      change (EmojiListWidget.emojiVariants w')
        with (EmojiListWidget.emojiVariants w).
      fold L.
      change (EmojiListWidget._emoji w')
        with (<[Z.to_nat section := L]> (EmojiListWidget._emoji w)).
      change (EmojiListWidget._counts w')
        with (<[Z.to_nat section := Z.of_nat (length source)]>
                (EmojiListWidget._counts w)).
      rewrite !list_insert_insert_eq. unfold w'. destruct w; reflexivity.
    + unfold EmojiListWidget.ensureLoaded. rewrite He'.
      rewrite orb_true_r. reflexivity.
Qed.

(** X22: [countDesiredHeight] always leaves at least one column and
    gives the overlay the new cell size.  When the scroll bar leaves a
    sixth of the full width free, the left margin, the columns and the
    right margin fit into the full width with less than one pixel per
    column to spare, and the height returned reaches below the rows of
    every section. *)
Theorem desired_height_fits (gs : StyleGrid.t) (newWidth : Z)
  (w : EmojiListWidget.t) :
  let fullWidth :=
    Style.roundRadiusSmall st + newWidth + StyleGrid.emojiScrollWidth gs in
  StyleGrid.emojiPanDesiredSize gs <> 0 ->
  0 <= fullWidth ->
  0 <= StyleGrid.emojiScrollWidth gs ->
  StyleGrid.emojiScrollWidth gs + fullWidth ÷ 6 <= fullWidth ->
  let h := (EmojiListWidget.countDesiredHeight st rtl gs newWidth w).1 in
  let w' := (EmojiListWidget.countDesiredHeight st rtl gs newWidth w).2 in
  let left := EmojiListWidget._rowsLeft w' + Style.roundRadiusSmall st in
  let right := Z.max left (StyleGrid.emojiScrollWidth gs) in
  let columns :=
    EmojiListWidget._columnCount w'
    * sizeWidth (EmojiListWidget._singleSize w') in
  1 <= EmojiListWidget._columnCount w'
  /\ EmojiColorPicker._singleSize (EmojiListWidget._picker w')
     = EmojiListWidget._singleSize w'
  /\ 0 <= left
  /\ 0 <= sizeWidth (EmojiListWidget._singleSize w')
  /\ left + columns + right <= fullWidth
     < left + columns + right + EmojiListWidget._columnCount w'
  /\ (0 <= sizeHeight (EmojiListWidget._singleSize w') ->
      0 <= Style.emojiPanPadding st ->
      0 <= Style.emojiPanHeader st ->
      Forall (fun c => 0 <= c) (EmojiListWidget._counts w) ->
      forall info,
        info ∈ EmojiListWidget.enumerateSections st w' ->
        SectionInfo.rowsBottom info + Style.emojiPanPadding st <= h).
Proof.
  cbn zeta. intros _ Hfull Hscroll Hroom.
  unfold EmojiListWidget.countDesiredHeight. cbn zeta. cbn [fst snd].
  set (fullWidth :=
         Style.roundRadiusSmall st + newWidth + StyleGrid.emojiScrollWidth gs)
    in *.
  set (C := Z.max ((fullWidth - StyleGrid.emojiPadding gs * 2)
                   ÷ StyleGrid.emojiPanDesiredSize gs) 1).
  set (rowsLeft := fullWidth ÷ (C * 4 + 2)).
  set (rowsRight := Z.max rowsLeft (StyleGrid.emojiScrollWidth gs)).
  set (singleWidth := (fullWidth - rowsLeft - rowsRight) ÷ C).
  set (size := (singleWidth, singleWidth - 4 * StyleGrid.lineWidth gs)).
  set (w' := w <| EmojiListWidget._columnCount := C |>
               <| EmojiListWidget._rowsLeft :=
                    rowsLeft - Style.roundRadiusSmall st |>
               <| EmojiListWidget._singleSize := size |>
               <| EmojiListWidget._picker :=
                    EmojiColorPicker.setSingleSize st rtl size
                      (EmojiListWidget._picker w) |>).
  change (EmojiListWidget._columnCount w') with C.
  change (EmojiListWidget._rowsLeft w')
    with (rowsLeft - Style.roundRadiusSmall st).
  change (EmojiListWidget._singleSize w') with size.
  change (sizeWidth size) with singleWidth.
  change (sizeHeight size)
    with (singleWidth - 4 * StyleGrid.lineWidth gs).
  change (EmojiListWidget._picker w')
    with (EmojiColorPicker.setSingleSize st rtl size
            (EmojiListWidget._picker w)).
  replace (rowsLeft - Style.roundRadiusSmall st + Style.roundRadiusSmall st)
    with rowsLeft by lia.
  fold rowsRight.
  assert (HC : 1 <= C) by (unfold C; lia).
  assert (HL : 0 <= rowsLeft <= fullWidth ÷ 6).
  { unfold rowsLeft. split.
    - rewrite Z.quot_div_nonneg by lia. apply Z.div_pos; lia.
    - apply Z.quot_le_compat_l; lia. }
  assert (H6 : 6 * (fullWidth ÷ 6) <= fullWidth).
  { rewrite Z.quot_div_nonneg by lia.
    pose proof (Z.div_mod fullWidth 6 ltac:(lia)).
    pose proof (Z.mod_pos_bound fullWidth 6 ltac:(lia)). lia. }
  assert (Havail : 0 <= fullWidth - rowsLeft - rowsRight)
    by (unfold rowsRight; lia).
  assert (HW : 0 <= singleWidth
               /\ C * singleWidth <= fullWidth - rowsLeft - rowsRight
                  < C * singleWidth + C).
  { unfold singleWidth. rewrite Z.quot_div_nonneg by lia.
    pose proof (Z.div_mod (fullWidth - rowsLeft - rowsRight) C ltac:(lia)).
    pose proof (Z.mod_pos_bound (fullWidth - rowsLeft - rowsRight) C
                  ltac:(lia)).
    split; [apply Z.div_pos; lia|]. lia. }
  split; [exact HC|]. split.
  { unfold EmojiColorPicker.setSingleSize, EmojiColorPicker.updateSize,
      EmojiColorPicker.updateSelected. cbn zeta.
    rewrite picker_setSelected. reflexivity. }
  split; [lia|]. split; [lia|]. split; [lia|].
  intros Hh Hp Hhd Hc info Hin.
  assert (Hc' : Forall (fun c => 0 <= c) (EmojiListWidget._counts w'))
    by exact Hc.
  assert (HC' : 1 <= EmojiListWidget._columnCount w') by exact HC.
  assert (Hh' : 0 <= sizeHeight (EmojiListWidget._singleSize w'))
    by exact Hh.
  pose proof (enumerateSections_length st w') as Hlen.
  assert (Hpos : 8 <= EmojiListWidget.sectionsCount w').
  { unfold EmojiListWidget.sectionsCount, kEmojiSectionCount. lia. }
  set (infos := EmojiListWidget.enumerateSections st w') in *.
  destruct (lookup_lt_is_Some_2 infos (length infos - 1)) as [last Hlast];
    [lia|].
  assert (Hsec : SectionInfo.section last
                 = EmojiListWidget.sectionsCount w' - 1).
  { apply enumerateSections_at in Hlast. destruct Hlast as (Hs & _).
    rewrite Hs. lia. }
  rewrite <- Hsec.
  rewrite (sectionInfo_elem st w' last)
    by (apply list_elem_of_lookup; eauto).
  apply list_elem_of_lookup in Hin. destruct Hin as [k Hk].
  pose proof (lookup_lt_Some _ _ _ Hk) as Hklt.
  destruct (decide (k = (length infos - 1)%nat)) as [->|Hne].
  - rewrite Hlast in Hk. injection Hk as ->. lia.
  - pose proof (section_below st w' HC' Hh' Hp Hhd Hc' k (length infos - 1)
                  info last ltac:(lia) Hk Hlast).
    pose proof (section_at st w' HC' Hh' Hp Hhd Hc' _ last Hlast). lia.
Qed.

Lemma customSetTop_find (setId : N) (w : EmojiListWidget.t) :
  EmojiListWidget.customSetTop st setId w
  = match list_find (fun cs => CustomSet.id cs = setId)
            (EmojiListWidget._custom w) with
    | Some (j, _) =>
        SectionInfo.top
          (EmojiListWidget.sectionInfo st w (kEmojiSectionCount + Z.of_nat j))
    | None => 0
    end.
Proof.
  unfold EmojiListWidget.customSetTop.
  set (P := fun info =>
              match EmojiListWidget.customAt w (SectionInfo.section info) with
              | Some cs => bool_decide (CustomSet.id cs = setId)
              | None => false
              end).
  set (infos := EmojiListWidget.enumerateSections st w).
  destruct (find P infos) as [info|] eqn:Efind.
  - apply find_lookup in Efind. destruct Efind as (k & Hk & HP & Hbefore).
    pose proof (enumerateSections_at st w k info Hk) as (Hs & _).
    unfold P in HP.
    destruct (EmojiListWidget.customAt w (SectionInfo.section info))
      as [cs|] eqn:Ecs; [|discriminate].
    apply bool_decide_eq_true in HP.
    assert (H8 : 8 <= Z.of_nat k).
    { unfold EmojiListWidget.customAt in Ecs. rewrite Hs in Ecs.
      unfold kEmojiSectionCount in Ecs.
      destruct (Z.leb_spec 8 (Z.of_nat k)); [lia|discriminate]. }
    assert (Ek : Z.of_nat k = kEmojiSectionCount + Z.of_nat (k - 8))
      by (unfold kEmojiSectionCount; lia).
    rewrite Hs, Ek, customAt_lookup in Ecs.
    assert (Hfind : list_find (fun cs => CustomSet.id cs = setId)
                      (EmojiListWidget._custom w) = Some ((k - 8)%nat, cs)).
    { apply list_find_Some. split; [exact Ecs|]. split; [exact HP|].
      intros j y Hy Hj Hq.
      destruct (enumerateSections_custom st w j y Hy)
        as (info' & Hin' & Hs' & Hat').
      apply list_elem_of_lookup in Hin'. destruct Hin' as [k' Hk'].
      pose proof (enumerateSections_at st w k' info' Hk') as (Hs'' & _).
      assert (Hlt : (k' < k)%nat) by (unfold kEmojiSectionCount in *; lia).
      pose proof (Hbefore k' info' Hlt Hk') as Hfalse.
      unfold P in Hfalse. rewrite Hat' in Hfalse.
      apply bool_decide_eq_false in Hfalse. contradiction. }
    rewrite Hfind. cbn [fmap option_fmap option_map default from_option id].
    rewrite <- Ek, <- Hs.
    rewrite (sectionInfo_elem st w info)
      by (apply list_elem_of_lookup; eauto).
    reflexivity.
  - assert (Hnone : list_find (fun cs => CustomSet.id cs = setId)
                      (EmojiListWidget._custom w) = None).
    { apply list_find_None. apply Forall_lookup. intros j y Hy Hq.
      destruct (enumerateSections_custom st w j y Hy)
        as (info' & Hin' & _ & Hat').
      apply list_elem_of_In in Hin'.
      pose proof (find_none P infos Efind info' Hin') as Hfalse.
      unfold P in Hfalse. rewrite Hat' in Hfalse.
      apply bool_decide_eq_false in Hfalse. contradiction. }
    rewrite Hnone. reflexivity.
Qed.

(** X23: [showCustomSet] rebuilds the custom sets from the catalog and
    asks to scroll to the top of the first section that shows the set, or
    to 0 when no section does; it leaves nothing selected or pressed and
    the pointer at the cursor. *)
Theorem showCustomSet_scrolls (order : list N) (sets : gmap N StickersSet.t)
  (setId : N) (c : QPoint) (w : EmojiListWidget.t) :
  let y := (EmojiListWidget.showCustomSet st order sets setId c w).1 in
  let w' := (EmojiListWidget.showCustomSet st order sets setId c w).2 in
  y = match list_find (fun cs => CustomSet.id cs = setId)
              (EmojiListWidget._custom w') with
      | Some (j, _) =>
          SectionInfo.top
            (EmojiListWidget.sectionInfo st w'
               (kEmojiSectionCount + Z.of_nat j))
      | None => 0
      end
  /\ map CustomSet.id (EmojiListWidget._custom w')
     = filter (fun id => inCatalog sets id) order
  /\ EmojiListWidget._selected w' = -1
  /\ EmojiListWidget._pressedSel w' = -1
  /\ EmojiListWidget._lastMousePos w' = c.
Proof.
  cbn zeta. unfold EmojiListWidget.showCustomSet. cbn zeta. cbn [fst snd].
  set (w0 := EmojiListWidget.clearSelection w).
  assert (H0 : EmojiListWidget._selected w0 = -1
               /\ EmojiListWidget._pressedSel w0 = -1).
  { unfold w0, EmojiListWidget.clearSelection.
    match goal with
    | |- context [EmojiListWidget.setSelected (-1) ?x] =>
        destruct (setSelected_frame (-1) x) as (pk & E & _)
    end.
    rewrite E. split; reflexivity. }
  clearbody w0. destruct H0 as [Hsel Hpressed].
  pose proof (refresh_fold sets order (EmojiListWidget._custom w0) []
                (EmojiListWidget._instances w0)) as [Hids _].
  unfold EmojiListWidget.refreshCustom in *.
  destruct (fold_left (EmojiListWidget.refreshSet sets) order _)
    as [[old custom] instances].
  cbn [fst snd map app] in Hids.
  set (w1 := w0 <| EmojiListWidget._custom := custom |>
                <| EmojiListWidget._instances := instances |>).
  split.
  - rewrite customSetTop_find. reflexivity.
  - split; [exact Hids|]. split; [exact Hsel|]. split; [exact Hpressed|].
    reflexivity.
Qed.

End Loading.

(** ** Painted cells and hit tests *)

Section Cells.

Variable st : Style.t.
Variable rtl : bool.
Variable pickerLeft : Z -> Z -> Z -> Z.

(** X24: a pointer whose tested position (the [x] mirrored when
    [rtl()]) lies inside the cell that [drawVariant] computes for the
    variant [v] makes [updateSelected] select [v]. *)
Theorem variant_cell_roundtrip (p : EmojiColorPicker.t) (v : Z) :
  0 < sizeWidth (EmojiColorPicker._singleSize p) ->
  0 <= 2 * Style.emojiColorsPadding st + Style.emojiColorsSep st ->
  0 <= v < Z.of_nat (length (EmojiColorPicker._variants p)) ->
  let l := EmojiColorPicker.mapFromGlobal p (EmojiColorPicker._lastMousePos p) in
  let sx := if rtl then EmojiColorPicker.width p - px l else px l in
  let cell := EmojiColorPicker.variantCell st p v in
  px cell <= sx < px cell + sizeWidth (EmojiColorPicker._singleSize p) ->
  py cell <= py l < py cell + sizeHeight (EmojiColorPicker._singleSize p) ->
  EmojiColorPicker.variantAt st rtl p = v.
Proof.
  intros Hw Hskip Hv. cbn zeta.
  unfold EmojiColorPicker.variantCell, EmojiColorPicker.variantAt.
  cbn zeta. unfold px, py. cbn [fst snd].
  set (l := EmojiColorPicker.mapFromGlobal p (EmojiColorPicker._lastMousePos p)).
  set (sx := if rtl then EmojiColorPicker.width p - l.1 else l.1).
  set (sw := sizeWidth (EmojiColorPicker._singleSize p)) in *.
  set (sh := sizeHeight (EmojiColorPicker._singleSize p)) in *.
  set (n := Z.of_nat (length (EmojiColorPicker._variants p))) in *.
  intros Hx Hy.
  destruct (Z.leb_spec 0 (l.2 - Style.emojiPanMarginsTop st
                          - Style.emojiColorsPadding st)); [|lia].
  destruct (Z.ltb_spec (l.2 - Style.emojiPanMarginsTop st
                        - Style.emojiColorsPadding st) sh); [|lia].
  cbn [andb].
  destruct (Z.eqb_spec v 0) as [->|Hne].
  - destruct (Z.leb_spec 0 (sx - Style.emojiPanMarginsLeft st
                            - Style.emojiColorsPadding st)); [|lia].
    destruct (Z.ltb_spec (sx - Style.emojiPanMarginsLeft st
                          - Style.emojiColorsPadding st) sw); [|lia].
    reflexivity.
  - assert (H1 : 1 <= v) by lia.
    assert (Hge : sw <= sx - Style.emojiPanMarginsLeft st
                        - Style.emojiColorsPadding st) by nia.
    destruct (Z.leb_spec 0 (sx - Style.emojiPanMarginsLeft st
                            - Style.emojiColorsPadding st)); [|lia].
    destruct (Z.ltb_spec (sx - Style.emojiPanMarginsLeft st
                          - Style.emojiColorsPadding st) sw); [lia|].
    cbn [andb].
    set (x' := sx - Style.emojiPanMarginsLeft st - Style.emojiColorsPadding st
               - (sw + 2 * Style.emojiColorsPadding st
                  + Style.emojiColorsSep st)).
    assert (Hx' : (v - 1) * sw <= x' < v * sw) by (unfold x'; nia).
    destruct (Z.leb_spec 0 x'); [|nia].
    destruct (Z.ltb_spec x' (sw * (n - 1))); [|nia].
    cbn [andb]. rewrite Z.quot_div_nonneg by lia.
    assert (x' / sw = v - 1); [|lia].
    symmetry. apply (Z.div_unique x' sw (v - 1) (x' - (v - 1) * sw)); lia.
Qed.

(** X25: [paintEvent] draws the item of row [i] and column [j] of a
    section at the rectangle that [emojiRect] gives for its offset
    [i * _columnCount + j] in the section. *)
Theorem painted_cell_rect (w : EmojiListWidget.t) (info : SectionInfo.t)
  (i j : Z) :
  1 <= EmojiListWidget._columnCount w ->
  info ∈ EmojiListWidget.enumerateSections st w ->
  0 <= i -> 0 <= j < EmojiListWidget._columnCount w ->
  let index := cellOffset (EmojiListWidget._columnCount w) i j in
  let cell := EmojiListWidget.paintCell w info i j in
  EmojiListWidget.emojiRect st w (SectionInfo.section info) index
  = QRect.mk (px cell) (py cell)
      (sizeWidth (EmojiListWidget._singleSize w))
      (sizeHeight (EmojiListWidget._singleSize w)).
Proof.
  intros HC Hin Hi Hj. cbn zeta.
  unfold EmojiListWidget.emojiRect, EmojiListWidget.paintCell. cbn zeta.
  rewrite (sectionInfo_elem st w info Hin).
  assert (H0 : 0 <= cellOffset (EmojiListWidget._columnCount w) i j)
    by (unfold cellOffset; nia).
  destruct (cellRow_quot _ _ HC H0) as [Er Ec].
  destruct (quot_cell _ i j HC Hi Hj) as [Q1 Q2].
  rewrite Er, Ec, Q1, Q2. reflexivity.
Qed.

(** X26: a press on an item of a custom set followed by a release that
    resolves to the same linear index and is not taken by the overlay
    fires [_customChosen] once, with the document of the item; no emoji is
    chosen and none is handed to the "recently used" collaborator. *)
Theorem custom_click_commits (w : EmojiListWidget.t) (p1 p2 c2 : QPoint)
  (one : CustomOne.t) :
  EmojiListWidget._pressedSel w < 0 ->
  EmojiListWidget._pickerSel w < 0 ->
  0 <= hit st rtl w p1 ->
  itemOf w (hit st rtl w p1) = None ->
  customItemOf w (hit st rtl w p1) = Some one ->
  let w1 := EmojiListWidget.mousePressEvent st rtl pickerLeft LeftButton p1 w in
  EmojiListWidget.pickerTakes p2 w1 = false ->
  hit st rtl w p2 = hit st rtl w p1 ->
  let w2 := EmojiListWidget.mouseReleaseEvent st rtl p2 c2 w1 in
  EmojiListWidget.customChosen w2
  = EmojiListWidget.customChosen w ++ [CustomOne.document one]
  /\ EmojiListWidget.chosen w2 = EmojiListWidget.chosen w
  /\ EmojiListWidget.recentEmoji w2 = EmojiListWidget.recentEmoji w
  /\ EmojiListWidget._pressedSel w2 = -1.
Proof.
  intros Hp Hk Hi Hem Hone. cbn zeta. intros Htakes Hsame.
  destruct (press_resolved st rtl pickerLeft w p1 Hp Hk Hi) as (pk1 & _ & E1).
  rewrite Hem in E1. cbn zeta in E1.
  rewrite E1 in *. clear E1.
  set (i := hit st rtl w p1) in *.
  set (w1 := w <| EmojiListWidget._lastMousePos := p1 |>
               <| EmojiListWidget._selected := i |>
               <| EmojiListWidget._picker := pk1 |>
               <| EmojiListWidget._pressedSel := i |>) in *.
  destruct (release_state st rtl w1 p2 c2 Htakes)
    as (pk & ks & sel & t & E & Hsel).
  rewrite E. clear E.
  change (EmojiListWidget._pickerSel w1)
    with (EmojiListWidget._pickerSel w) in Hsel.
  specialize (Hsel Hk).
  change (hit st rtl w1 p2) with (hit st rtl w p2) in Hsel.
  rewrite Hsame in Hsel. subst sel.
  change (EmojiListWidget._pressedSel w1) with i.
  unfold EmojiListWidget.commitRelease.
  change (EmojiListWidget._selected (beforeCommit w1 p2 pk ks i t)) with i.
  destruct (Z.ltb_spec i 0); [lia|]. rewrite Z.eqb_refl. cbn [orb negb].
  change (EmojiListWidget.sectionCounts (beforeCommit w1 p2 pk ks i t))
    with (EmojiListWidget.sectionCounts w).
  unfold itemOf in Hem. unfold customItemOf in Hone.
  destruct (Layout.IndexToPosition (EmojiListWidget.sectionCounts w) i)
    as [section sel].
  change (EmojiListWidget.emojiAt (beforeCommit w1 p2 pk ks i t) section sel)
    with (EmojiListWidget.emojiAt w section sel).
  rewrite Hem.
  change (EmojiListWidget.customAt (beforeCommit w1 p2 pk ks i t) section)
    with (EmojiListWidget.customAt w section).
  destruct (EmojiListWidget.customAt w section) as [cs|]; [|discriminate].
  cbn [mbind option_bind] in Hone. rewrite Hone.
  repeat split; reflexivity.
Qed.

End Cells.


(** ** The further properties on the concrete panel *)

Lemma sections_stacked_witness :
  Z.of_nat (length (EmojiListWidget.enumerateSections Fixture.st Fixture.panel))
  = EmojiListWidget.sectionsCount Fixture.panel
  /\ SectionInfo.top Fixture.firstSection = 0.
Proof.
  assert (HC : EmojiListWidget._columnCount Fixture.panel <> 0)
    by (vm_compute; discriminate).
  destruct (sections_stacked Fixture.st Fixture.panel HC) as (H1 & _ & H3 & _).
  split; [exact H1|]. apply H3. vm_compute. reflexivity.
Defined.

Lemma sections_hold_items_witness :
  0 <= SectionInfo.count Fixture.firstSection
  /\ 0 <= SectionInfo.rowsCount Fixture.firstSection
  /\ EmojiListWidget._columnCount Fixture.panel
     * (SectionInfo.rowsCount Fixture.firstSection - 1)
     < SectionInfo.count Fixture.firstSection
     <= EmojiListWidget._columnCount Fixture.panel
        * SectionInfo.rowsCount Fixture.firstSection
  /\ 0 <= SectionInfo.top Fixture.firstSection
  /\ SectionInfo.top Fixture.firstSection
     <= SectionInfo.rowsTop Fixture.firstSection
  /\ SectionInfo.rowsTop Fixture.firstSection
     <= SectionInfo.rowsBottom Fixture.firstSection.
Proof.
  assert (HC : 1 <= EmojiListWidget._columnCount Fixture.panel)
    by (vm_compute; discriminate).
  assert (Hh : 0 <= sizeHeight (EmojiListWidget._singleSize Fixture.panel))
    by (vm_compute; discriminate).
  assert (Hp : 0 <= Style.emojiPanPadding Fixture.st)
    by (vm_compute; discriminate).
  assert (Hhd : 0 <= Style.emojiPanHeader Fixture.st)
    by (vm_compute; discriminate).
  assert (Hc : Forall (fun c => 0 <= c) (EmojiListWidget._counts Fixture.panel))
    by (repeat constructor; lia).
  assert (Hin : Fixture.firstSection
                ∈ EmojiListWidget.enumerateSections Fixture.st Fixture.panel)
    by (apply list_elem_of_lookup; exists 0%nat; vm_compute; reflexivity).
  exact (sections_hold_items Fixture.st Fixture.panel Fixture.firstSection
           HC Hh Hp Hhd Hc Hin).
Defined.

Lemma item_rect_in_rows_witness :
  let r :=
    EmojiListWidget.emojiRect Fixture.st Fixture.panel
      (SectionInfo.section Fixture.firstSection) 2 in
  SectionInfo.rowsTop Fixture.firstSection <= QRect.y r
  /\ QRect.y r + QRect.height r <= SectionInfo.rowsBottom Fixture.firstSection
  /\ EmojiListWidget._rowsLeft Fixture.panel <= QRect.x r
  /\ QRect.x r + QRect.width r
     <= EmojiListWidget._rowsLeft Fixture.panel
        + EmojiListWidget._columnCount Fixture.panel
          * sizeWidth (EmojiListWidget._singleSize Fixture.panel).
Proof.
  assert (HC : 1 <= EmojiListWidget._columnCount Fixture.panel)
    by (vm_compute; discriminate).
  assert (Hw : 0 < sizeWidth (EmojiListWidget._singleSize Fixture.panel))
    by (vm_compute; reflexivity).
  assert (Hh : 0 < sizeHeight (EmojiListWidget._singleSize Fixture.panel))
    by (vm_compute; reflexivity).
  assert (Hc : Forall (fun c => 0 <= c) (EmojiListWidget._counts Fixture.panel))
    by (repeat constructor; lia).
  assert (Hin : Fixture.firstSection
                ∈ EmojiListWidget.enumerateSections Fixture.st Fixture.panel)
    by (apply list_elem_of_lookup; exists 0%nat; vm_compute; reflexivity).
  assert (Hsel : 0 <= 2 < SectionInfo.count Fixture.firstSection)
    by (vm_compute; split; [discriminate|reflexivity]).
  exact (proj1 (item_rect_in_rows Fixture.st Fixture.panel
                  Fixture.firstSection 2 HC Hw Hh Hc Hin Hsel)).
Defined.

Lemma section_by_offset_witness :
  SectionInfo.top
    (EmojiListWidget.sectionInfoByOffset Fixture.st Fixture.panel 7) <= 7.
Proof.
  assert (HC : 1 <= EmojiListWidget._columnCount Fixture.panel)
    by (vm_compute; discriminate).
  assert (Hh : 0 <= sizeHeight (EmojiListWidget._singleSize Fixture.panel))
    by (vm_compute; discriminate).
  assert (Hp : 0 <= Style.emojiPanPadding Fixture.st)
    by (vm_compute; discriminate).
  assert (Hhd : 0 <= Style.emojiPanHeader Fixture.st)
    by (vm_compute; discriminate).
  assert (Hc : Forall (fun c => 0 <= c) (EmojiListWidget._counts Fixture.panel))
    by (repeat constructor; lia).
  destruct (section_by_offset Fixture.st Fixture.panel 7 HC Hh Hp Hhd Hc)
    as (_ & _ & H & _).
  apply H. lia.
Defined.

Lemma hover_cell_witness :
  let p :=
    EmojiListWidget.mapFromGlobal Fixture.hovering
      (EmojiListWidget._lastMousePos Fixture.hovering) in
  let sx := if false then EmojiListWidget.width Fixture.hovering - px p
            else px p in
  let cell :=
    Layout.IndexToPosition (EmojiListWidget.sectionCounts Fixture.hovering)
      (EmojiListWidget.itemAt Fixture.st false Fixture.hovering) in
  let r := EmojiListWidget.emojiRect Fixture.st Fixture.hovering cell.1 cell.2 in
  cell.1 = EmojiListWidget.currentSection Fixture.st (py p) Fixture.hovering
  /\ 0 <= cell.2
     < sectionCount (EmojiListWidget.sectionCounts Fixture.hovering) cell.1
  /\ QRect.x r <= sx < QRect.x r + QRect.width r
  /\ QRect.y r <= py p < QRect.y r + QRect.height r.
Proof.
  assert (HC : 1 <= EmojiListWidget._columnCount Fixture.hovering)
    by (vm_compute; discriminate).
  assert (Hw : 0 < sizeWidth (EmojiListWidget._singleSize Fixture.hovering))
    by (vm_compute; reflexivity).
  assert (Hh : 0 < sizeHeight (EmojiListWidget._singleSize Fixture.hovering))
    by (vm_compute; reflexivity).
  assert (Hc : Forall (fun c => 0 <= c)
                 (EmojiListWidget._counts Fixture.hovering))
    by (repeat constructor; lia).
  assert (Hi : 0 <= EmojiListWidget.itemAt Fixture.st false Fixture.hovering)
    by (vm_compute; discriminate).
  exact (hover_cell Fixture.st false Fixture.hovering HC Hw Hh Hc Hi).
Defined.

Lemma release_fires_variant_witness :
  is_Some
    (EmojiColorPicker.releaseSelect Fixture.st false (30, 20)
       (EmojiListWidget._picker Fixture.opened)).2.
Proof.
  assert (Hw : 0 < sizeWidth
                     (EmojiColorPicker._singleSize
                        (EmojiListWidget._picker Fixture.opened)))
    by (vm_compute; reflexivity).
  assert (Hne : EmojiColorPicker._variants
                  (EmojiListWidget._picker Fixture.opened) <> [])
    by (vm_compute; discriminate).
  destruct (release_fires_variant Fixture.st false (30, 20)
              (EmojiListWidget._picker Fixture.opened) Hw Hne)
    as (_ & H & _).
  apply H. split; [vm_compute; discriminate|]. left. vm_compute. reflexivity.
Defined.

Lemma variant_cells_inside_witness :
  EmojiColorPicker.rectContains
    (EmojiColorPicker.updateSize Fixture.st false
       (EmojiListWidget._picker Fixture.opened))
    (EmojiColorPicker.mapFromGlobal
       (EmojiColorPicker.updateSize Fixture.st false
          (EmojiListWidget._picker Fixture.opened)) (30, 20))
  = true.
Proof.
  apply (variant_cells_inside Fixture.st false
           (EmojiListWidget._picker Fixture.opened) (30, 20));
    try (vm_compute; discriminate); vm_compute; reflexivity.
Defined.

Lemma release_ends_press_witness :
  EmojiListWidget._showPickerTimer
    (EmojiListWidget.mouseReleaseEvent Fixture.st false (26, 8) (26, 8)
       Fixture.panel)
  = None.
Proof.
  destruct (release_ends_press Fixture.st false Fixture.panel (26, 8) (26, 8))
    as (_ & H & _).
  apply H. vm_compute. reflexivity.
Defined.

Lemma press_dismisses_overlay_witness :
  EmojiListWidget._pickerSel
    (EmojiListWidget.mousePressEvent Fixture.st false (fun _ _ _ => 0)
       RightButton (1, 1) Fixture.opened)
  = -1.
Proof.
  assert (Hh : EmojiColorPicker.hidden (EmojiListWidget._picker Fixture.opened)
               = false) by (vm_compute; reflexivity).
  assert (Hk : 0 <= EmojiListWidget._pickerSel Fixture.opened)
    by (vm_compute; discriminate).
  exact (proj1 (press_dismisses_overlay Fixture.st false (fun _ _ _ => 0)
                  RightButton (1, 1) Fixture.opened Hh Hk)).
Defined.

Lemma quick_click_commits_witness :
  let w1 :=
    EmojiListWidget.mousePressEvent Fixture.st false (fun _ _ _ => 0)
      LeftButton (5, 7) Fixture.preferring in
  let w2 := EmojiListWidget.mouseReleaseEvent Fixture.st false (45, 40) (45, 40)
              w1 in
  EmojiListWidget._showPickerTimer w1 = Some 500
  /\ EmojiListWidget.chosen w2
     = EmojiListWidget.chosen Fixture.preferring ++ [Fixture.hand].
Proof.
  assert (Hp : EmojiListWidget._pressedSel Fixture.preferring < 0)
    by (vm_compute; reflexivity).
  assert (Hk : EmojiListWidget._pickerSel Fixture.preferring < 0)
    by (vm_compute; reflexivity).
  assert (Hh : EmojiColorPicker.hidden
                 (EmojiListWidget._picker Fixture.preferring) = true)
    by (vm_compute; reflexivity).
  assert (Hi : 0 <= hit Fixture.st false Fixture.preferring (5, 7))
    by (vm_compute; discriminate).
  assert (Hem : itemOf Fixture.preferring
                  (hit Fixture.st false Fixture.preferring (5, 7))
                = Some Fixture.hand) by (vm_compute; reflexivity).
  assert (Hvar : One.hasVariants Fixture.hand = true) by reflexivity.
  assert (Hpref : is_Some (EmojiListWidget.emojiVariants Fixture.preferring
                           !! One.nonColoredId Fixture.hand))
    by (exists 2; vm_compute; reflexivity).
  destruct (quick_click_commits Fixture.st false (fun _ _ _ => 0)
              Fixture.preferring (5, 7) (45, 40) (45, 40) Fixture.hand
              Hp Hk Hh Hi Hem Hvar Hpref) as (H1 & H2 & _).
  split; [exact H1|exact H2].
Defined.

Lemma long_press_opens_witness :
  let w1 :=
    EmojiListWidget.mousePressEvent Fixture.st false (fun _ _ _ => 0)
      LeftButton (5, 7) Fixture.preferring in
  let w2 :=
    EmojiListWidget.showPickerTimerFired Fixture.st false (fun _ _ _ => 0) w1 in
  EmojiColorPicker.hidden (EmojiListWidget._picker w2) = false
  /\ EmojiColorPicker._variants (EmojiListWidget._picker w2)
     = EmojiColorPicker.variantsOf Fixture.hand.
Proof.
  assert (Hp : EmojiListWidget._pressedSel Fixture.preferring < 0)
    by (vm_compute; reflexivity).
  assert (Hk : EmojiListWidget._pickerSel Fixture.preferring < 0)
    by (vm_compute; reflexivity).
  assert (Hi : 0 <= hit Fixture.st false Fixture.preferring (5, 7))
    by (vm_compute; discriminate).
  assert (Hem : itemOf Fixture.preferring
                  (hit Fixture.st false Fixture.preferring (5, 7))
                = Some Fixture.hand) by (vm_compute; reflexivity).
  assert (Hvar : One.hasVariants Fixture.hand = true) by reflexivity.
  assert (Hpref : is_Some (EmojiListWidget.emojiVariants Fixture.preferring
                           !! One.nonColoredId Fixture.hand))
    by (exists 2; vm_compute; reflexivity).
  destruct (long_press_opens Fixture.st false (fun _ _ _ => 0)
              Fixture.preferring (5, 7) Fixture.hand
              Hp Hk Hi Hem Hvar Hpref) as (H1 & H2 & _).
  split; [exact H1|exact H2].
Defined.

Lemma overlay_hide_completes_witness :
  EmojiColorPicker.hidden
    (EmojiListWidget._picker
       (EmojiListWidget.pickerAnimationCallback Fixture.st false (5, 7)
          Fixture.fading))
  = true.
Proof.
  destruct (overlay_hide_completes Fixture.st false (5, 7) Fixture.fading)
    as (_ & H).
  apply H; vm_compute; reflexivity.
Defined.

Lemma hide_finished_resets_witness :
  EmojiListWidget._pickerSel
    (EmojiListWidget.processHideFinished Fixture.st false (5, 7) Fixture.opened)
  = -1.
Proof.
  destruct (hide_finished_resets Fixture.st false (5, 7) Fixture.opened)
    as (_ & _ & _ & _ & _ & H & _).
  apply H. vm_compute. reflexivity.
Defined.

Lemma leave_then_enter_witness :
  EmojiListWidget._selected
    (EmojiListWidget.enterFromChildEvent Fixture.st false (25, 7)
       (EmojiListWidget.clearSelection Fixture.hovering))
  = hit Fixture.st false Fixture.hovering (25, 7).
Proof.
  destruct (leave_then_enter Fixture.st false (25, 7) Fixture.hovering)
    as (_ & _ & _ & _ & _ & _ & _ & H & _).
  apply H. vm_compute. reflexivity.
Defined.

Lemma dismissed_overlay_stays_witness :
  let w' :=
    EmojiListWidget.mouseMoveEvent Fixture.st false (5, 7) (5, 7)
      Fixture.released in
  EmojiColorPicker._ignoreShow (EmojiListWidget._picker w') = true
  /\ EmojiColorPicker._hiding (EmojiListWidget._picker w') = true
  /\ EmojiColorPicker.hidden (EmojiListWidget._picker w')
     = EmojiColorPicker.hidden (EmojiListWidget._picker Fixture.released).
Proof.
  assert (Hi : EmojiColorPicker._ignoreShow
                 (EmojiListWidget._picker Fixture.released) = true)
    by (vm_compute; reflexivity).
  assert (Hh : EmojiColorPicker._hiding
                 (EmojiListWidget._picker Fixture.released) = true)
    by (vm_compute; reflexivity).
  exact (dismissed_overlay_stays Fixture.st false (5, 7) (5, 7)
           Fixture.released Hi Hh).
Defined.

Lemma fire_before_deadlines_witness :
  let w' := EmojiListWidget.invokeRepaints Fixture.st 50 Fixture.requested in
  EmojiListWidget._repaints w' = EmojiListWidget._repaints Fixture.requested
  /\ EmojiListWidget.updated w' = EmojiListWidget.updated Fixture.requested
  /\ EmojiListWidget._repaintNext w' = 0
  /\ EmojiListWidget._repaintTimerScheduled w' = true.
Proof.
  apply (fire_before_deadlines Fixture.st 50 Fixture.requested).
  intros b Hb. vm_compute in Hb. apply list_elem_of_singleton in Hb.
  subst b. vm_compute. reflexivity.
Defined.

Lemma request_honoured_witness :
  let w1 :=
    EmojiListWidget.repaintLater 7 (RepaintRequest.mk 100 30)
      Fixture.refreshed in
  let w2 := EmojiListWidget.invokeRepaints Fixture.st 100 w1 in
  sectionRect Fixture.refreshed
    (EmojiListWidget.sectionInfo Fixture.st Fixture.refreshed
       (kEmojiSectionCount + Z.of_nat 0))
  ∈ EmojiListWidget.updated w2
  /\ EmojiListWidget.bucket (RepaintRequest.duration (RepaintRequest.mk 100 30))
       (EmojiListWidget._repaints w2) = None.
Proof.
  assert (Hinst : EmojiListWidget._instances Fixture.refreshed <> ∅)
    by (vm_compute; discriminate).
  assert (Hsorted : sortedBuckets (EmojiListWidget._repaints Fixture.refreshed))
    by constructor.
  assert (Hset : EmojiListWidget._custom Fixture.refreshed !! 0%nat
                 = Some Fixture.set7) by (vm_compute; reflexivity).
  assert (Hid : CustomSet.id Fixture.set7 = 7%N) by reflexivity.
  assert (Hnow : 0 <= 100) by lia.
  assert (Hwhen : RepaintRequest.when (RepaintRequest.mk 100 30) <= 100)
    by (vm_compute; discriminate).
  assert (Hold : forall r,
            EmojiListWidget.bucket
              (RepaintRequest.duration (RepaintRequest.mk 100 30))
              (EmojiListWidget._repaints Fixture.refreshed) = Some r ->
            Repaint.when r <= 100)
    by (intros r Hr; vm_compute in Hr; discriminate).
  exact (request_honoured Fixture.st 7 (RepaintRequest.mk 100 30) 100
           Fixture.refreshed 0 Fixture.set7
           Hinst Hsorted Hset Hid Hnow Hwhen Hold).
Defined.

Lemma coalescer_drains_witness :
  let w1 := EmojiListWidget.invokeRepaints Fixture.st 100 Fixture.requested in
  EmojiListWidget._repaints w1 = []
  /\ EmojiListWidget.postponedCall Fixture.st 110 110 w1
     = w1 <| EmojiListWidget._repaintTimerScheduled := false |>.
Proof.
  apply (coalescer_drains Fixture.st 100 110 110 Fixture.requested).
  intros b Hb. vm_compute in Hb. apply list_elem_of_singleton in Hb.
  subst b. vm_compute. discriminate.
Defined.

Lemma instances_stay_owned_witness :
  let w' :=
    EmojiListWidget.refreshCustom [7%N; 8%N] Fixture.catalog Fixture.panel in
  instancesOwned (EmojiListWidget._custom w') (EmojiListWidget._instances w').
Proof.
  assert (H : instancesOwned (EmojiListWidget._custom Fixture.panel)
                (EmojiListWidget._instances Fixture.panel)).
  { intros cs one Hcs. vm_compute in Hcs. apply elem_of_nil in Hcs.
    contradiction. }
  exact (proj1 (instances_stay_owned Fixture.st Fixture.panel H)
           [7%N; 8%N] Fixture.catalog).
Defined.

Lemma ensureLoaded_loads_witness :
  let w' :=
    EmojiListWidget.ensureLoaded []
      (fun _ => [Fixture.hand; Fixture.plain 5]) 2 Fixture.unloaded in
  EmojiListWidget._emoji w' !! Z.to_nat 2
  = Some (if 2 =? 0 then (if 2 =? 0 then [] else [Fixture.hand; Fixture.plain 5])
          else map (EmojiListWidget.preferVariant
                      (EmojiListWidget.emojiVariants Fixture.unloaded))
                 (if 2 =? 0 then [] else [Fixture.hand; Fixture.plain 5]))
  /\ EmojiListWidget._counts w' !! Z.to_nat 2
     = Some (Z.of_nat
               (length (if 2 =? 0 then []
                        else [Fixture.hand; Fixture.plain 5]))).
Proof.
  assert (Hs : 0 <= 2 < kEmojiSectionCount)
    by (vm_compute; split; [discriminate|reflexivity]).
  assert (Hle : (Z.to_nat 2
                 < length (EmojiListWidget._emoji Fixture.unloaded))%nat)
    by (vm_compute; lia).
  assert (Hlc : (Z.to_nat 2
                 < length (EmojiListWidget._counts Fixture.unloaded))%nat)
    by (vm_compute; lia).
  assert (He : EmojiListWidget.sectionEmpty Fixture.unloaded 2 = true)
    by (vm_compute; reflexivity).
  destruct (ensureLoaded_loads [] (fun _ => [Fixture.hand; Fixture.plain 5]) 2
              Fixture.unloaded Hs Hle Hlc He) as (H1 & H2 & _).
  split; [exact H1|exact H2].
Defined.

Lemma desired_height_fits_witness :
  1 <= EmojiListWidget._columnCount
         (EmojiListWidget.countDesiredHeight Fixture.st false Fixture.grid 60
            Fixture.panel).2.
Proof.
  assert (Hfull : 0 <= Style.roundRadiusSmall Fixture.st + 60
                       + StyleGrid.emojiScrollWidth Fixture.grid)
    by (vm_compute; discriminate).
  assert (Hscroll : 0 <= StyleGrid.emojiScrollWidth Fixture.grid)
    by (vm_compute; discriminate).
  assert (Hroom : StyleGrid.emojiScrollWidth Fixture.grid
                  + (Style.roundRadiusSmall Fixture.st + 60
                     + StyleGrid.emojiScrollWidth Fixture.grid) ÷ 6
                  <= Style.roundRadiusSmall Fixture.st + 60
                     + StyleGrid.emojiScrollWidth Fixture.grid)
    by (vm_compute; discriminate).
  assert (Hsize : StyleGrid.emojiPanDesiredSize Fixture.grid <> 0)
    by (vm_compute; discriminate).
  exact (proj1 (desired_height_fits Fixture.st false Fixture.grid 60
                  Fixture.panel Hsize Hfull Hscroll Hroom)).
Defined.

Lemma variant_cell_roundtrip_witness :
  EmojiColorPicker.variantAt Fixture.st false
    ((EmojiListWidget._picker Fixture.opened)
       <| EmojiColorPicker._lastMousePos := (30, 20) |>)
  = 2.
Proof.
  apply (variant_cell_roundtrip Fixture.st false
           ((EmojiListWidget._picker Fixture.opened)
              <| EmojiColorPicker._lastMousePos := (30, 20) |>) 2);
    vm_compute; (split || idtac); (discriminate || reflexivity).
Defined.

Lemma painted_cell_rect_witness :
  let index := cellOffset (EmojiListWidget._columnCount Fixture.panel) 1 0 in
  let cell := EmojiListWidget.paintCell Fixture.panel Fixture.firstSection 1 0 in
  EmojiListWidget.emojiRect Fixture.st Fixture.panel
    (SectionInfo.section Fixture.firstSection) index
  = QRect.mk (px cell) (py cell)
      (sizeWidth (EmojiListWidget._singleSize Fixture.panel))
      (sizeHeight (EmojiListWidget._singleSize Fixture.panel)).
Proof.
  assert (HC : 1 <= EmojiListWidget._columnCount Fixture.panel)
    by (vm_compute; discriminate).
  assert (Hin : Fixture.firstSection
                ∈ EmojiListWidget.enumerateSections Fixture.st Fixture.panel)
    by (apply list_elem_of_lookup; exists 0%nat; vm_compute; reflexivity).
  assert (Hi : 0 <= 1) by lia.
  assert (Hj : 0 <= 0 < EmojiListWidget._columnCount Fixture.panel)
    by (vm_compute; split; [discriminate|reflexivity]).
  exact (painted_cell_rect Fixture.st Fixture.panel Fixture.firstSection 1 0
           HC Hin Hi Hj).
Defined.

Lemma custom_click_commits_witness :
  let w1 :=
    EmojiListWidget.mousePressEvent Fixture.st false (fun _ _ _ => 0)
      LeftButton (5, 200) Fixture.refreshed in
  let w2 :=
    EmojiListWidget.mouseReleaseEvent Fixture.st false (6, 201) (6, 201) w1 in
  EmojiListWidget.customChosen w2
  = EmojiListWidget.customChosen Fixture.refreshed
    ++ [CustomOne.document (CustomOne.mk 42 Fixture.doc42)].
Proof.
  assert (Hp : EmojiListWidget._pressedSel Fixture.refreshed < 0)
    by (vm_compute; reflexivity).
  assert (Hk : EmojiListWidget._pickerSel Fixture.refreshed < 0)
    by (vm_compute; reflexivity).
  assert (Hi : 0 <= hit Fixture.st false Fixture.refreshed (5, 200))
    by (vm_compute; discriminate).
  assert (Hem : itemOf Fixture.refreshed
                  (hit Fixture.st false Fixture.refreshed (5, 200)) = None)
    by (vm_compute; reflexivity).
  assert (Hone : customItemOf Fixture.refreshed
                   (hit Fixture.st false Fixture.refreshed (5, 200))
                 = Some (CustomOne.mk 42 Fixture.doc42))
    by (vm_compute; reflexivity).
  assert (Htakes :
    EmojiListWidget.pickerTakes (6, 201)
      (EmojiListWidget.mousePressEvent Fixture.st false (fun _ _ _ => 0)
         LeftButton (5, 200) Fixture.refreshed) = false)
    by (vm_compute; reflexivity).
  assert (Hsame : hit Fixture.st false Fixture.refreshed (6, 201)
                  = hit Fixture.st false Fixture.refreshed (5, 200))
    by (vm_compute; reflexivity).
  exact (proj1 (custom_click_commits Fixture.st false (fun _ _ _ => 0)
                  Fixture.refreshed (5, 200) (6, 201) (6, 201)
                  (CustomOne.mk 42 Fixture.doc42)
                  Hp Hk Hi Hem Hone Htakes Hsame)).
Defined.

Lemma unload_leaves_nothing_witness :
  EmojiListWidget._instances Fixture.halfDrawn !! 42%N
  = Some (CustomInstance.mk 7 true)
  /\ EmojiListWidget.unloadSection 190 210 Fixture.halfDrawn
       (EmojiListWidget.sectionInfo Fixture.st Fixture.halfDrawn 9)
     = Fixture.halfDrawn.
Proof.
  split; [vm_compute; reflexivity|].
  apply (proj1 (unload_leaves_nothing Fixture.st 190 210 Fixture.halfDrawn)
           Fixture.halfDrawn
           (EmojiListWidget.sectionInfo Fixture.st Fixture.halfDrawn 9)
           Fixture.set8);
    vm_compute; reflexivity.
Defined.
